(** * app/post.go: the post write pipeline and the search aggregator

    A shallow embedding of [app/post.go].  The package [model] (posts, post
    lists, errors), the LRU cache of [utils], the stores and the plugin
    runtime live in other files of the repository; what [app/post.go] needs
    from them is either modelled below from the design document, or is a
    field of the environment record [Env] that the functions of the [app]
    module take as their receiver. *)

From Stdlib Require Import ZArith Lia.
From stdpp Require Import base option list strings gmap sorting.

(** ** Machine integers *)

(** Go's [int64] (and [int] on the 64-bit targets the server is built for):
    results of [+] and [*] wrap around. *)
Definition wrap64 (z : Z) : Z := ((z + 2 ^ 63) `mod` 2 ^ 64 - 2 ^ 63)%Z.
Definition add64 (a b : Z) : Z := wrap64 (a + b).
Definition mul64 (a b : Z) : Z := wrap64 (a * b).

Definition min_int64 : Z := (- 2 ^ 63)%Z.
Definition max_int64 : Z := (2 ^ 63 - 1)%Z.
Definition in_int64 (z : Z) : Prop := (min_int64 ≤ z ≤ max_int64)%Z.

(** ** net/http status codes *)

Definition StatusBadRequest : Z := 400.
Definition StatusForbidden : Z := 403.
Definition StatusNotFound : Z := 404.
Definition StatusConflict : Z := 409.
Definition StatusInternalServerError : Z := 500.
Definition StatusNotImplemented : Z := 501.

(** ** The parts of package [model] used by [app/post.go] *)

Module model.

Definition POST_SYSTEM_MESSAGE_PREFIX : string := "system_".
Definition DEFAULT_CHANNEL : string := "town-square".
Definition CHANNEL_OPEN : string := "O".
Definition PROPS_ADD_CHANNEL_MEMBER : string := "add_channel_member".
Definition PERMISSION_MANAGE_SYSTEM : string := "manage_system".

(** Values of the [params] map of an error. *)
Inductive Param :=
| ParamString (s : string)
| ParamInt (n : Z).

Module AppError.
Record t := mk {
  Where : string;
  Id : string;
  Params : list (string * Param);
  DetailedError : string;
  StatusCode : Z
}.
End AppError.

Definition NewAppError (where_ id : string) (params : list (string * Param))
    (details : string) (status : Z) : AppError.t :=
  AppError.mk where_ id params details status.

(** A Go result pair [(value, err)] with exactly one side set. *)
Inductive Result (A : Type) :=
| Ok (a : A)
| Err (e : AppError.t).
Arguments Ok {A} a.
Arguments Err {A} e.

Definition isErr {A} (r : Result A) : bool :=
  match r with Ok _ => false | Err _ => true end.

Module SlackAttachment.
Record t := mk {
  Fallback : string;
  Pretext : string;
  Text : string;
  Title : string
}.
#[global] Instance eq_dec : EqDecision t.
Proof. solve_decision. Defined.
End SlackAttachment.

(** The dynamic values found in a post's property map
    ([map[string]interface{}]). *)
Inductive PropValue :=
| PVString (s : string)
| PVAttachments (l : list SlackAttachment.t)  (* []*model.SlackAttachment *)
| PVInterfaces (l : list SlackAttachment.t)   (* []interface{} decoded from JSON *)
| PVMentions (m : gmap string string).        (* channel name to display_name *)

#[global] Instance PropValue_eq_dec : EqDecision PropValue.
Proof. solve_decision. Defined.

(** [model.StringInterface]; [None] is the nil map. *)
Abbreviation StringInterface := (option (gmap string PropValue)).

Module Post.
Record t := mk {
  Id : string;
  CreateAt : Z;
  UpdateAt : Z;
  EditAt : Z;
  DeleteAt : Z;
  IsPinned : bool;
  UserId : string;
  ChannelId : string;
  RootId : string;
  ParentId : string;
  Message : string;
  Type_ : string;
  Props : StringInterface;
  Hashtags : string;
  Filenames : list string;
  FileIds : list string;
  PendingPostId : string;
  HasReactions : bool
}.

#[global] Instance eq_dec : EqDecision t.
Proof. solve_decision. Defined.

Definition set_Id (v : string) (o : t) : t :=
  mk v (CreateAt o) (UpdateAt o) (EditAt o) (DeleteAt o) (IsPinned o)
     (UserId o) (ChannelId o) (RootId o) (ParentId o) (Message o) (Type_ o)
     (Props o) (Hashtags o) (Filenames o) (FileIds o) (PendingPostId o)
     (HasReactions o).
Definition set_CreateAt (v : Z) (o : t) : t :=
  mk (Id o) v (UpdateAt o) (EditAt o) (DeleteAt o) (IsPinned o)
     (UserId o) (ChannelId o) (RootId o) (ParentId o) (Message o) (Type_ o)
     (Props o) (Hashtags o) (Filenames o) (FileIds o) (PendingPostId o)
     (HasReactions o).
Definition set_UpdateAt (v : Z) (o : t) : t :=
  mk (Id o) (CreateAt o) v (EditAt o) (DeleteAt o) (IsPinned o)
     (UserId o) (ChannelId o) (RootId o) (ParentId o) (Message o) (Type_ o)
     (Props o) (Hashtags o) (Filenames o) (FileIds o) (PendingPostId o)
     (HasReactions o).
Definition set_EditAt (v : Z) (o : t) : t :=
  mk (Id o) (CreateAt o) (UpdateAt o) v (DeleteAt o) (IsPinned o)
     (UserId o) (ChannelId o) (RootId o) (ParentId o) (Message o) (Type_ o)
     (Props o) (Hashtags o) (Filenames o) (FileIds o) (PendingPostId o)
     (HasReactions o).
Definition set_IsPinned (v : bool) (o : t) : t :=
  mk (Id o) (CreateAt o) (UpdateAt o) (EditAt o) (DeleteAt o) v
     (UserId o) (ChannelId o) (RootId o) (ParentId o) (Message o) (Type_ o)
     (Props o) (Hashtags o) (Filenames o) (FileIds o) (PendingPostId o)
     (HasReactions o).
Definition set_ParentId (v : string) (o : t) : t :=
  mk (Id o) (CreateAt o) (UpdateAt o) (EditAt o) (DeleteAt o) (IsPinned o)
     (UserId o) (ChannelId o) (RootId o) v (Message o) (Type_ o)
     (Props o) (Hashtags o) (Filenames o) (FileIds o) (PendingPostId o)
     (HasReactions o).
Definition set_Message (v : string) (o : t) : t :=
  mk (Id o) (CreateAt o) (UpdateAt o) (EditAt o) (DeleteAt o) (IsPinned o)
     (UserId o) (ChannelId o) (RootId o) (ParentId o) v (Type_ o)
     (Props o) (Hashtags o) (Filenames o) (FileIds o) (PendingPostId o)
     (HasReactions o).
Definition set_Type (v : string) (o : t) : t :=
  mk (Id o) (CreateAt o) (UpdateAt o) (EditAt o) (DeleteAt o) (IsPinned o)
     (UserId o) (ChannelId o) (RootId o) (ParentId o) (Message o) v
     (Props o) (Hashtags o) (Filenames o) (FileIds o) (PendingPostId o)
     (HasReactions o).
Definition set_Props (v : StringInterface) (o : t) : t :=
  mk (Id o) (CreateAt o) (UpdateAt o) (EditAt o) (DeleteAt o) (IsPinned o)
     (UserId o) (ChannelId o) (RootId o) (ParentId o) (Message o) (Type_ o)
     v (Hashtags o) (Filenames o) (FileIds o) (PendingPostId o)
     (HasReactions o).
Definition set_Hashtags (v : string) (o : t) : t :=
  mk (Id o) (CreateAt o) (UpdateAt o) (EditAt o) (DeleteAt o) (IsPinned o)
     (UserId o) (ChannelId o) (RootId o) (ParentId o) (Message o) (Type_ o)
     (Props o) v (Filenames o) (FileIds o) (PendingPostId o)
     (HasReactions o).
Definition set_FileIds (v : list string) (o : t) : t :=
  mk (Id o) (CreateAt o) (UpdateAt o) (EditAt o) (DeleteAt o) (IsPinned o)
     (UserId o) (ChannelId o) (RootId o) (ParentId o) (Message o) (Type_ o)
     (Props o) (Hashtags o) (Filenames o) v (PendingPostId o)
     (HasReactions o).
Definition set_HasReactions (v : bool) (o : t) : t :=
  mk (Id o) (CreateAt o) (UpdateAt o) (EditAt o) (DeleteAt o) (IsPinned o)
     (UserId o) (ChannelId o) (RootId o) (ParentId o) (Message o) (Type_ o)
     (Props o) (Hashtags o) (Filenames o) (FileIds o) (PendingPostId o)
     v.

(** The zero value [model.Post{}]. *)
Definition zero : t :=
  mk "" 0 0 0 0 false "" "" "" "" "" "" None "" [] [] "" false.

(** Modelled from the spec: [Post.IsSystemMessage] of model/post.go,
    whose source is not part of this file: the declared message type lies
    in the reserved system-message namespace, that is, it starts with
    [POST_SYSTEM_MESSAGE_PREFIX]. *)
Definition IsSystemMessage (o : t) : bool :=
  String.prefix POST_SYSTEM_MESSAGE_PREFIX (Type_ o).

(** Reading a key of the property map; the nil map has no keys. *)
Definition prop (o : t) (key : string) : option PropValue :=
  m ← Props o; m !! key.

(** Modelled from the spec: [Post.AddProp] of model/post.go: attaches a
    value to the post's property map, allocating the map when it is nil. *)
Definition AddProp (key : string) (value : PropValue) (o : t) : t :=
  set_Props (Some (<[key := value]> (default ∅ (Props o)))) o.

(** [delete(o.Props, key)]: a no-op on the nil map. *)
Definition DelProp (key : string) (o : t) : t :=
  set_Props (delete key <$> Props o) o.

(** Modelled from the spec: [Post.SanitizeProps] of model/post.go:
    strips from the property map the fields a client must not set
    directly (server-assigned metadata). *)
Definition SanitizeProps (o : t) : t :=
  DelProp PROPS_ADD_CHANNEL_MEMBER o.

(** Modelled from the spec: [Post.Attachments] of model/post.go: the
    attachments derived from the property map, whether they are stored
    in the typed or in the generic (legacy, JSON-decoded) shape. *)
Definition Attachments (o : t) : list SlackAttachment.t :=
  match prop o "attachments" with
  | Some (PVAttachments l) => l
  | Some (PVInterfaces l) => l
  | _ => []
  end.

(** Modelled from the spec: [Post.AttachmentsEqual] of model/post.go: the
    structural-equality check on the property-derived attachments. *)
Definition AttachmentsEqual (o input : t) : bool :=
  bool_decide (Attachments o = Attachments input).
End Post.

(** Modelled from the spec: [StringArray.Equals] of model/utils.go: the
    structural-equality check on file-reference lists. *)
Definition StringArray_Equals (sa input : list string) : bool :=
  bool_decide (sa = input).

Module Channel.
Record t := mk {
  Id : string;
  DeleteAt : Z;
  TeamId : string;
  Type_ : string;
  DisplayName : string;
  Name : string
}.
End Channel.

Module User.
Record t := mk {
  Id : string;
  Username : string;
  Roles : string;
  Locale : string;
  IsBot : bool
}.
Definition GetRoles (u : t) : list string := String.words (Roles u).
End User.

Module Team.
Record t := mk { Id : string }.
Definition zero : t := mk "".
End Team.

Module SearchParams.
Record t := mk {
  Terms : string;
  InChannels : list string;
  ExcludedChannels : list string;
  FromUsers : list string;
  ExcludedUsers : list string;
  OrTerms : bool;
  IncludeDeletedChannels : bool;
  SearchWithoutUserId : bool
}.
Definition set_InChannels (v : list string) (p : t) : t :=
  mk (Terms p) v (ExcludedChannels p) (FromUsers p) (ExcludedUsers p)
     (OrTerms p) (IncludeDeletedChannels p) (SearchWithoutUserId p).
Definition set_ExcludedChannels (v : list string) (p : t) : t :=
  mk (Terms p) (InChannels p) v (FromUsers p) (ExcludedUsers p)
     (OrTerms p) (IncludeDeletedChannels p) (SearchWithoutUserId p).
Definition set_FromUsers (v : list string) (p : t) : t :=
  mk (Terms p) (InChannels p) (ExcludedChannels p) v (ExcludedUsers p)
     (OrTerms p) (IncludeDeletedChannels p) (SearchWithoutUserId p).
Definition set_ExcludedUsers (v : list string) (p : t) : t :=
  mk (Terms p) (InChannels p) (ExcludedChannels p) (FromUsers p) v
     (OrTerms p) (IncludeDeletedChannels p) (SearchWithoutUserId p).
Definition set_OrTerms (v : bool) (p : t) : t :=
  mk (Terms p) (InChannels p) (ExcludedChannels p) (FromUsers p)
     (ExcludedUsers p) v (IncludeDeletedChannels p) (SearchWithoutUserId p).
Definition set_IncludeDeletedChannels (v : bool) (p : t) : t :=
  mk (Terms p) (InChannels p) (ExcludedChannels p) (FromUsers p)
     (ExcludedUsers p) (OrTerms p) v (SearchWithoutUserId p).
Definition set_SearchWithoutUserId (v : bool) (p : t) : t :=
  mk (Terms p) (InChannels p) (ExcludedChannels p) (FromUsers p)
     (ExcludedUsers p) (OrTerms p) (IncludeDeletedChannels p) v.
End SearchParams.

(** Modelled from the spec: [PostList] of model/post_list.go: an ordered
    sequence of post identifiers plus a mapping from identifier to post,
    with extension (union-merge, deduplicating by identifier) and ordering
    by creation time. *)
Module PostList.
Record t := mk {
  Order : list string;
  Posts : gmap string Post.t;
  NextPostId : string;
  PrevPostId : string
}.

Definition NewPostList : t := mk [] ∅ "" "".

Definition set_Order (v : list string) (o : t) : t :=
  mk v (Posts o) (NextPostId o) (PrevPostId o).

Definition AddOrder (id : string) (o : t) : t :=
  mk (Order o ++ [id]) (Posts o) (NextPostId o) (PrevPostId o).

Definition AddPost (post : Post.t) (o : t) : t :=
  mk (Order o) (<[Post.Id post := post]> (Posts o)) (NextPostId o)
     (PrevPostId o).

(** One pass of [Extend] over the identifiers of [other]: an identifier
    already present in [o] is not re-inserted. *)
Fixpoint Extend_loop (ids : list string) (other o : t) : t :=
  match ids with
  | [] => o
  | postId :: rest =>
      match Posts o !! postId, Posts other !! postId with
      | None, Some post => Extend_loop rest other (AddOrder postId (AddPost post o))
      | _, _ => Extend_loop rest other o
      end
  end.

Definition Extend (other o : t) : t := Extend_loop (Order other) other o.

(** The spec orders a post list "by creation time" and leaves the
    direction open; it is a parameter of the model. *)
Inductive Direction := OldestFirst | NewestFirst.

Definition CreateAtOf (o : t) (id : string) : Z :=
  from_option Post.CreateAt 0%Z (Posts o !! id).

Definition before (d : Direction) (o : t) (x y : string) : Prop :=
  match d with
  | OldestFirst => (CreateAtOf o x ≤ CreateAtOf o y)%Z
  | NewestFirst => (CreateAtOf o y ≤ CreateAtOf o x)%Z
  end.

#[global] Instance before_dec d o : RelDecision (before d o).
Proof. intros x y; destruct d; simpl; apply _. Defined.

Definition SortByCreateAt (d : Direction) (o : t) : t :=
  set_Order (merge_sort (before d o) (Order o)) o.

(** Every post of the list belongs to [channelId]. *)
Definition IsChannelId (channelId : string) (o : t) : bool :=
  bool_decide (map_Forall (λ _ p, Post.ChannelId p = channelId) (Posts o)).
End PostList.

Abbreviation PostSearchMatches := (option (gmap string (list string))).

Module PostSearchResults.
Record t := mk {
  PostList : PostList.t;
  Matches : PostSearchMatches
}.
End PostSearchResults.

Definition MakePostSearchResults (posts : PostList.t) (matches : PostSearchMatches)
    : PostSearchResults.t :=
  PostSearchResults.mk posts matches.

End model.

(** ** The deduplication cache ([utils.Cache]) *)

(** Modelled from the spec: the LRU cache of utils/lru.go, as the design
    document describes it: a time-bounded key to value cache with an atomic
    get-or-insert; an entry expires after its window, measured from its first
    insertion; the number of entries is capped, and the oldest entry is
    evicted when the cache is full.  Times are in milliseconds. *)
Module Cache.
Record Entry := mkEntry {
  key : string;
  value : string;
  expires : Z
}.

Record t := mk {
  size : Z;                (* the cap on the number of entries *)
  items : list Entry       (* newest first *)
}.

Definition live (now : Z) (e : Entry) : bool := bool_decide (now ≤ expires e)%Z.

Definition find (k : string) (now : Z) (c : t) : option Entry :=
  head (filter (λ e, key e = k ∧ live now e = true) (items c)).

Definition without (k : string) (c : t) : list Entry :=
  filter (λ e, key e ≠ k) (items c).

(** Inserts at the front and evicts from the back beyond the cap. *)
Definition push (e : Entry) (size : Z) (l : list Entry) : list Entry :=
  take (Z.to_nat size) (e :: l).

Definition Remove (k : string) (c : t) : t := mk (size c) (without k c).

(** [GetOrAdd(key, value, ttl)]: the present value and [true], or else the
    given value, now recorded, and [false]. *)
Definition GetOrAdd (k v : string) (ttl : Z) (now : Z) (c : t) : (string * bool) * t :=
  match find k now c with
  | Some e => ((value e, true), c)
  | None => ((v, false), mk (size c) (push (mkEntry k v (now + ttl)) (size c) (without k c)))
  end.

(** [AddWithExpiresInSecs(key, value, secs)]: replaces the value of a
    present entry, whose window keeps running from its first insertion, or
    records a new entry. *)
Definition AddWithExpiresInSecs (k v : string) (secs : Z) (now : Z) (c : t) : t :=
  match find k now c with
  | Some e =>
      mk (size c)
         ((λ e', if decide (key e' = k) then mkEntry k v (expires e') else e') <$> items c)
  | None => mk (size c) (push (mkEntry k v (now + secs * 1000)) (size c) (without k c))
  end.
End Cache.

(** ** The plugin runtime *)

Module plugin.
Import model.

Definition DismissPostError : string := "plugin.message_will_be_posted.dismiss_post".

Inductive HookId :=
| MessageWillBePostedId
| MessageHasBeenPostedId
| MessageWillBeUpdatedId
| MessageHasBeenUpdatedId.

#[global] Instance HookId_eq_dec : EqDecision HookId.
Proof. solve_decision. Defined.

(** The hooks of one extension.  A Go [*model.Post] argument that may be
    nil is an [option]. *)
Record Hooks := mkHooks {
  Implements : HookId → bool;
  MessageWillBePosted : Post.t → option Post.t * string;
  MessageWillBeUpdated : option Post.t → Post.t → option Post.t * string
}.

(** The active extensions, in registration order. *)
Definition Environment := list Hooks.

(** Modelled from the spec: [Environment.RunMultiPluginHook] of
    plugin/environment.go: runs the ordered chain of the extensions that
    implement the hook; the chain stops as soon as the callback returns
    false.  The callback is a Go closure that assigns variables of its
    caller; these variables are the state [S] threaded through the chain. *)
Fixpoint RunMultiPluginHook {S : Type} (env : Environment)
    (hookRunnerFunc : Hooks → S → S * bool) (hookId : HookId) (s : S) : S :=
  match env with
  | [] => s
  | hooks :: rest =>
      if Implements hooks hookId then
        let '(s', continue) := hookRunnerFunc hooks s in
        if continue then RunMultiPluginHook rest hookRunnerFunc hookId s' else s'
      else RunMultiPluginHook rest hookRunnerFunc hookId s
  end.
End plugin.

(** ** The server state and the effects of a request *)

Import model.

Inductive LogLevel := LDebug | LWarn | LError.

(** Work handed to [a.Srv.Go]: detached background tasks, with no join
    point; only their submission is observable in a request. *)
Inductive Task :=
| TaskMessageHasBeenPosted (rpost : Post.t)
| TaskMessageHasBeenUpdated (newPost oldPost : Post.t)
| TaskIndexPost (rpost : Post.t) (teamId : string)
| TaskIndexUpdatedPost (rpost : Post.t)
| TaskSendAutoResponse (channel : Channel.t) (user : User.t)
| TaskWebhookEvents (post : Post.t) (team : Team.t) (channel : Channel.t) (user : User.t).

(** The effects of a request on its collaborators, in program order. *)
Inductive Event :=
| EvPostSave (post : Post.t) (res : Result Post.t)
| EvPostUpdate (newPost oldPost : Post.t) (res : Result Post.t)
| EvPostOverwrite (post : Post.t) (res : Result Post.t)
| EvAttachToPost (fileId postId userId : string)
| EvSearch (teamId userId : string) (params : SearchParams.t)
| EvPublish (event : string) (channelId userId : string) (post : Post.t)
| EvInvalidateCacheForChannel (channelId : string)
| EvInvalidateCacheForChannelPosts (channelId : string)
| EvSendNotifications (post : Post.t)
| EvIncrementPostCreate
| EvIncrementPostFileAttachment (n : nat)
| EvGo (task : Task)
| EvLog (level : LogLevel) (msg : string).

(** A write to the post store. *)
Definition is_store_write (ev : Event) : bool :=
  match ev with
  | EvPostSave _ _ | EvPostUpdate _ _ _ | EvPostOverwrite _ _ => true
  | _ => false
  end.

(** A post committed by [Store.Post().Save]. *)
Definition is_committed_save (ev : Event) : bool :=
  match ev with
  | EvPostSave _ (Ok _) => true
  | _ => false
  end.

Definition store_writes (evs : list Event) : list Event := filter (λ ev, is_store_write ev = true) evs.
Definition committed_saves (evs : list Event) : nat :=
  length (filter (λ ev, is_committed_save ev = true) evs).

Record World := mkWorld {
  seenPendingPostIdsCache : Cache.t;   (* a.Srv.seenPendingPostIdsCache *)
  clockReads : nat;                    (* readings of the clock taken so far *)
  events : list Event                  (* effects so far, oldest first *)
}.

(** A call returns, or panics (a nil dereference). *)
Inductive Outcome (A : Type) :=
| Returns (a : A)
| Panics (reason : string).
Arguments Returns {A} a.
Arguments Panics {A} reason.

Definition M (A : Type) : Type := World → Outcome A * World.

Definition ret {A} (a : A) : M A := λ w, (Returns a, w).
Definition panic {A} (reason : string) : M A := λ w, (Panics reason, w).
Definition bind {A B} (m : M A) (k : A → M B) : M B :=
  λ w, match m w with
       | (Returns a, w') => k a w'
       | (Panics reason, w') => (Panics reason, w')
       end.

#[global] Instance M_ret : MRet M := @ret.
#[global] Instance M_bind : MBind M := λ A B k m, bind m k.

(** An update of the deduplication cache. *)
Definition modifyCache {A} (f : Cache.t → A * Cache.t) : M A :=
  λ w, let '(r, c) := f (seenPendingPostIdsCache w) in
       (Returns r, mkWorld c (clockReads w) (events w)).

Definition emit (ev : Event) : M unit :=
  λ w, (Returns tt, mkWorld (seenPendingPostIdsCache w) (clockReads w) (events w ++ [ev])).

Definition mlog (level : LogLevel) (msg : string) : M unit := emit (EvLog level msg).

Definition Go (task : Task) : M unit := emit (EvGo task).

Definition when (b : bool) (m : M unit) : M unit := if b then m else ret tt.

(** ** Package [strings] *)

Definition strings_HasPrefix (s prefix : string) : bool := String.prefix prefix s.

Definition strings_Contains (s substr : string) : bool :=
  bool_decide (is_Some (String.index 0 substr s)).

(** The byte [','], checked against the literal. *)
Definition comma : Ascii.ascii :=
  Eval cbv in match "," with String c _ => c | EmptyString => Ascii.zero end.

(** [s[1:]] *)
Definition string_tail (s : string) : string :=
  match s with
  | EmptyString => EmptyString
  | String _ rest => rest
  end.

(** [strings.Split(s, sep)] for a one-byte separator. *)
Fixpoint strings_Split_go (sep : Ascii.ascii) (cur s : string) : list string :=
  match s with
  | EmptyString => [cur]
  | String c rest =>
      if Ascii.eqb c sep then cur :: strings_Split_go sep "" rest
      else strings_Split_go sep (cur +:+ String c "") rest
  end.

Definition strings_Split (s : string) (sep : Ascii.ascii) : list string :=
  strings_Split_go sep "" s.

(** ** The application: the receiver [a *App] *)

(** [time.Duration] counts nanoseconds. *)
Definition time_Second : Z := 1000000000.
Definition Duration_Seconds (d : Z) : Z := (d `div` time_Second)%Z.
Definition Duration_Milliseconds (d : Z) : Z := (d `div` 1000000)%Z.

(** What [app/post.go] reads from the rest of the server: configuration and
    licence, the clock, the stores, the search index, the plugin environment
    and the functions of package [app] defined in other files.  Reads are
    functions; writes are recorded as [Event]s by the code that issues
    them, with the answer the collaborator gives. *)
Record Env := mkEnv {
  License : bool;                              (* a.License() != nil *)
  ExperimentalTownSquareIsReadOnly : bool;
  ExperimentalViewArchivedChannels : bool;
  PostEditTimeLimit : Z;
  EnablePostSearch : bool;
  IsESIndexingEnabled : bool;
  IsESSearchEnabled : bool;
  Metrics : bool;                              (* a.Metrics != nil *)
  GetPluginsEnvironment : option plugin.Environment;
  clock : nat → Z;                             (* the n-th reading, in ms *)
  Store_Channel_GetForPost : string → Result Channel.t;
  Store_User_Get : string → Result User.t;
  Store_Team_Get : string → Result Team.t;
  Store_Post_Get : string → Result PostList.t;
  Store_Post_GetSingle : string → Result Post.t;
  Store_Post_GetPostsByIds : list string → Result (list Post.t);
  Store_Post_Search : string → string → SearchParams.t → Result PostList.t;
  Store_Post_Save : Post.t → Result Post.t;
  Store_Post_Update : Post.t → Post.t → Result Post.t;
  Store_Post_Overwrite : Post.t → Result Post.t;
  Store_FileInfo_AttachToPost : string → string → string → option AppError.t;
  Elasticsearch_SearchPosts :
    list Channel.t → list SearchParams.t → Z → Z → Result (list string * PostSearchMatches);
  GetChannel : string → Result Channel.t;
  GetChannelByName : string → string → bool → Result Channel.t;
  GetChannelsByNames : list string → string → Result (list Channel.t);
  GetChannelsForUser : string → string → bool → Result (list Channel.t);
  GetGroupChannel : list string → Result Channel.t;
  GetOrCreateDirectChannel : string → string → Result Channel.t;
  GetUserByUsername : string → Result User.t;
  GetUsersByUsernames : list string → Result (list User.t);
  RolesGrantPermission : list string → string → bool;
  PreparePostForClient : Post.t → bool → bool → Post.t;
  SendNotifications :
    Post.t → Team.t → Channel.t → User.t → option PostList.t → option string;
  ParseHashtags : string → string * string;    (* model.ParseHashtags *)
  ChannelMentions : Post.t → list string;      (* post.ChannelMentions() *)
  ErrorString : AppError.t → string;           (* err.Error() *)
  (** [json.Marshal] of the attachments followed by [json.Unmarshal] into
      [[]interface{}]: [None] when marshalling fails, otherwise the decoded
      value and whether decoding succeeded. *)
  jsonRoundTrip : list SlackAttachment.t → option (list SlackAttachment.t * bool)
}.

(** ** The rest of the server, for the other functions of [app/post.go] *)

Definition sub64 (a b : Z) : Z := wrap64 (a - b).

(** [err.StatusCode = status] *)
Definition AppError_set_StatusCode (status : Z) (err : AppError.t) : AppError.t :=
  AppError.mk (AppError.Where err) (AppError.Id err) (AppError.Params err)
    (AppError.DetailedError err) status.

Module ChannelMember.
Record t := mk { LastViewedAt : Z }.
End ChannelMember.

(** What the functions of [app/post.go] other than the create, update and
    search paths above read from the rest of the server.  A Go result pair
    that the code reads on both sides is a pair here; a call of which the
    code reads the error only answers with the error. *)
Record Backend := mkBackend {
  (** [model.PostPatch] and [Post.Patch], of model/post.go *)
  PostPatch : Type;
  Post_Patch : Post.t → PostPatch → Post.t;
  FileInfo : Type;                                    (* model.FileInfo *)
  (** constants of package [model] *)
  POST_EPHEMERAL : string;
  PREFERENCE_CATEGORY_FLAGGED_POST : string;
  WEBSOCKET_EVENT_POST_DELETED : string;
  WEBSOCKET_EVENT_EPHEMERAL_MESSAGE : string;
  Store_Channel_Get : string → bool → Result Channel.t;
  Store_Post_GetPostIdAfterTime : string → Z → string * option AppError.t;
  Store_Post_GetPostIdBeforeTime : string → Z → string * option AppError.t;
  (** [GetPostsBefore(channelId, postId, numPosts, offset)]; the list may
      be nil *)
  Store_Post_GetPostsBefore : string → string → Z → Z → Result (option PostList.t);
  Store_Post_GetPostsAfter : string → string → Z → Z → Result (option PostList.t);
  Store_Post_Delete : string → Z → string → option AppError.t;
  Store_Preference_DeleteCategoryAndName : string → string → option AppError.t;
  Store_FileInfo_DeleteForPost : string → option AppError.t;
  (** [GetForPost(postId, readFromMaster, includeDeleted, allowFromCache)] *)
  Store_FileInfo_GetForPost : string → bool → bool → bool → Result (list FileInfo);
  Elasticsearch_DeletePost : Post.t → option AppError.t;
  GetChannelMember : string → string → Result ChannelMember.t;
  JoinChannel : Channel.t → string → option AppError.t;
  MarkChannelsAsViewed : list string → string → string → option AppError.t;
  MigrateFilenamesToFileInfos : Post.t → list FileInfo;
  (** [utils.GetUserTranslations(locale)], applied to a message id *)
  GetUserTranslations : string → string → string;
  NewId : nat → string;                               (* the n-th [model.NewId()] *)
  (** [post.GenerateActionIds()], of model/post.go; the attachments of this
      model carry no actions *)
  Post_GenerateActionIds : Post.t → Post.t;
  AddPostActionCookies : Post.t → string → Post.t;    (* model.AddPostActionCookies *)
  PostActionCookieSecret : string;
  strings_TrimSpace : string → string;
  ParseSearchParams : string → Z → list SearchParams.t   (* model.ParseSearchParams *)
}.

(** ** The effects of the other functions *)

(** Work that [DeletePost] hands to [a.Srv.Go]. *)
Inductive Job :=
| JobDeletePostFiles (post : Post.t)
| JobDeleteFlaggedPosts (postId : string)
| JobElasticsearchDeletePost (post : Post.t).

(** The effects of a request on its collaborators, in program order: those
    of the create, update and search paths, and the writes of the other
    functions, with the answer the collaborator gives. *)
Inductive Effect :=
| EfEvent (ev : Event)
| EfPostDelete (postId : string) (time : Z) (deleteByID : string) (err : option AppError.t)
| EfPreferenceDeleteCategoryAndName (category name : string) (err : option AppError.t)
| EfFileInfoDeleteForPost (postId : string) (err : option AppError.t)
| EfElasticsearchDeletePost (post : Post.t) (err : option AppError.t)
| EfJoinChannel (channel : Channel.t) (userId : string) (err : option AppError.t)
| EfMarkChannelsAsViewed (channelIds : list string) (userId currentSessionId : string)
    (err : option AppError.t)
| EfInvalidateFileInfosForPostCache (postId : string)
| EfMigrateFilenamesToFileInfos (post : Post.t)
| EfGo (job : Job).

Record Site := mkSite {
  world : World;
  drawn : nat;              (* identifiers drawn from [model.NewId] so far *)
  trace : list Effect       (* effects so far, oldest first *)
}.

Definition N (A : Type) : Type := Site → Outcome A * Site.

Definition N_ret {A} (x : A) : N A := λ s, (Returns x, s).
Definition N_panic {A} (reason : string) : N A := λ s, (Panics reason, s).
Definition N_bind {A B} (m : N A) (k : A → N B) : N B :=
  λ s, match m s with
       | (Returns x, s') => k x s'
       | (Panics reason, s') => (Panics reason, s')
       end.

#[global] Instance N_mret : MRet N := @N_ret.
#[global] Instance N_mbind : MBind N := λ A B k m, N_bind m k.

(** A computation of the create, update and search paths, run in place: the
    effects it adds to the world are added to the trace. *)
Definition lift_M {A} (m : M A) : N A :=
  λ s, let '(out, w') := m (world s) in
       (out, mkSite w' (drawn s)
               (trace s ++ (EfEvent <$> drop (length (events (world s))) (events w')))).

Definition effect (ef : Effect) : N unit :=
  λ s, (Returns tt, mkSite (world s) (drawn s) (trace s ++ [ef])).

(** [model.NewId()] *)
Definition draw (ids : nat → string) : N string :=
  λ s, (Returns (ids (drawn s)), mkSite (world s) (S (drawn s)) (trace s)).

Definition N_when (b : bool) (m : N unit) : N unit := if b then m else N_ret tt.

Module app.

Definition PENDING_POST_IDS_CACHE_SIZE : Z := 25000.
Definition PENDING_POST_IDS_CACHE_TTL : Z := 30 * time_Second.

Section App.
Variable a : Env.

(** [model.GetMillis()] and [time.Now()]: the next reading of the clock. *)
Definition GetMillis : M Z :=
  λ w, (Returns (clock a (clockReads w)),
        mkWorld (seenPendingPostIdsCache w) (S (clockReads w)) (events w)).

Definition seenPendingPostIdsCache_GetOrAdd (k v : string) (ttl : Z) : M (string * bool) :=
  now ← GetMillis;
  modifyCache (Cache.GetOrAdd k v (Duration_Milliseconds ttl) now).

Definition seenPendingPostIdsCache_AddWithExpiresInSecs (k v : string) (secs : Z) : M unit :=
  now ← GetMillis;
  modifyCache (λ c, (tt, Cache.AddWithExpiresInSecs k v secs now c)).

Definition seenPendingPostIdsCache_Remove (k : string) : M unit :=
  modifyCache (λ c, (tt, Cache.Remove k c)).

Definition GetSinglePost (postId : string) : Result Post.t :=
  Store_Post_GetSingle a postId.

(** [deduplicateCreatePost]: [(foundPost, err)], where [foundPost] may be
    nil. *)
Definition deduplicateCreatePost (post : Post.t) : M (Result (option Post.t)) :=
  if decide (Post.PendingPostId post = "") then ret (Ok None)
  else
    let unknownPostId := "" in
    '(value, loaded) ← seenPendingPostIdsCache_GetOrAdd (Post.PendingPostId post)
                         unknownPostId PENDING_POST_IDS_CACHE_TTL;
    if negb loaded then ret (Ok None)
    else
      let postId := value in
      if decide (postId = unknownPostId) then
        ret (Err (NewAppError "deduplicateCreatePost"
                    "api.post.deduplicate_create_post.pending" [] ""
                    StatusInternalServerError))
      else
        match GetSinglePost postId with
        | Err err =>
            ret (Err (NewAppError "deduplicateCreatePost"
                        "api.post.deduplicate_create_post.failed_to_get" []
                        (ErrorString a err) StatusInternalServerError))
        | Ok actualPost =>
            mlog LDebug "Deduplicated create post";;
            ret (Ok (Some actualPost))
        end.

(** [FillInPostProps]: fills in [channel_mentions]; returns the post as
    the call leaves it.  [channel] may be nil. *)
Definition FillInPostProps (post : Post.t) (channel : option Channel.t) : Result Post.t :=
  let channelMentions := ChannelMentions a post in
  let channelMentionsProp : Result (gmap string string) :=
    if bool_decide (0 < length channelMentions) then
      let channel' :=
        match channel with
        | Some c => Ok c
        | None =>
            match Store_Channel_GetForPost a (Post.Id post) with
            | Err err =>
                Err (NewAppError "FillInPostProps" "api.context.invalid_param.app_error"
                       [("Name", ParamString "post.channel_id")] (ErrorString a err)
                       StatusBadRequest)
            | Ok postChannel => Ok postChannel
            end
        end in
      match channel' with
      | Err err => Err err
      | Ok channel =>
          match GetChannelsByNames a channelMentions (Channel.TeamId channel) with
          | Err err => Err err
          | Ok mentionedChannels =>
              Ok (foldl (λ prop mentioned,
                           if decide (Channel.Type_ mentioned = CHANNEL_OPEN)
                           then <[Channel.Name mentioned := Channel.DisplayName mentioned]> prop
                           else prop)
                        ∅ mentionedChannels)
          end
      end
    else Ok ∅ in
  match channelMentionsProp with
  | Err err => Err err
  | Ok channelMentionsProp =>
      if bool_decide (0 < size channelMentionsProp) then
        Ok (Post.AddProp "channel_mentions" (PVMentions channelMentionsProp) post)
      else if bool_decide (Post.Props post ≠ None) then
        Ok (Post.DelProp "channel_mentions" post)
      else Ok post
  end.

(** [attachFilesToPost]: the loop over [post.FileIds]. *)
Fixpoint attachFilesToPost_loop (post : Post.t) (fileIds attachedIds : list string)
    : M (list string) :=
  match fileIds with
  | [] => ret attachedIds
  | fileId :: rest =>
      emit (EvAttachToPost fileId (Post.Id post) (Post.UserId post));;
      match Store_FileInfo_AttachToPost a fileId (Post.Id post) (Post.UserId post) with
      | Some err =>
          mlog LWarn "Failed to attach file to post";;
          attachFilesToPost_loop post rest attachedIds
      | None => attachFilesToPost_loop post rest (attachedIds ++ [fileId])
      end
  end.

(** [attachFilesToPost]: the post as the call leaves it, and the error. *)
Definition attachFilesToPost (post : Post.t) : M (Post.t * option AppError.t) :=
  attachedIds ← attachFilesToPost_loop post (Post.FileIds post) [];
  if bool_decide (length (Post.FileIds post) ≠ length attachedIds) then
    let post := Post.set_FileIds attachedIds post in
    let res := Store_Post_Overwrite a post in
    emit (EvPostOverwrite post res);;
    match res with
    | Err err => ret (post, Some err)
    | Ok _ => ret (post, None)
    end
  else ret (post, None).

(** [handlePostEvents]: the error it returns, if any. *)
Definition handlePostEvents (post : Post.t) (user : User.t) (channel : Channel.t)
    (triggerWebhooks : bool) (parentPostList : option PostList.t) : M (option string) :=
  let team :=
    if bool_decide (0 < String.length (Channel.TeamId channel)) then
      Store_Team_Get a (Channel.TeamId channel)
    else Ok Team.zero in
  match team with
  | Err err => ret (Some (ErrorString a err))
  | Ok team =>
      emit (EvInvalidateCacheForChannel (Channel.Id channel));;
      emit (EvInvalidateCacheForChannelPosts (Channel.Id channel));;
      emit (EvSendNotifications post);;
      match SendNotifications a post team channel user parentPostList with
      | Some err => ret (Some err)
      | None =>
          Go (TaskSendAutoResponse channel user);;
          when triggerWebhooks (Go (TaskWebhookEvents post team channel user));;
          ret None
      end
  end.

(** [CreatePost], lines 192-219: verifies the parent/child relationships
    once the root thread, fetched concurrently through [pchan], is in.
    Returns the post as the check leaves it and [parentPostList]. *)
Definition CreatePost_verifyThread (post : Post.t) (pchan : option (Result PostList.t))
    : M (Post.t * Result (option PostList.t)) :=
  match pchan with
  | None => mret (post, Ok None)
  | Some (Err _) =>
      mret (post, Err (NewAppError "createPost" "api.post.create_post.root_id.app_error"
                         [] "" StatusBadRequest))
  | Some (Ok parentPostList) =>
      if bool_decide (size (PostList.Posts parentPostList) = 0)
         || negb (PostList.IsChannelId (Post.ChannelId post) parentPostList) then
        mret (post, Err (NewAppError "createPost"
                           "api.post.create_post.channel_root_id.app_error" [] ""
                           StatusInternalServerError))
      else
        match PostList.Posts parentPostList !! Post.RootId post with
        | None => panic "nil pointer dereference: rootPost.RootId"
        | Some rootPost =>
            if bool_decide (0 < String.length (Post.RootId rootPost)) then
              mret (post, Err (NewAppError "createPost"
                                 "api.post.create_post.root_id.app_error" [] ""
                                 StatusBadRequest))
            else
              let post :=
                if decide (Post.ParentId post = "")
                then Post.set_ParentId (Post.RootId post) post else post in
              if decide (Post.RootId post ≠ Post.ParentId post) then
                match PostList.Posts parentPostList !! Post.ParentId post with
                | None =>
                    mret (post, Err (NewAppError "createPost"
                                       "api.post.create_post.parent_id.app_error" [] ""
                                       StatusInternalServerError))
                | Some _ => mret (post, Ok (Some parentPostList))
                end
              else mret (post, Ok (Some parentPostList))
        end
  end.

(** [CreatePost], lines 227-238: the legacy attachment shim. *)
Definition CreatePost_convertAttachments (post : Post.t) : M Post.t :=
  match Post.prop post "attachments" with
  | Some (PVAttachments attachments) =>
      match jsonRoundTrip a attachments with
      | None =>
          mlog LError "Could not convert post attachments to map interface.";;
          mret post
      | Some (attachmentsInterface, ok) =>
          let post := Post.AddProp "attachments" (PVInterfaces attachmentsInterface) post in
          when (negb ok)
            (mlog LError "Could not convert post attachments to map interface.");;
          mret post
      end
  | _ => mret post
  end.

(** [CreatePost], lines 243-258: the callback given to
    [RunMultiPluginHook]; it assigns [post] and [rejectionError]. *)
Definition CreatePost_hookRunner (hooks : plugin.Hooks)
    (s : Post.t * option AppError.t) : (Post.t * option AppError.t) * bool :=
  let '(post, rejectionError) := s in
  let '(replacementPost, rejectionReason) := plugin.MessageWillBePosted hooks post in
  if decide (rejectionReason ≠ "") then
    let id :=
      if decide (rejectionReason = plugin.DismissPostError) then plugin.DismissPostError
      else "Post rejected by plugin. " +:+ rejectionReason in
    ((post, Some (NewAppError "createPost" id [] "" StatusBadRequest)), false)
  else
    match replacementPost with
    | Some p => ((p, rejectionError), true)
    | None => ((post, rejectionError), true)
    end.

(** [CreatePost], lines 240-263. *)
Definition CreatePost_runHooks (post : Post.t) : Post.t * option AppError.t :=
  match GetPluginsEnvironment a with
  | None => (post, None)
  | Some pluginsEnvironment =>
      plugin.RunMultiPluginHook pluginsEnvironment CreatePost_hookRunner
        plugin.MessageWillBePostedId (post, None)
  end.

(** [CreatePost], lines 270-314: what follows a successful save.  Returns
    the variable [post] as [attachFilesToPost] leaves it, and the result
    pair. *)
Definition CreatePost_afterSave (post rpost : Post.t) (user : User.t) (channel : Channel.t)
    (triggerWebhooks : bool) (parentPostList : option PostList.t)
    : M (Post.t * Result Post.t) :=
  seenPendingPostIdsCache_AddWithExpiresInSecs (Post.PendingPostId post) (Post.Id rpost)
    (Duration_Seconds PENDING_POST_IDS_CACHE_TTL);;
  when (bool_decide (is_Some (GetPluginsEnvironment a)))
    (Go (TaskMessageHasBeenPosted rpost));;
  when (IsESIndexingEnabled a) (Go (TaskIndexPost rpost (Channel.TeamId channel)));;
  when (Metrics a) (emit EvIncrementPostCreate);;
  post ← (if bool_decide (0 < length (Post.FileIds post)) then
             '(post, err) ← attachFilesToPost post;
             when (bool_decide (is_Some err))
               (mlog LError "Encountered error attaching files to post");;
             when (Metrics a)
               (emit (EvIncrementPostFileAttachment (length (Post.FileIds post))));;
             mret post
           else mret post);
  let rpost := PreparePostForClient a rpost true false in
  err ← handlePostEvents rpost user channel triggerWebhooks parentPostList;
  when (bool_decide (is_Some err)) (mlog LError "Failed to handle post events");;
  mret (post, Ok rpost).

(** [CreatePost], lines 185-188: the read-only policy of the default
    channel applies to this post. *)
Definition CreatePost_townSquareIsReadOnly (post : Post.t) (channel : Channel.t)
    (user : User.t) : bool :=
  License a && ExperimentalTownSquareIsReadOnly a
  && negb (Post.IsSystemMessage post)
  && bool_decide (Channel.Name channel = DEFAULT_CHANNEL)
  && negb (RolesGrantPermission a (User.GetRoles user) PERMISSION_MANAGE_SYSTEM).

(** [CreatePost], lines 164-314: the part that runs under the deferred
    function.  Returns the final value of the variable [post], which the
    deferred function reads, and the result pair. *)
Definition CreatePost_body (post : Post.t) (channel : Channel.t) (triggerWebhooks : bool)
    : M (Post.t * Result Post.t) :=
  let post := Post.SanitizeProps post in
  let pchan :=
    if bool_decide (0 < String.length (Post.RootId post))
    then Some (Store_Post_Get a (Post.RootId post)) else None in
  match Store_User_Get a (Post.UserId post) with
  | Err err => mret (post, Err err)
  | Ok user =>
      let post :=
        if User.IsBot user then Post.AddProp "from_bot" (PVString "true") post else post in
      if CreatePost_townSquareIsReadOnly post channel user then
        mret (post, Err (NewAppError "createPost"
                           "api.post.create_post.town_square_read_only" [] ""
                           StatusForbidden))
      else
        '(post, verified) ← CreatePost_verifyThread post pchan;
        match verified with
        | Err err => mret (post, Err err)
        | Ok parentPostList =>
            let post := Post.set_Hashtags (ParseHashtags a (Post.Message post)).1 post in
            match FillInPostProps post (Some channel) with
            | Err err => mret (post, Err err)
            | Ok post =>
                post ← CreatePost_convertAttachments post;
                let '(post, rejectionError) := CreatePost_runHooks post in
                match rejectionError with
                | Some err => mret (post, Err err)
                | None =>
                    let saved := Store_Post_Save a post in
                    emit (EvPostSave post saved);;
                    match saved with
                    | Err err => mret (post, Err err)
                    | Ok rpost =>
                        CreatePost_afterSave post rpost user channel triggerWebhooks
                          parentPostList
                    end
                end
            end
        end
  end.

(** [CreatePost], lines 151-162: the deferred function. *)
Definition CreatePost_deferred (post : Post.t) (res : Result Post.t) : M unit :=
  if decide (Post.PendingPostId post = "") then mret tt
  else
    match res with
    | Err _ => seenPendingPostIdsCache_Remove (Post.PendingPostId post)
    | Ok savedPost =>
        seenPendingPostIdsCache_AddWithExpiresInSecs (Post.PendingPostId post)
          (Post.Id savedPost) (Duration_Seconds PENDING_POST_IDS_CACHE_TTL)
    end.

Definition CreatePost (post : Post.t) (channel : Channel.t) (triggerWebhooks : bool)
    : M (Result Post.t) :=
  found ← deduplicateCreatePost post;
  match found with
  | Err err => mret (Err err)
  | Ok (Some foundPost) => mret (Ok foundPost)
  | Ok None =>
      '(post, res) ← CreatePost_body post channel triggerWebhooks;
      CreatePost_deferred post res;;
      mret res
  end.

(** [UpdatePost], lines 499-504: the edit-time-limit window.  The clock
    is read only when a licence is present and the limit is enabled. *)
Definition UpdatePost_checkTimeLimit (post oldPost : Post.t) : M (option AppError.t) :=
  if License a then
    if decide (PostEditTimeLimit a ≠ (-1)%Z) then
      now ← GetMillis;
      if bool_decide (now > add64 (Post.CreateAt oldPost) (mul64 (PostEditTimeLimit a) 1000))%Z
         && bool_decide (Post.Message post ≠ Post.Message oldPost) then
        mret (Some (NewAppError "UpdatePost"
                      "api.post.update_post.permissions_time_limit.app_error"
                      [("timeLimit", ParamInt (PostEditTimeLimit a))] "" StatusBadRequest))
      else mret None
    else mret None
  else mret None.

(** [UpdatePost], lines 515-534: the new version, built from a copy of
    the old post and the caller's post. *)
Definition UpdatePost_newPost (post oldPost : Post.t) (safeUpdate : bool) : M Post.t :=
  let newPost := oldPost in
  newPost ← (if decide (Post.Message newPost ≠ Post.Message post) then
                let newPost := Post.set_Message (Post.Message post) newPost in
                now ← GetMillis;
                let newPost := Post.set_EditAt now newPost in
                mret (Post.set_Hashtags (ParseHashtags a (Post.Message post)).1 newPost)
              else mret newPost);
  let newPost :=
    if negb safeUpdate then
      Post.set_Props (Post.Props post)
        (Post.set_FileIds (Post.FileIds post)
           (Post.set_HasReactions (Post.HasReactions post)
              (Post.set_IsPinned (Post.IsPinned post) newPost)))
    else newPost in
  if bool_decide (Post.EditAt newPost = Post.EditAt oldPost)
     && (negb (StringArray_Equals (Post.FileIds oldPost) (Post.FileIds newPost))
         || negb (Post.AttachmentsEqual oldPost newPost)) then
    now ← GetMillis;
    mret (Post.set_EditAt now newPost)
  else mret newPost.

(** [UpdatePost], lines 543-546: the callback given to
    [RunMultiPluginHook]; it assigns [newPost] and [rejectionReason], and
    returns [post != nil], where [post] is the caller's post, which has
    been dereferenced since the first line of [UpdatePost]. *)
Definition UpdatePost_hookRunner (oldPost : Post.t) (hooks : plugin.Hooks)
    (s : option Post.t * string) : (option Post.t * string) * bool :=
  let '(newPost, rejectionReason) := s in
  (plugin.MessageWillBeUpdated hooks newPost oldPost, true).

(** [UpdatePost], lines 557-588: what follows a successful store update. *)
Definition UpdatePost_afterUpdate (post newPost oldPost rpost : Post.t) : M (Result Post.t) :=
  when (bool_decide (is_Some (GetPluginsEnvironment a)))
    (Go (TaskMessageHasBeenUpdated newPost oldPost));;
  when (IsESIndexingEnabled a) (Go (TaskIndexUpdatedPost rpost));;
  let rpost := PreparePostForClient a rpost false true in
  emit (EvPublish "post_edited" (Post.ChannelId rpost) "" rpost);;
  emit (EvInvalidateCacheForChannelPosts (Post.ChannelId rpost));;
  mret (Ok rpost).

(** [UpdatePost], lines 540-550: the pre-commit update hooks. *)
Definition UpdatePost_runHooks (newPost oldPost : Post.t) : option Post.t * string :=
  match GetPluginsEnvironment a with
  | None => (Some newPost, "")
  | Some pluginsEnvironment =>
      plugin.RunMultiPluginHook pluginsEnvironment (UpdatePost_hookRunner oldPost)
        plugin.MessageWillBeUpdatedId (Some newPost, "")
  end.

(** [UpdatePost], lines 506-588: the edit itself, once the old post has
    passed the checks.  Go maps are references: without the safe-update flag
    [newPost.Props] is the caller's map itself, so what [FillInPostProps]
    later writes into the caller's map is seen through [newPost] as well
    (unless the caller's map is nil, in which case [AddProp] allocates a
    map that only the caller's post holds). *)
Definition UpdatePost_commit (post oldPost : Post.t) (safeUpdate : bool)
    : M (Result Post.t) :=
  match GetChannel a (Post.ChannelId oldPost) with
  | Err err => mret (Err err)
  | Ok channel =>
      if decide (Channel.DeleteAt channel ≠ 0%Z) then
        mret (Err (NewAppError "UpdatePost"
                     "api.post.update_post.can_not_update_post_in_deleted.error"
                     [] "" StatusBadRequest))
      else
        newPost ← UpdatePost_newPost post oldPost safeUpdate;
        match FillInPostProps post None with
        | Err err => mret (Err err)
        | Ok post' =>
            let newPost :=
              if negb safeUpdate && bool_decide (is_Some (Post.Props post))
              then Post.set_Props (Post.Props post') newPost
              else newPost in
            let post := post' in
            let '(newPost', rejectionReason) := UpdatePost_runHooks newPost oldPost in
            match newPost' with
            | None =>
                mret (Err (NewAppError "UpdatePost"
                             ("Post rejected by plugin. " +:+ rejectionReason)
                             [] "" StatusBadRequest))
            | Some newPost =>
                let res := Store_Post_Update a newPost oldPost in
                emit (EvPostUpdate newPost oldPost res);;
                match res with
                | Err err => mret (Err err)
                | Ok rpost => UpdatePost_afterUpdate post newPost oldPost rpost
                end
            end
        end
  end.

(** [UpdatePost] *)
Definition UpdatePost (post : Post.t) (safeUpdate : bool) : M (Result Post.t) :=
  let post := Post.SanitizeProps post in
  match Store_Post_Get a (Post.Id post) with
  | Err err => mret (Err err)
  | Ok postLists =>
      match PostList.Posts postLists !! Post.Id post with
      | None =>
          mret (Err (NewAppError "UpdatePost" "api.post.update_post.find.app_error" []
                       ("id=" +:+ Post.Id post) StatusBadRequest))
      | Some oldPost =>
          if decide (Post.DeleteAt oldPost ≠ 0%Z) then
            mret (Err (NewAppError "UpdatePost"
                         "api.post.update_post.permissions_details.app_error"
                         [("PostId", ParamString (Post.Id post))] "" StatusBadRequest))
          else if Post.IsSystemMessage oldPost then
            mret (Err (NewAppError "UpdatePost"
                         "api.post.update_post.system_message.app_error" []
                         ("id=" +:+ Post.Id post) StatusBadRequest))
          else
            expired ← UpdatePost_checkTimeLimit post oldPost;
            match expired with
            | Some err => mret (Err err)
            | None => UpdatePost_commit post oldPost safeUpdate
            end
      end
  end.

(** [parseAndFetchChannelIdByNameFromInFilter] *)
Definition parseAndFetchChannelIdByNameFromInFilter (channelName userId teamId : string)
    (includeDeleted : bool) : Result Channel.t :=
  if strings_HasPrefix channelName "@" && strings_Contains channelName "," then
    match GetUsersByUsernames a (strings_Split (string_tail channelName) comma) with
    | Err err => Err err
    | Ok users => GetGroupChannel a (User.Id <$> users)
    end
  else if strings_HasPrefix channelName "@" && negb (strings_Contains channelName ",") then
    match GetUserByUsername a (string_tail channelName) with
    | Err err => Err err
    | Ok user => GetOrCreateDirectChannel a userId (User.Id user)
    end
  else GetChannelByName a channelName teamId includeDeleted.

(** [convertChannelNamesToChannelIds]: names that do not resolve are
    logged and left in place. *)
Fixpoint convertChannelNamesToChannelIds (channels : list string) (userId teamId : string)
    (includeDeletedChannels : bool) : M (list string) :=
  match channels with
  | [] => mret []
  | channelName :: rest =>
      match parseAndFetchChannelIdByNameFromInFilter channelName userId teamId
              includeDeletedChannels with
      | Err err =>
          mlog LError "error getting channel id by name from in filter";;
          rest' ← convertChannelNamesToChannelIds rest userId teamId includeDeletedChannels;
          mret (channelName :: rest')
      | Ok channel =>
          rest' ← convertChannelNamesToChannelIds rest userId teamId includeDeletedChannels;
          mret (Channel.Id channel :: rest')
      end
  end.

(** [convertUserNameToUserIds] *)
Fixpoint convertUserNameToUserIds (usernames : list string) : M (list string) :=
  match usernames with
  | [] => mret []
  | username :: rest =>
      match GetUserByUsername a username with
      | Err err =>
          mlog LError "error getting user by username";;
          rest' ← convertUserNameToUserIds rest;
          mret (username :: rest')
      | Ok user =>
          rest' ← convertUserNameToUserIds rest;
          mret (User.Id user :: rest')
      end
  end.

(** [searchPostsInTeam], lines 921-934: the loop that launches one store
    query per specification; the answers are listed in launch order. *)
Fixpoint searchPostsInTeam_launch (teamId userId : string)
    (paramsList : list SearchParams.t) (modifierFun : SearchParams.t → M SearchParams.t)
    : M (list (Result PostList.t)) :=
  match paramsList with
  | [] => mret []
  | params :: rest =>
      if decide (SearchParams.Terms params = "*") then
        searchPostsInTeam_launch teamId userId rest modifierFun
      else
        params ← modifierFun params;
        emit (EvSearch teamId userId params);;
        results ← searchPostsInTeam_launch teamId userId rest modifierFun;
        mret (Store_Post_Search a teamId userId params :: results)
  end.

(** The queries run concurrently and send their answers to the buffered
    channel [pchan] as they complete.  [schedule] is the order of
    completion: positions in launch order. *)
Definition arrivals {A} (schedule : list nat) (results : list A) : list A :=
  omap (λ i, results !! i) schedule.

(** [searchPostsInTeam], lines 941-947: the loop over [pchan]. *)
Fixpoint searchPostsInTeam_collect (pchan : list (Result PostList.t)) (posts : PostList.t)
    : Result PostList.t :=
  match pchan with
  | [] => Ok posts
  | Err err :: _ => Err err
  | Ok data :: rest => searchPostsInTeam_collect rest (PostList.Extend data posts)
  end.

Definition searchPostsInTeam (dir : PostList.Direction) (schedule : list nat)
    (teamId userId : string) (paramsList : list SearchParams.t)
    (modifierFun : SearchParams.t → M SearchParams.t) : M (Result PostList.t) :=
  results ← searchPostsInTeam_launch teamId userId paramsList modifierFun;
  let pchan := arrivals schedule results in
  match searchPostsInTeam_collect pchan PostList.NewPostList with
  | Err err => mret (Err err)
  | Ok posts => mret (Ok (PostList.SortByCreateAt dir posts))
  end.

Definition SearchPostsInTeam (dir : PostList.Direction) (schedule : list nat)
    (teamId : string) (paramsList : list SearchParams.t) : M (Result PostList.t) :=
  if negb (EnablePostSearch a) then
    mret (Err (NewAppError "SearchPostsInTeam" "store.sql_post.search.disabled" []
                 ("teamId=" +:+ teamId) StatusNotImplemented))
  else
    searchPostsInTeam dir schedule teamId "" paramsList
      (λ params, mret (SearchParams.set_SearchWithoutUserId true params)).

(** [esSearchPostsInTeamForUser], lines 989-1003. *)
Fixpoint esSearchPostsInTeamForUser_params (paramsList : list SearchParams.t)
    (userId teamId : string) (isOrSearch includeDeletedChannels : bool)
    (finalParamsList : list SearchParams.t) : M (list SearchParams.t) :=
  match paramsList with
  | [] => mret finalParamsList
  | params :: rest =>
      let params := SearchParams.set_OrTerms isOrSearch params in
      if decide (SearchParams.Terms params ≠ "*") then
        inChannels ← convertChannelNamesToChannelIds (SearchParams.InChannels params)
                       userId teamId includeDeletedChannels;
        let params := SearchParams.set_InChannels inChannels params in
        excludedChannels ← convertChannelNamesToChannelIds
                             (SearchParams.ExcludedChannels params)
                             userId teamId includeDeletedChannels;
        let params := SearchParams.set_ExcludedChannels excludedChannels params in
        fromUsers ← convertUserNameToUserIds (SearchParams.FromUsers params);
        let params := SearchParams.set_FromUsers fromUsers params in
        excludedUsers ← convertUserNameToUserIds (SearchParams.ExcludedUsers params);
        let params := SearchParams.set_ExcludedUsers excludedUsers params in
        esSearchPostsInTeamForUser_params rest userId teamId isOrSearch
          includeDeletedChannels (finalParamsList ++ [params])
      else
        esSearchPostsInTeamForUser_params rest userId teamId isOrSearch
          includeDeletedChannels finalParamsList
  end.

(** [esSearchPostsInTeamForUser], lines 1029-1034: the loop over the
    posts fetched for the identifiers the index returned. *)
Fixpoint esSearchPostsInTeamForUser_posts (posts : list Post.t) (postList : PostList.t)
    : PostList.t :=
  match posts with
  | [] => postList
  | p :: rest =>
      if decide (Post.DeleteAt p = 0%Z) then
        esSearchPostsInTeamForUser_posts rest
          (PostList.AddOrder (Post.Id p) (PostList.AddPost p postList))
      else esSearchPostsInTeamForUser_posts rest postList
  end.

Definition esSearchPostsInTeamForUser (paramsList : list SearchParams.t)
    (userId teamId : string) (isOrSearch includeDeletedChannels : bool) (page perPage : Z)
    : M (Result PostSearchResults.t) :=
  let includeDeleted := includeDeletedChannels && ExperimentalViewArchivedChannels a in
  finalParamsList ← esSearchPostsInTeamForUser_params paramsList userId teamId isOrSearch
                      includeDeletedChannels [];
  if bool_decide (length finalParamsList = 0) then
    mret (Ok (MakePostSearchResults PostList.NewPostList None))
  else
    match GetChannelsForUser a teamId userId includeDeleted with
    | Err err =>
        mlog LError "error getting channel for user";;
        mret (Err err)
    | Ok userChannels =>
        match Elasticsearch_SearchPosts a userChannels finalParamsList page perPage with
        | Err err => mret (Err err)
        | Ok (postIds, matches) =>
            let postList := PostList.NewPostList in
            if bool_decide (0 < length postIds) then
              match Store_Post_GetPostsByIds a postIds with
              | Err err => mret (Err err)
              | Ok posts =>
                  mret (Ok (MakePostSearchResults
                              (esSearchPostsInTeamForUser_posts posts postList) matches))
              end
            else mret (Ok (MakePostSearchResults postList matches))
        end
    end.
(** *** The other functions of [app/post.go] *)

Variable b : Backend.

Definition PAGE_DEFAULT : Z := 0.

(** [CreatePostMissingChannel] *)
Definition CreatePostMissingChannel (post : Post.t) (triggerWebhooks : bool)
    : M (Result Post.t) :=
  match Store_Channel_Get b (Post.ChannelId post) true with
  | Err err => mret (Err err)
  | Ok channel => CreatePost post channel triggerWebhooks
  end.

(** [PatchPost] *)
Definition PatchPost (postId : string) (patch : PostPatch b) : M (Result Post.t) :=
  match GetSinglePost postId with
  | Err err => mret (Err err)
  | Ok post =>
      match GetChannel a (Post.ChannelId post) with
      | Err err => mret (Err err)
      | Ok channel =>
          if decide (Channel.DeleteAt channel ≠ 0%Z) then
            mret (Err (NewAppError "PatchPost"
                         "api.post.patch_post.can_not_update_post_in_deleted.error"
                         [] "" StatusBadRequest))
          else
            let post := Post_Patch b post patch in
            updated ← UpdatePost post false;
            match updated with
            | Err err => mret (Err err)
            | Ok updatedPost => mret (Ok updatedPost)
            end
      end
  end.

Definition GetPostThread (postId : string) : Result PostList.t := Store_Post_Get a postId.

(** [GetPostsBeforePost] and [GetPostsAfterPost] *)
Definition GetPostsBeforePost (channelId postId : string) (page perPage : Z)
    : Result (option PostList.t) :=
  Store_Post_GetPostsBefore b channelId postId perPage (mul64 page perPage).

Definition GetPostsAfterPost (channelId postId : string) (page perPage : Z)
    : Result (option PostList.t) :=
  Store_Post_GetPostsAfter b channelId postId perPage (mul64 page perPage).

Definition GetPostIdAfterTime (channelId : string) (time : Z) : string * option AppError.t :=
  Store_Post_GetPostIdAfterTime b channelId time.

Definition GetPostIdBeforeTime (channelId : string) (time : Z) : string * option AppError.t :=
  Store_Post_GetPostIdBeforeTime b channelId time.

(** [GetNextPostIdFromPostList]: [firstPost] is nil when the map has no
    post for the first identifier of the order. *)
Definition GetNextPostIdFromPostList (postList : PostList.t) : M string :=
  match PostList.Order postList with
  | firstPostId :: _ =>
      match PostList.Posts postList !! firstPostId with
      | None => panic "nil pointer dereference: firstPost.ChannelId"
      | Some firstPost =>
          let '(nextPostId, err) :=
            GetPostIdAfterTime (Post.ChannelId firstPost) (Post.CreateAt firstPost) in
          when (bool_decide (is_Some err))
            (mlog LWarn "GetNextPostIdFromPostList: failed in getting next post");;
          mret nextPostId
      end
  | [] => mret ""
  end.

(** [GetPrevPostIdFromPostList] *)
Definition GetPrevPostIdFromPostList (postList : PostList.t) : M string :=
  match last (PostList.Order postList) with
  | Some lastPostId =>
      match PostList.Posts postList !! lastPostId with
      | None => panic "nil pointer dereference: lastPost.ChannelId"
      | Some lastPost =>
          let '(previousPostId, err) :=
            GetPostIdBeforeTime (Post.ChannelId lastPost) (Post.CreateAt lastPost) in
          when (bool_decide (is_Some err))
            (mlog LWarn "GetPrevPostIdFromPostList: failed in getting previous post");;
          mret previousPostId
      end
  | None => mret ""
  end.

(** [AddCursorIdsForPostList], lines 737-763: the cursors that are set
    without a query: [(prevPostIdSet, prevPostId, nextPostIdSet,
    nextPostId)]. *)
Definition AddCursorIdsForPostList_known (originalList : PostList.t)
    (afterPost beforePost : string) (since page perPage : Z)
    : bool * string * bool * string :=
  let prevPostIdSet := false in
  let prevPostId := "" in
  let nextPostIdSet := false in
  let nextPostId := "" in
  if bool_decide (since > 0)%Z then (true, prevPostId, true, nextPostId)
  else if decide (afterPost ≠ "") then
    let '(prevPostId, prevPostIdSet) :=
      if decide (page = 0%Z) then (afterPost, true) else (prevPostId, prevPostIdSet) in
    let nextPostIdSet :=
      if bool_decide (Z.of_nat (length (PostList.Order originalList)) < perPage)%Z
      then true else nextPostIdSet in
    (prevPostIdSet, prevPostId, nextPostIdSet, nextPostId)
  else if decide (beforePost ≠ "") then
    let '(nextPostId, nextPostIdSet) :=
      if decide (page = 0%Z) then (beforePost, true) else (nextPostId, nextPostIdSet) in
    let prevPostIdSet :=
      if bool_decide (Z.of_nat (length (PostList.Order originalList)) < perPage)%Z
      then true else prevPostIdSet in
    (prevPostIdSet, prevPostId, nextPostIdSet, nextPostId)
  else (prevPostIdSet, prevPostId, nextPostIdSet, nextPostId).

(** [AddCursorIdsForPostList]: the list as the call leaves it. *)
Definition AddCursorIdsForPostList (originalList : PostList.t)
    (afterPost beforePost : string) (since page perPage : Z) : M PostList.t :=
  let '(prevPostIdSet, prevPostId, nextPostIdSet, nextPostId) :=
    AddCursorIdsForPostList_known originalList afterPost beforePost since page perPage in
  nextPostId ← (if negb nextPostIdSet then GetNextPostIdFromPostList originalList
                else mret nextPostId);
  prevPostId ← (if negb prevPostIdSet then GetPrevPostIdFromPostList originalList
                else mret prevPostId);
  mret (PostList.mk (PostList.Order originalList) (PostList.Posts originalList)
          nextPostId prevPostId).

(** [GetPostsForChannelAroundLastUnread]; [dir] is the direction in which
    [SortByCreateAt] orders. *)
Definition GetPostsForChannelAroundLastUnread (dir : PostList.Direction)
    (channelId userId : string) (limitBefore limitAfter : Z) : Result PostList.t :=
  match GetChannelMember b channelId userId with
  | Err err => Err err
  | Ok member =>
      if decide (ChannelMember.LastViewedAt member = 0%Z) then Ok PostList.NewPostList
      else
        match GetPostIdAfterTime channelId (ChannelMember.LastViewedAt member) with
        | (_, Some err) => Err err
        | (lastUnreadPostId, None) =>
            if decide (lastUnreadPostId = "") then Ok PostList.NewPostList
            else
              match GetPostThread lastUnreadPostId with
              | Err err => Err err
              | Ok postList =>
                  let postList := PostList.set_Order [lastUnreadPostId] postList in
                  match GetPostsBeforePost channelId lastUnreadPostId PAGE_DEFAULT
                          limitBefore with
                  | Err err => Err err
                  | Ok postListBefore =>
                      let postList :=
                        match postListBefore with
                        | Some postListBefore => PostList.Extend postListBefore postList
                        | None => postList
                        end in
                      match GetPostsAfterPost channelId lastUnreadPostId PAGE_DEFAULT
                              (sub64 limitAfter 1) with
                      | Err err => Err err
                      | Ok postListAfter =>
                          let postList :=
                            match postListAfter with
                            | Some postListAfter => PostList.Extend postListAfter postList
                            | None => postList
                            end in
                          Ok (PostList.SortByCreateAt dir postList)
                      end
                  end
              end
        end
  end.

(** [esSearchPostsInTeamForUser], lines 989-1003, as its caller
    [SearchPostsInTeamForUser] sees it: [paramsList] holds pointers, and the
    loop writes to the specifications of the caller.  Returns these as the
    loop leaves them. *)
Fixpoint esSearchPostsInTeamForUser_written (paramsList : list SearchParams.t)
    (userId teamId : string) (isOrSearch includeDeletedChannels : bool)
    : M (list SearchParams.t) :=
  match paramsList with
  | [] => mret []
  | params :: rest =>
      let params := SearchParams.set_OrTerms isOrSearch params in
      if decide (SearchParams.Terms params ≠ "*") then
        inChannels ← convertChannelNamesToChannelIds (SearchParams.InChannels params)
                       userId teamId includeDeletedChannels;
        let params := SearchParams.set_InChannels inChannels params in
        excludedChannels ← convertChannelNamesToChannelIds
                             (SearchParams.ExcludedChannels params)
                             userId teamId includeDeletedChannels;
        let params := SearchParams.set_ExcludedChannels excludedChannels params in
        fromUsers ← convertUserNameToUserIds (SearchParams.FromUsers params);
        let params := SearchParams.set_FromUsers fromUsers params in
        excludedUsers ← convertUserNameToUserIds (SearchParams.ExcludedUsers params);
        let params := SearchParams.set_ExcludedUsers excludedUsers params in
        rest' ← esSearchPostsInTeamForUser_written rest userId teamId isOrSearch
                  includeDeletedChannels;
        mret (params :: rest')
      else
        rest' ← esSearchPostsInTeamForUser_written rest userId teamId isOrSearch
                  includeDeletedChannels;
        mret (params :: rest')
  end.

(** [esSearchPostsInTeamForUser], lines 1005-1037: what follows the loop. *)
Definition esSearchPostsInTeamForUser_search (finalParamsList : list SearchParams.t)
    (userId teamId : string) (includeDeletedChannels : bool) (page perPage : Z)
    : M (Result PostSearchResults.t) :=
  let includeDeleted := includeDeletedChannels && ExperimentalViewArchivedChannels a in
  if bool_decide (length finalParamsList = 0) then
    mret (Ok (MakePostSearchResults PostList.NewPostList None))
  else
    match GetChannelsForUser a teamId userId includeDeleted with
    | Err err =>
        mlog LError "error getting channel for user";;
        mret (Err err)
    | Ok userChannels =>
        match Elasticsearch_SearchPosts a userChannels finalParamsList page perPage with
        | Err err => mret (Err err)
        | Ok (postIds, matches) =>
            let postList := PostList.NewPostList in
            if bool_decide (0 < length postIds) then
              match Store_Post_GetPostsByIds a postIds with
              | Err err => mret (Err err)
              | Ok posts =>
                  mret (Ok (MakePostSearchResults
                              (esSearchPostsInTeamForUser_posts posts postList) matches))
              end
            else mret (Ok (MakePostSearchResults postList matches))
        end
    end.

(** [esSearchPostsInTeamForUser] as [SearchPostsInTeamForUser] sees it: the
    specifications of the caller as the call leaves them, and its result. *)
Definition esSearchPostsInTeamForUser_inplace (paramsList : list SearchParams.t)
    (userId teamId : string) (isOrSearch includeDeletedChannels : bool) (page perPage : Z)
    : M (list SearchParams.t * Result PostSearchResults.t) :=
  paramsList ← esSearchPostsInTeamForUser_written paramsList userId teamId isOrSearch
                 includeDeletedChannels;
  let finalParamsList := filter (λ params, SearchParams.Terms params ≠ "*") paramsList in
  res ← esSearchPostsInTeamForUser_search finalParamsList userId teamId
          includeDeletedChannels page perPage;
  mret (paramsList, res).

(** [SearchPostsInTeamForUser], lines 1066-1085: one of the two loops of the
    modifier function, over the channel names of a filter. *)
Fixpoint SearchPostsInTeamForUser_names (channels : list string) (userId teamId : string)
    (includeDeletedChannels : bool) : M (list string) :=
  match channels with
  | [] => mret []
  | channelName :: rest =>
      if strings_HasPrefix channelName "@" then
        match parseAndFetchChannelIdByNameFromInFilter channelName userId teamId
                includeDeletedChannels with
        | Err err =>
            mlog LError "error getting channel_id by name from in filter";;
            rest' ← SearchPostsInTeamForUser_names rest userId teamId includeDeletedChannels;
            mret (channelName :: rest')
        | Ok channel =>
            rest' ← SearchPostsInTeamForUser_names rest userId teamId includeDeletedChannels;
            mret (Channel.Name channel :: rest')
        end
      else
        rest' ← SearchPostsInTeamForUser_names rest userId teamId includeDeletedChannels;
        mret (channelName :: rest')
  end.

(** [SearchPostsInTeamForUser], lines 1063-1086: the modifier function. *)
Definition SearchPostsInTeamForUser_modifier (userId teamId : string)
    (isOrSearch includeDeletedChannels includeDeleted : bool) (params : SearchParams.t)
    : M SearchParams.t :=
  let params := SearchParams.set_IncludeDeletedChannels includeDeleted params in
  let params := SearchParams.set_OrTerms isOrSearch params in
  inChannels ← SearchPostsInTeamForUser_names (SearchParams.InChannels params)
                 userId teamId includeDeletedChannels;
  let params := SearchParams.set_InChannels inChannels params in
  excludedChannels ← SearchPostsInTeamForUser_names (SearchParams.ExcludedChannels params)
                       userId teamId includeDeletedChannels;
  mret (SearchParams.set_ExcludedChannels excludedChannels params).

(** [SearchPostsInTeamForUser]; [dir] and [schedule] are those of
    [searchPostsInTeam]. *)
Definition SearchPostsInTeamForUser (dir : PostList.Direction) (schedule : list nat)
    (terms userId teamId : string) (isOrSearch includeDeletedChannels : bool)
    (timeZoneOffset page perPage : Z) : M (Result PostSearchResults.t) :=
  let paramsList := ParseSearchParams b (strings_TrimSpace b terms) timeZoneOffset in
  if negb (EnablePostSearch a) then
    mret (Err (NewAppError "SearchPostsInTeamForUser" "store.sql_post.search.disabled" []
                 ("teamId=" +:+ teamId +:+ " userId=" +:+ userId) StatusNotImplemented))
  else
    '(paramsList, postSearchResults) ←
      (if IsESSearchEnabled a then
         '(paramsList, res) ← esSearchPostsInTeamForUser_inplace paramsList userId teamId
                                isOrSearch includeDeletedChannels page perPage;
         when (isErr res)
           (mlog LError
              "Encountered error on SearchPostsInTeamForUser through Elasticsearch. Falling back to default search.");;
         mret (paramsList, Some res)
       else mret (paramsList, None));
    match postSearchResults with
    | Some (Ok results) => mret (Ok results)
    | _ =>
        if bool_decide (page > 0)%Z then
          mret (Ok (MakePostSearchResults PostList.NewPostList None))
        else
          let includeDeleted :=
            includeDeletedChannels && ExperimentalViewArchivedChannels a in
          posts ← searchPostsInTeam dir schedule teamId userId paramsList
                    (SearchPostsInTeamForUser_modifier userId teamId isOrSearch
                       includeDeletedChannels includeDeleted);
          match posts with
          | Err err => mret (Err err)
          | Ok posts => mret (Ok (MakePostSearchResults posts None))
          end
    end.

(** [CreatePost], lines 243-258, as a caller of [CreatePost] sees it: the
    callback also records whether an extension has replaced the post.  The
    variable [post] then points to the replacement, and no longer to the
    post of the caller. *)
Definition CreatePost_hookRunner_caller (hooks : plugin.Hooks)
    (s : Post.t * option AppError.t * bool) : (Post.t * option AppError.t * bool) * bool :=
  let '(post, rejectionError, replaced) := s in
  let '(replacementPost, rejectionReason) := plugin.MessageWillBePosted hooks post in
  if decide (rejectionReason ≠ "") then
    let id :=
      if decide (rejectionReason = plugin.DismissPostError) then plugin.DismissPostError
      else "Post rejected by plugin. " +:+ rejectionReason in
    ((post, Some (NewAppError "createPost" id [] "" StatusBadRequest), replaced), false)
  else
    match replacementPost with
    | Some p => ((p, rejectionError, true), true)
    | None => ((post, rejectionError, replaced), true)
    end.

Definition CreatePost_runHooks_caller (post : Post.t) : Post.t * option AppError.t * bool :=
  match GetPluginsEnvironment a with
  | None => (post, None, false)
  | Some pluginsEnvironment =>
      plugin.RunMultiPluginHook pluginsEnvironment CreatePost_hookRunner_caller
        plugin.MessageWillBePostedId (post, None, false)
  end.

(** [CreatePost], lines 164-314, as a caller sees it.  Returns the post of
    the caller as the call leaves it, the final value of the variable
    [post], and the result pair.  The two posts are one object until an
    extension replaces the post. *)
Definition CreatePost_body_caller (post : Post.t) (channel : Channel.t)
    (triggerWebhooks : bool) : M (Post.t * Post.t * Result Post.t) :=
  let post := Post.SanitizeProps post in
  let pchan :=
    if bool_decide (0 < String.length (Post.RootId post))
    then Some (Store_Post_Get a (Post.RootId post)) else None in
  match Store_User_Get a (Post.UserId post) with
  | Err err => mret (post, post, Err err)
  | Ok user =>
      let post :=
        if User.IsBot user then Post.AddProp "from_bot" (PVString "true") post else post in
      if CreatePost_townSquareIsReadOnly post channel user then
        mret (post, post,
              Err (NewAppError "createPost" "api.post.create_post.town_square_read_only" []
                     "" StatusForbidden))
      else
        '(post, verified) ← CreatePost_verifyThread post pchan;
        match verified with
        | Err err => mret (post, post, Err err)
        | Ok parentPostList =>
            let post := Post.set_Hashtags (ParseHashtags a (Post.Message post)).1 post in
            match FillInPostProps post (Some channel) with
            | Err err => mret (post, post, Err err)
            | Ok post =>
                post ← CreatePost_convertAttachments post;
                let callers := post in
                let '(post, rejectionError, replaced) := CreatePost_runHooks_caller post in
                match rejectionError with
                | Some err => mret (if replaced then callers else post, post, Err err)
                | None =>
                    let saved := Store_Post_Save a post in
                    emit (EvPostSave post saved);;
                    match saved with
                    | Err err => mret (if replaced then callers else post, post, Err err)
                    | Ok rpost =>
                        '(post, res) ← CreatePost_afterSave post rpost user channel
                                          triggerWebhooks parentPostList;
                        mret (if replaced then callers else post, post, res)
                    end
                end
            end
        end
  end.

(** [CreatePost] as a caller sees it: the post of the caller as the call
    leaves it, and the result pair. *)
Definition CreatePost_caller (post : Post.t) (channel : Channel.t) (triggerWebhooks : bool)
    : M (Post.t * Result Post.t) :=
  found ← deduplicateCreatePost post;
  match found with
  | Err err => mret (post, Err err)
  | Ok (Some foundPost) => mret (post, Ok foundPost)
  | Ok None =>
      '(callers, post, res) ← CreatePost_body_caller post channel triggerWebhooks;
      CreatePost_deferred post res;;
      mret (callers, res)
  end.

(** [SendEphemeralPost] *)
Definition SendEphemeralPost (userId : string) (post : Post.t) : N Post.t :=
  let post := Post.set_Type (POST_EPHEMERAL b) post in
  post ← (if decide (Post.Id post = "") then
             id ← draw (NewId b);
             mret (Post.set_Id id post)
           else mret post);
  post ← (if decide (Post.CreateAt post = 0%Z) then
             now ← lift_M GetMillis;
             mret (Post.set_CreateAt now post)
           else mret post);
  let post :=
    if bool_decide (Post.Props post = None) then Post.set_Props (Some ∅) post else post in
  let post := Post_GenerateActionIds b post in
  let channelId := Post.ChannelId post in
  let post := PreparePostForClient a post true false in
  let post := AddPostActionCookies b post (PostActionCookieSecret b) in
  lift_M (emit (EvPublish (WEBSOCKET_EVENT_EPHEMERAL_MESSAGE b) channelId userId post));;
  mret post.

(** [UpdateEphemeralPost] *)
Definition UpdateEphemeralPost (userId : string) (post : Post.t) : N Post.t :=
  let post := Post.set_Type (POST_EPHEMERAL b) post in
  now ← lift_M GetMillis;
  let post := Post.set_UpdateAt now post in
  let post :=
    if bool_decide (Post.Props post = None) then Post.set_Props (Some ∅) post else post in
  let post := Post_GenerateActionIds b post in
  let channelId := Post.ChannelId post in
  let post := PreparePostForClient a post true false in
  let post := AddPostActionCookies b post (PostActionCookieSecret b) in
  lift_M (emit (EvPublish "post_edited" channelId userId post));;
  mret post.

(** [DeleteEphemeralPost] *)
Definition DeleteEphemeralPost (userId postId : string) : N unit :=
  deleteAt ← lift_M GetMillis;
  updateAt ← lift_M GetMillis;
  let post :=
    Post.mk postId 0 updateAt 0 deleteAt false userId "" "" "" "" (POST_EPHEMERAL b) None ""
      [] [] "" false in
  lift_M (emit (EvPublish (WEBSOCKET_EVENT_POST_DELETED b) "" userId post)).

(** [CreatePostAsUser] *)
Definition CreatePostAsUser (post : Post.t) (currentSessionId : string)
    : N (Result Post.t) :=
  match Store_Channel_Get b (Post.ChannelId post) true with
  | Err errCh =>
      mret (Err (NewAppError "CreatePostAsUser" "api.context.invalid_param.app_error"
                   [("Name", ParamString "post.channel_id")] (ErrorString a errCh)
                   StatusBadRequest))
  | Ok channel =>
      if strings_HasPrefix (Post.Type_ post) POST_SYSTEM_MESSAGE_PREFIX then
        mret (Err (NewAppError "CreatePostAsUser" "api.context.invalid_param.app_error"
                     [("Name", ParamString "post.type")] "" StatusBadRequest))
      else if decide (Channel.DeleteAt channel ≠ 0%Z) then
        mret (Err (NewAppError "createPost"
                     "api.post.create_post.can_not_post_to_deleted.error" [] ""
                     StatusBadRequest))
      else
        '(post, res) ← lift_M (CreatePost_caller post channel true);
        match res with
        | Err err =>
            let err :=
              if bool_decide (AppError.Id err = "api.post.create_post.root_id.app_error"
                              ∨ AppError.Id err
                                = "api.post.create_post.channel_root_id.app_error"
                              ∨ AppError.Id err = "api.post.create_post.parent_id.app_error")
              then AppError_set_StatusCode StatusBadRequest err else err in
            if decide (AppError.Id err = "api.post.create_post.town_square_read_only") then
              match Store_User_Get a (Post.UserId post) with
              | Err userErr => mret (Err userErr)
              | Ok user =>
                  let T := GetUserTranslations b (User.Locale user) in
                  let message := T "api.post.create_post.town_square_read_only" in
                  now ← lift_M GetMillis;
                  SendEphemeralPost (Post.UserId post)
                    (Post.mk "" (add64 now 1) 0 0 0 false (Post.UserId post)
                       (Channel.Id channel) (Post.RootId post) (Post.ParentId post) message
                       "" None "" [] [] "" false);;
                  mret (Err err)
              end
            else mret (Err err)
        | Ok rp =>
            (if bool_decide (Post.prop post "from_webhook" = None) then
               let err := MarkChannelsAsViewed b [Post.ChannelId post] (Post.UserId post)
                            currentSessionId in
               effect (EfMarkChannelsAsViewed [Post.ChannelId post] (Post.UserId post)
                         currentSessionId err);;
               N_when (bool_decide (is_Some err))
                 (lift_M (mlog LError "Encountered error updating last viewed"))
             else mret tt);;
            mret (Ok rp)
        end
  end.

(** [GetPermalinkPost]: [post] is nil when the map of the list has no post
    for the identifier of its order. *)
Definition GetPermalinkPost (postId userId : string) : N (Result PostList.t) :=
  match Store_Post_Get a postId with
  | Err err => mret (Err err)
  | Ok list =>
      match PostList.Order list with
      | [id] =>
          match PostList.Posts list !! id with
          | None => N_panic "nil pointer dereference: post.ChannelId"
          | Some post =>
              match GetChannel a (Post.ChannelId post) with
              | Err err => mret (Err err)
              | Ok channel =>
                  let err := JoinChannel b channel userId in
                  effect (EfJoinChannel channel userId err);;
                  match err with
                  | Some err => mret (Err err)
                  | None => mret (Ok list)
                  end
              end
          end
      | _ =>
          mret (Err (NewAppError "getPermalinkTmp" "api.post_get_post_by_id.get.app_error"
                       [] "" StatusNotFound))
      end
  end.

(** [DeletePost] *)
Definition DeletePost (postId deleteByID : string) : N (Result Post.t) :=
  match Store_Post_GetSingle a postId with
  | Err err => mret (Err (AppError_set_StatusCode StatusBadRequest err))
  | Ok post =>
      match GetChannel a (Post.ChannelId post) with
      | Err err => mret (Err err)
      | Ok channel =>
          if decide (Channel.DeleteAt channel ≠ 0%Z) then
            mret (Err (NewAppError "DeletePost"
                         "api.post.delete_post.can_not_delete_post_in_deleted.error" [] ""
                         StatusBadRequest))
          else
            now ← lift_M GetMillis;
            let err := Store_Post_Delete b postId now deleteByID in
            effect (EfPostDelete postId now deleteByID err);;
            match err with
            | Some err => mret (Err err)
            | None =>
                lift_M (emit (EvPublish (WEBSOCKET_EVENT_POST_DELETED b)
                                (Post.ChannelId post) ""
                                (PreparePostForClient a post false false)));;
                effect (EfGo (JobDeletePostFiles post));;
                effect (EfGo (JobDeleteFlaggedPosts (Post.Id post)));;
                N_when (IsESIndexingEnabled a) (effect (EfGo (JobElasticsearchDeletePost post)));;
                lift_M (emit (EvInvalidateCacheForChannelPosts (Post.ChannelId post)));;
                mret (Ok post)
            end
      end
  end.

(** [DeleteFlaggedPosts] *)
Definition DeleteFlaggedPosts (postId : string) : N unit :=
  let err := Store_Preference_DeleteCategoryAndName b (PREFERENCE_CATEGORY_FLAGGED_POST b)
               postId in
  effect (EfPreferenceDeleteCategoryAndName (PREFERENCE_CATEGORY_FLAGGED_POST b) postId err);;
  N_when (bool_decide (is_Some err))
    (lift_M (mlog LWarn "Unable to delete flagged post preference when deleting post.")).

(** [DeletePostFiles] *)
Definition DeletePostFiles (post : Post.t) : N unit :=
  if bool_decide (length (Post.FileIds post) = 0) then mret tt
  else
    let err := Store_FileInfo_DeleteForPost b (Post.Id post) in
    effect (EfFileInfoDeleteForPost (Post.Id post) err);;
    N_when (bool_decide (is_Some err))
      (lift_M (mlog LWarn "Encountered error when deleting files for post")).

(** [DeletePost], lines 842-855: the functions handed to [a.Srv.Go]. *)
Definition DeletePost_job (job : Job) : N unit :=
  match job with
  | JobDeletePostFiles post => DeletePostFiles post
  | JobDeleteFlaggedPosts postId => DeleteFlaggedPosts postId
  | JobElasticsearchDeletePost post =>
      let err := Elasticsearch_DeletePost b post in
      effect (EfElasticsearchDeletePost post err);;
      N_when (bool_decide (is_Some err))
        (lift_M (mlog LError "Encountered error deleting post"))
  end.

(** [GetFileInfosForPost] *)
Definition GetFileInfosForPost (postId : string) (fromMaster : bool)
    : Result (list (FileInfo b)) :=
  Store_FileInfo_GetForPost b postId fromMaster false true.

(** [GetFileInfosForPostWithMigration]; [result] is what the goroutine
    sends through [pchan]. *)
Definition GetFileInfosForPostWithMigration (postId : string)
    : N (Result (list (FileInfo b))) :=
  let result := Store_Post_GetSingle a postId in
  match GetFileInfosForPost postId false with
  | Err err => mret (Err err)
  | Ok infos =>
      if bool_decide (length infos = 0) then
        match result with
        | Err err => mret (Err err)
        | Ok post =>
            if bool_decide (0 < length (Post.Filenames post)) then
              effect (EfInvalidateFileInfosForPostCache postId);;
              effect (EfMigrateFilenamesToFileInfos post);;
              mret (Ok (MigrateFilenamesToFileInfos b post))
            else mret (Ok infos)
        end
      else mret (Ok infos)
  end.

(** [MaxPostSize]; the two arguments are the answer of the store and
    [model.POST_MESSAGE_MAX_RUNES_V1]. *)
Definition MaxPostSize (Store_Post_GetMaxPostSize POST_MESSAGE_MAX_RUNES_V1 : Z) : Z :=
  let maxPostSize := Store_Post_GetMaxPostSize in
  if decide (maxPostSize = 0%Z) then POST_MESSAGE_MAX_RUNES_V1 else maxPostSize.

End App.
End app.

(** * Specification vocabulary *)

(** The world after one more reading of the clock. *)
Definition tick (w : World) : World :=
  mkWorld (seenPendingPostIdsCache w) (S (clockReads w)) (events w).

(** The world with another cache. *)
Definition with_cache (c : Cache.t) (w : World) : World :=
  mkWorld c (clockReads w) (events w).

(** The world after more effects. *)
Definition with_events (evs : list Event) (w : World) : World :=
  mkWorld (seenPendingPostIdsCache w) (clockReads w) (events w ++ evs).

(** The next reading of the clock. *)
Definition now_of (a : Env) (w : World) : Z := clock a (clockReads w).

(** The cache answers [value] for [token] at the next reading of the clock. *)
Definition recorded (a : Env) (w : World) (token value : string) : Prop :=
  ∃ e, Cache.find token (now_of a w) (seenPendingPostIdsCache w) = Some e
       ∧ Cache.value e = value.

(** The cache has no live entry for [token] at the next reading of the clock. *)
Definition unseen (a : Env) (w : World) (token : string) : Prop :=
  Cache.find token (now_of a w) (seenPendingPostIdsCache w) = None.

(** The error classes of the design document, as a client tells them apart:
    by the status code of the error. *)
Inductive ErrorClass :=
| BadRequestError
| ForbiddenError
| NotFoundError
| ConflictError
| InternalError
| OtherError.

#[global] Instance ErrorClass_eq_dec : EqDecision ErrorClass.
Proof. solve_decision. Defined.

Definition error_class (e : AppError.t) : ErrorClass :=
  if decide (AppError.StatusCode e = StatusBadRequest) then BadRequestError
  else if decide (AppError.StatusCode e = StatusForbidden) then ForbiddenError
  else if decide (AppError.StatusCode e = StatusNotFound) then NotFoundError
  else if decide (AppError.StatusCode e = StatusConflict) then ConflictError
  else if decide (AppError.StatusCode e = StatusInternalServerError) then InternalError
  else OtherError.





(** The pre-commit update hooks of [a] return the version they are handed. *)
Definition hooks_keep (a : Env) : Prop :=
  ∀ env, GetPluginsEnvironment a = Some env →
    Forall (λ hooks, ∀ newPost oldPost,
              (plugin.MessageWillBeUpdated hooks (Some newPost) oldPost).1 = Some newPost)
      env.

(** The thread of the declared root, as the store returns it for a post that
    passes the checks of channel and existence. *)
Record RootThread (a : Env) (post : Post.t) (parentPostList : PostList.t)
    (rootPost : Post.t) : Prop := {
  root_declared : Post.RootId post ≠ "";
  root_fetched : Store_Post_Get a (Post.RootId post) = Ok parentPostList;
  root_in_channel : PostList.IsChannelId (Post.ChannelId post) parentPostList = true;
  root_found : PostList.Posts parentPostList !! Post.RootId post = Some rootPost
}.

(** The request reaches the check of the thread: the author loads and the
    read-only policy does not apply. *)
Record AuthorPasses (a : Env) (post : Post.t) (channel : Channel.t) (user : User.t)
    : Prop := {
  author_found : Store_User_Get a (Post.UserId post) = Ok user;
  policy_passes : app.CreatePost_townSquareIsReadOnly a post channel user = false
}.

(** The variable [post] when the thread is checked: sanitised, and marked
    when its author is a bot. *)
Definition checked_post (user : User.t) (post : Post.t) : Post.t :=
  if User.IsBot user
  then Post.AddProp "from_bot" (PVString "true") (Post.SanitizeProps post)
  else Post.SanitizeProps post.

(** The world after a request whose body fails without any effect: when the
    request carries a token, the slot taken for it has been released. *)
Definition released (a : Env) (post : Post.t) (w : World) : World :=
  if decide (Post.PendingPostId post = "") then w
  else
    with_cache
      (Cache.Remove (Post.PendingPostId post)
         (Cache.mk (Cache.size (seenPendingPostIdsCache w))
            (Cache.push (Cache.mkEntry (Post.PendingPostId post) "" (now_of a w + 30000))
               (Cache.size (seenPendingPostIdsCache w))
               (Cache.without (Post.PendingPostId post) (seenPendingPostIdsCache w)))))
      (tick w).

(** A post list as the data model has it: every identifier of the order has
    its post in the map, filed under that identifier. *)
Definition PostList_wf (pl : PostList.t) : Prop :=
  ∀ id, id ∈ PostList.Order pl →
    ∃ p, PostList.Posts pl !! id = Some p ∧ Post.Id p = id.

(** A merged list: no identifier twice in the order, and the order lists
    exactly the identifiers of the map. *)
Definition merged (o : PostList.t) : Prop :=
  NoDup (PostList.Order o)
  ∧ ∀ id, id ∈ PostList.Order o ↔ is_Some (PostList.Posts o !! id).



(** ** Vocabulary for the effects of a request *)

Definition is_log (ev : Event) : bool :=
  match ev with EvLog _ _ => true | _ => false end.

Definition is_save (ev : Event) : bool :=
  match ev with EvPostSave _ _ => true | _ => false end.

Definition is_attach (ev : Event) : bool :=
  match ev with EvAttachToPost _ _ _ => true | _ => false end.

Definition is_go (ev : Event) : bool :=
  match ev with EvGo _ => true | _ => false end.

(** [emits P Q m]: [m] returns a value that satisfies [Q]; it has no effect
    but events, which all satisfy [P]. *)
Definition emits {A} (P : Event → Prop) (Q : A → Prop) (m : M A) : Prop :=
  ∀ w, ∃ x evs, m w = (Returns x, with_events evs w) ∧ Q x ∧ Forall P evs.

(** [blind m]: [m] never reads the deduplication cache: from a world with
    another cache it gives the same outcome, and the same world up to the
    cache. *)
Definition blind {A} (m : M A) : Prop :=
  ∀ w c, ∃ c', m (with_cache c w) = ((m w).1, with_cache c' (m w).2).

(** ** Vocabulary for file attachments *)

(** The file store accepts the attachment of [fileId] to [post]. *)
Definition attaches (a : Env) (post : Post.t) (fileId : string) : Prop :=
  Store_FileInfo_AttachToPost a fileId (Post.Id post) (Post.UserId post) = None.

#[global] Instance attaches_dec a post fileId : Decision (attaches a post fileId).
Proof. unfold attaches. apply _. Defined.

(** The effects of the loop of [attachFilesToPost]: one attempt per file,
    followed by a warning when it fails. *)
Definition attach_events (a : Env) (post : Post.t) (fileIds : list string) : list Event :=
  fileIds ≫= λ fileId,
    EvAttachToPost fileId (Post.Id post) (Post.UserId post)
    :: (if decide (attaches a post fileId) then []
        else [EvLog LWarn "Failed to attach file to post"]).

Arguments attach_events : simpl never.

(** ** Vocabulary for channel mentions and search filters *)

(** The channels listed under [channel_mentions]. *)
Definition mentions_of (post : Post.t) : gmap string string :=
  match Post.prop post "channel_mentions" with
  | Some (PVMentions m) => m
  | _ => ∅
  end.

(** The map that the loop of [FillInPostProps] builds. *)
Definition open_mentions (mentionedChannels : list Channel.t) : gmap string string :=
  foldl (λ prop mentioned,
           if decide (Channel.Type_ mentioned = CHANNEL_OPEN)
           then <[Channel.Name mentioned := Channel.DisplayName mentioned]> prop
           else prop)
        ∅ mentionedChannels.

(** What a channel name of a search filter becomes: the identifier of the
    channel it resolves to, or itself. *)
Definition resolved_channel (a : Env) (userId teamId : string) (includeDeleted : bool)
    (channelName : string) : string :=
  match app.parseAndFetchChannelIdByNameFromInFilter a channelName userId teamId
          includeDeleted with
  | Ok channel => Channel.Id channel
  | Err _ => channelName
  end.

Definition unresolved_channel (a : Env) (userId teamId : string) (includeDeleted : bool)
    (channelName : string) : Prop :=
  isErr (app.parseAndFetchChannelIdByNameFromInFilter a channelName userId teamId
           includeDeleted) = true.

#[global] Instance unresolved_channel_dec a userId teamId includeDeleted channelName :
  Decision (unresolved_channel a userId teamId includeDeleted channelName).
Proof. unfold unresolved_channel. apply _. Defined.

(** What a user name of a search filter becomes. *)
Definition resolved_user (a : Env) (username : string) : string :=
  match GetUserByUsername a username with
  | Ok user => User.Id user
  | Err _ => username
  end.

(** The specification that the index is searched with, for a specification
    of the caller. *)
Definition index_params (a : Env) (userId teamId : string)
    (isOrSearch includeDeletedChannels : bool) (params : SearchParams.t) : SearchParams.t :=
  let resolve := resolved_channel a userId teamId includeDeletedChannels in
  SearchParams.mk (SearchParams.Terms params)
    (resolve <$> SearchParams.InChannels params)
    (resolve <$> SearchParams.ExcludedChannels params)
    (resolved_user a <$> SearchParams.FromUsers params)
    (resolved_user a <$> SearchParams.ExcludedUsers params)
    isOrSearch
    (SearchParams.IncludeDeletedChannels params)
    (SearchParams.SearchWithoutUserId params).

(** ** Vocabulary for the runs of [CreatePost] *)

(** The extensions of [a] leave the idempotency token of a post alone. *)
Definition hooks_keep_token (a : Env) : Prop :=
  ∀ env, GetPluginsEnvironment a = Some env →
    Forall (λ hooks, ∀ post replacement reason,
              plugin.MessageWillBePosted hooks post = (Some replacement, reason) →
              Post.PendingPostId replacement = Post.PendingPostId post)
      env.

(** An extension that lets every new post through, and one that rejects
    every new post. *)
Definition accepts_posts (hooks : plugin.Hooks) : Prop :=
  ∀ post, (plugin.MessageWillBePosted hooks post).2 = "".

Definition rejects_posts (hooks : plugin.Hooks) : Prop :=
  plugin.Implements hooks plugin.MessageWillBePostedId = true
  ∧ ∀ post, (plugin.MessageWillBePosted hooks post).2 ≠ "".

(** The runs of the body of [CreatePost] on [post], from the world [w]: the
    outcome and the world they leave. *)
Inductive CreatePost_run (a : Env) (post : Post.t) (w : World) :
    Outcome (Post.t * Result Post.t) → World → Prop :=
| run_panics reason :
    CreatePost_run a post w (Panics reason) w
| run_refused p err :
    Post.PendingPostId p = Post.PendingPostId post →
    CreatePost_run a post w (Returns (p, Err err)) w
| run_rejected handed p err logs :
    Post.PendingPostId handed = Post.PendingPostId post →
    Forall (λ ev, is_log ev = true) logs →
    app.CreatePost_runHooks a handed = (p, Some err) →
    CreatePost_run a post w (Returns (p, Err err)) (with_events logs w)
| run_save_fails handed saving err logs :
    Post.PendingPostId handed = Post.PendingPostId post →
    Forall (λ ev, is_log ev = true) logs →
    app.CreatePost_runHooks a handed = (saving, None) →
    Store_Post_Save a saving = Err err →
    CreatePost_run a post w (Returns (saving, Err err))
      (with_events (logs ++ [EvPostSave saving (Err err)]) w)
| run_commits handed saving rpost post' logs after :
    Post.PendingPostId handed = Post.PendingPostId post →
    Forall (λ ev, is_log ev = true) logs →
    app.CreatePost_runHooks a handed = (saving, None) →
    Store_Post_Save a saving = Ok rpost →
    Forall (λ ev, is_save ev = false) after →
    Post.PendingPostId post' = Post.PendingPostId saving →
    CreatePost_run a post w
      (Returns (post', Ok (PreparePostForClient a rpost true false)))
      (with_events after
         (with_cache
            (Cache.AddWithExpiresInSecs (Post.PendingPostId saving) (Post.Id rpost) 30
               (now_of a w) (seenPendingPostIdsCache w))
            (tick (with_events (logs ++ [EvPostSave saving (Ok rpost)]) w)))).

(** The world when the body of [CreatePost] starts, for a request that the
    deduplication check lets through as new. *)
Definition entered (a : Env) (post : Post.t) (w : World) : World :=
  if decide (Post.PendingPostId post = "") then w
  else
    with_cache
      (Cache.mk (Cache.size (seenPendingPostIdsCache w))
         (Cache.push (Cache.mkEntry (Post.PendingPostId post) "" (now_of a w + 30000))
            (Cache.size (seenPendingPostIdsCache w))
            (Cache.without (Post.PendingPostId post) (seenPendingPostIdsCache w))))
      (tick w).

(** The world that the deferred function of [CreatePost] leaves. *)
Definition settled (a : Env) (post : Post.t) (res : Result Post.t) (w : World) : World :=
  if decide (Post.PendingPostId post = "") then w
  else
    match res with
    | Err _ => with_cache (Cache.Remove (Post.PendingPostId post) (seenPendingPostIdsCache w)) w
    | Ok savedPost =>
        with_cache
          (Cache.AddWithExpiresInSecs (Post.PendingPostId post) (Post.Id savedPost) 30
             (now_of a w) (seenPendingPostIdsCache w))
          (tick w)
    end.

(** What a caller of [CreatePost] sees of a run of the body. *)
Definition answer (out : Outcome (Post.t * Result Post.t)) : Outcome (Result Post.t) :=
  match out with
  | Panics reason => Panics reason
  | Returns (p, res) => Returns res
  end.

(** The effects of a request are orderly: at most one save is attempted;
    apart from logs and the save itself, there are effects only when a post
    has been committed; a failed save is the last effect, and its error is
    the answer; when a post has been committed, a post is answered. *)
Definition orderly (out : Outcome (Result Post.t)) (evs : list Event) : Prop :=
  length (filter (λ ev, is_save ev = true) evs) ≤ 1
  ∧ (∀ ev, ev ∈ evs → is_log ev = true ∨ is_save ev = true ∨ committed_saves evs = 1)
  ∧ (∀ p err, EvPostSave p (Err err) ∈ evs →
       out = Returns (Err err) ∧ last evs = Some (EvPostSave p (Err err)))
  ∧ (committed_saves evs = 1 → ∃ r, out = Returns (Ok r)).

(** The entry at the front of the cache answers [v] for [k] until [until]. *)
Definition answers (k v : string) (until : Z) (c : Cache.t) : Prop :=
  ∃ e rest, Cache.items c = e :: rest ∧ Cache.key e = k ∧ Cache.value e = v
            ∧ (until ≤ Cache.expires e)%Z.

(** ** Vocabulary for the runs of [UpdatePost] *)

(** The stored post that an update of [id] is about can be edited: it is in
    the list that the store returns, it is not deleted, and it is not a
    system message. *)
Definition editable (postLists : PostList.t) (id : string) : Prop :=
  ∃ oldPost, PostList.Posts postLists !! id = Some oldPost
             ∧ Post.DeleteAt oldPost = 0%Z
             ∧ Post.IsSystemMessage oldPost = false.

(** An extension that rejects every update. *)
Definition rejects_updates (hooks : plugin.Hooks) : Prop :=
  plugin.Implements hooks plugin.MessageWillBeUpdatedId = true
  ∧ ∀ newPost oldPost, (plugin.MessageWillBeUpdated hooks newPost oldPost).1 = None.

(** The runs of [UpdatePost]: the answer and the effects. *)
Inductive UpdatePost_run (a : Env) : Outcome (Result Post.t) → list Event → Prop :=
| update_refused err :
    UpdatePost_run a (Returns (Err err)) []
| update_fails handed newPost oldPost reason err :
    app.UpdatePost_runHooks a handed oldPost = (Some newPost, reason) →
    Store_Post_Update a newPost oldPost = Err err →
    UpdatePost_run a (Returns (Err err)) [EvPostUpdate newPost oldPost (Err err)]
| update_commits handed newPost oldPost reason rpost tasks :
    app.UpdatePost_runHooks a handed oldPost = (Some newPost, reason) →
    Store_Post_Update a newPost oldPost = Ok rpost →
    Forall (λ ev, is_go ev = true) tasks →
    let r := PreparePostForClient a rpost false true in
    UpdatePost_run a (Returns (Ok r))
      (EvPostUpdate newPost oldPost (Ok rpost) :: tasks
       ++ [EvPublish "post_edited" (Post.ChannelId r) "" r;
           EvInvalidateCacheForChannelPosts (Post.ChannelId r)]).



(** ** Vocabulary for cursors and for the search of a user *)

(** The cursors that [AddCursorIdsForPostList] sets without a query, when it
    needs none. *)
Definition known_cursors (afterPost beforePost : string) (since : Z) : string * string :=
  if bool_decide (since > 0)%Z then ("", "")
  else if decide (afterPost ≠ "") then ("", afterPost)
  else (beforePost, "").

(** The warning that a failed lookup of a cursor leaves in the log. *)
Definition warning_of (err : option AppError.t) (msg : string) : list Event :=
  match err with
  | Some _ => [EvLog LWarn msg]
  | None => []
  end.

(** A specification of the caller as the loop of [esSearchPostsInTeamForUser]
    leaves it. *)
Definition written_params (a : Env) (userId teamId : string)
    (isOrSearch includeDeletedChannels : bool) (params : SearchParams.t) : SearchParams.t :=
  if decide (SearchParams.Terms params ≠ "*")
  then index_params a userId teamId isOrSearch includeDeletedChannels params
  else SearchParams.set_OrTerms isOrSearch params.

(** The errors that the loop of [esSearchPostsInTeamForUser] logs for a
    specification: one per name that does not resolve. *)
Definition convert_logs (a : Env) (userId teamId : string) (includeDeletedChannels : bool)
    (params : SearchParams.t) : list Event :=
  replicate
    (length (filter (unresolved_channel a userId teamId includeDeletedChannels)
               (SearchParams.InChannels params)))
    (EvLog LError "error getting channel id by name from in filter")
  ++ replicate
       (length (filter (unresolved_channel a userId teamId includeDeletedChannels)
                  (SearchParams.ExcludedChannels params)))
       (EvLog LError "error getting channel id by name from in filter")
  ++ replicate
       (length (filter (λ username, isErr (GetUserByUsername a username) = true)
                  (SearchParams.FromUsers params)))
       (EvLog LError "error getting user by username")
  ++ replicate
       (length (filter (λ username, isErr (GetUserByUsername a username) = true)
                  (SearchParams.ExcludedUsers params)))
       (EvLog LError "error getting user by username").

(** What [SearchPostsInTeamForUser] answers when it searches nothing. *)
Definition nothing_searched (a : Env) (userId teamId : string) : Result PostSearchResults.t :=
  if EnablePostSearch a then Ok (MakePostSearchResults PostList.NewPostList None)
  else Err (NewAppError "SearchPostsInTeamForUser" "store.sql_post.search.disabled" []
              ("teamId=" +:+ teamId +:+ " userId=" +:+ userId) StatusNotImplemented).



(** ** Vocabulary for the effects of the other functions *)

(** The site after more effects. *)
Definition with_trace (efs : list Effect) (s : Site) : Site :=
  mkSite (world s) (drawn s) (trace s ++ efs).

(** The site after a computation of the create, update and search paths that
    left the world [w] and added the events [evs]. *)
Definition lifted (w : World) (evs : list Event) (s : Site) : Site :=
  mkSite w (drawn s) (trace s ++ (EfEvent <$> evs)).

(** A line of the log. *)
Definition is_log_effect (ef : Effect) : bool :=
  match ef with
  | EfEvent ev => is_log ev
  | _ => false
  end.

(** The effects of a committed deletion of [post], at the reading [now] of
    the clock. *)
Definition DeletePost_effects (a : Env) (b : Backend) (post : Post.t) (postId : string)
    (now : Z) (deleteByID : string) : list Effect :=
  [EfPostDelete postId now deleteByID None;
   EfEvent (EvPublish (WEBSOCKET_EVENT_POST_DELETED b) (Post.ChannelId post) ""
              (PreparePostForClient a post false false));
   EfGo (JobDeletePostFiles post);
   EfGo (JobDeleteFlaggedPosts (Post.Id post))]
  ++ (if IsESIndexingEnabled a then [EfGo (JobElasticsearchDeletePost post)] else [])
  ++ [EfEvent (EvInvalidateCacheForChannelPosts (Post.ChannelId post))].

(** The error with which a collaborator answers a write. *)
Definition effect_error (ef : Effect) : option AppError.t :=
  match ef with
  | EfPostDelete _ _ _ err | EfPreferenceDeleteCategoryAndName _ _ err
  | EfFileInfoDeleteForPost _ err | EfElasticsearchDeletePost _ err
  | EfJoinChannel _ _ err | EfMarkChannelsAsViewed _ _ _ err => err
  | _ => None
  end.

(** The write that a cleanup job of [DeletePost] issues, if any. *)
Definition job_write (b : Backend) (job : Job) : option Effect :=
  match job with
  | JobDeletePostFiles post =>
      if bool_decide (Post.FileIds post = []) then None
      else Some (EfFileInfoDeleteForPost (Post.Id post)
                   (Store_FileInfo_DeleteForPost b (Post.Id post)))
  | JobDeleteFlaggedPosts postId =>
      Some (EfPreferenceDeleteCategoryAndName (PREFERENCE_CATEGORY_FLAGGED_POST b) postId
              (Store_Preference_DeleteCategoryAndName b (PREFERENCE_CATEGORY_FLAGGED_POST b)
                 postId))
  | JobElasticsearchDeletePost post =>
      Some (EfElasticsearchDeletePost post (Elasticsearch_DeletePost b post))
  end.

(** What [CreatePostAsUser] reads of the post of its caller once [CreatePost]
    has returned. *)
Definition same_request (p q : Post.t) : Prop :=
  Post.prop p "from_webhook" = Post.prop q "from_webhook"
  ∧ Post.ChannelId p = Post.ChannelId q
  ∧ Post.UserId p = Post.UserId q
  ∧ Post.RootId p = Post.RootId q.

(** The notice that [CreatePostAsUser] composes for the author of a post that
    the read-only policy of the default channel has refused, once
    [SendEphemeralPost] has filled it in; and the post that is published
    for it. *)
Definition read_only_notice (b : Backend) (post : Post.t) (channel : Channel.t)
    (user : User.t) (id : string) (createAt : Z) : Post.t :=
  Post.mk id createAt 0 0 0 false (Post.UserId post) (Channel.Id channel) (Post.RootId post)
    (Post.ParentId post)
    (GetUserTranslations b (User.Locale user) "api.post.create_post.town_square_read_only")
    (POST_EPHEMERAL b) (Some ∅) "" [] [] "" false.

Definition published (a : Env) (b : Backend) (post : Post.t) : Post.t :=
  AddPostActionCookies b (PreparePostForClient a (Post_GenerateActionIds b post) true false)
    (PostActionCookieSecret b).

(** The clock shows times after the epoch, within the range of the machine
    integers. *)
Definition clock_in_range (a : Env) : Prop :=
  ∀ n, (0 ≤ clock a n < 2 ^ 62)%Z.

(** * Servers to run the code on *)

Module Fixture.

Definition notFound (where_ : string) : AppError.t :=
  NewAppError where_ "store.sql.get.app_error" [] "" StatusNotFound.

Record Setup := mkSetup {
  licensed : bool;
  timeLimit : Z;
  plugins : option plugin.Environment;
  posts : gmap string Post.t;         (* the post table *)
  users : gmap string User.t;         (* the user table *)
  channels : gmap string Channel.t;   (* the channel table *)
  search : SearchParams.t → Result PostList.t;
  time : nat → Z
}.

Definition lookup {A} (where_ : string) (table : gmap string A) (id : string) : Result A :=
  match table !! id with
  | Some x => Ok x
  | None => Err (notFound where_)
  end.

(** The thread of a post: the post and the posts whose root it is. *)
Definition thread (s : Setup) (id : string) : Result PostList.t :=
  match posts s !! id with
  | Some _ =>
      Ok (PostList.mk [id]
            (filter (λ kp, kp.1 = id ∨ Post.RootId kp.2 = id) (posts s)) "" "")
  | None => Err (notFound "SqlPostStore.Get")
  end.

Definition env (s : Setup) : Env := {|
  License := licensed s;
  ExperimentalTownSquareIsReadOnly := false;
  ExperimentalViewArchivedChannels := false;
  PostEditTimeLimit := timeLimit s;
  EnablePostSearch := true;
  IsESIndexingEnabled := false;
  IsESSearchEnabled := true;
  Metrics := false;
  GetPluginsEnvironment := plugins s;
  clock := time s;
  Store_Channel_GetForPost := λ _, Err (notFound "SqlChannelStore.GetForPost");
  Store_User_Get := lookup "SqlUserStore.Get" (users s);
  Store_Team_Get := λ id, Ok (Team.mk id);
  Store_Post_Get := thread s;
  Store_Post_GetSingle := lookup "SqlPostStore.GetSingle" (posts s);
  Store_Post_GetPostsByIds := λ ids, Ok (omap (λ id, posts s !! id) ids);
  Store_Post_Search := λ _ _, search s;
  Store_Post_Save := λ p, Ok (Post.set_Id "p-new" p);
  Store_Post_Update := λ newPost _, Ok newPost;
  Store_Post_Overwrite := λ p, Ok p;
  Store_FileInfo_AttachToPost := λ _ _ _, None;
  Elasticsearch_SearchPosts := λ _ _ _ _, Ok ((map_to_list (posts s)).*1, None);
  GetChannel := lookup "GetChannel" (channels s);
  GetChannelByName := λ _ _ _, Err (notFound "GetChannelByName");
  GetChannelsByNames := λ _ _, Ok [];
  GetChannelsForUser := λ _ _ _, Ok ((map_to_list (channels s)).*2);
  GetGroupChannel := λ _, Err (notFound "GetGroupChannel");
  GetOrCreateDirectChannel := λ _ _, Err (notFound "GetOrCreateDirectChannel");
  GetUserByUsername := λ _, Err (notFound "GetUserByUsername");
  GetUsersByUsernames := λ _, Ok [];
  RolesGrantPermission := λ _ _, false;
  PreparePostForClient := λ p _ _, p;
  SendNotifications := λ _ _ _ _ _, None;
  ParseHashtags := λ _, ("", "");
  ChannelMentions := λ _, [];
  ErrorString := AppError.Id;
  jsonRoundTrip := λ l, Some (l, true)
|}.

Definition alice : User.t := User.mk "u1" "alice" "system_user" "en" false.
Definition town : Channel.t := Channel.mk "c1" 0 "t1" "O" "Town Square" "town-square".

(** A post of [alice] in [town]. *)
Definition post (id message token : string) : Post.t :=
  Post.mk id 1000 1000 0 0 false "u1" "c1" "" "" message "" None "" [] [] token false.

Definition reply (id root parent message : string) : Post.t :=
  Post.mk id 2000 2000 0 0 false "u1" "c1" root parent message "" None "" [] [] "" false.

Definition setup : Setup := {|
  licensed := false;
  timeLimit := -1;
  plugins := None;
  posts := {[ "p1" := post "p1" "hello" "" ]};
  users := {[ "u1" := alice ]};
  channels := {[ "c1" := town ]};
  search := λ _, Ok PostList.NewPostList;
  time := λ n, (5000 + Z.of_nat n)%Z
|}.

Definition with_licence (limit : Z) (s : Setup) : Setup :=
  mkSetup true limit (plugins s) (posts s) (users s) (channels s) (search s) (time s).
Definition with_plugins (env : plugin.Environment) (s : Setup) : Setup :=
  mkSetup (licensed s) (timeLimit s) (Some env) (posts s) (users s) (channels s)
    (search s) (time s).
Definition with_posts (ps : gmap string Post.t) (s : Setup) : Setup :=
  mkSetup (licensed s) (timeLimit s) (plugins s) ps (users s) (channels s)
    (search s) (time s).
Definition with_search (f : SearchParams.t → Result PostList.t) (s : Setup) : Setup :=
  mkSetup (licensed s) (timeLimit s) (plugins s) (posts s) (users s) (channels s)
    f (time s).
Definition with_time (f : nat → Z) (s : Setup) : Setup :=
  mkSetup (licensed s) (timeLimit s) (plugins s) (posts s) (users s) (channels s)
    (search s) f.

(** A world whose cache holds the given entries. *)
Definition world (entries : list Cache.Entry) : World :=
  mkWorld (Cache.mk app.PENDING_POST_IDS_CACHE_SIZE entries) 0 [].

End Fixture.

Module InFlight.
(** A request carrying the token [tok], while the cache holds the
    in-flight marker for [tok]. *)
Definition a : Env := Fixture.env Fixture.setup.
Definition post : Post.t := Fixture.post "" "hi" "tok".
Definition w : World := Fixture.world [Cache.mkEntry "tok" "" 6000].
End InFlight.

Module Replay.
(** The post [p1] is in the store; the cache maps the token [tok] to it
    until the reading 6000 of the clock, which stands at 5000. *)
Definition a : Env := Fixture.env (Fixture.with_time (λ _, 5000%Z) Fixture.setup).
Definition post : Post.t := Fixture.post "" "hello" "tok".
Definition w : World := Fixture.world [Cache.mkEntry "tok" "p1" 6000].


End Replay.

Module Rejection.
(** An extension that rejects every update. *)
Definition censor : plugin.Hooks :=
  plugin.mkHooks (λ _, true) (λ _, (None, "")) (λ _ _, (None, "edits are frozen")).

(** An extension that approves what it is handed, and falls back to the old
    version when it is handed nothing. *)
Definition keeper : plugin.Hooks :=
  plugin.mkHooks (λ _, true) (λ _, (None, ""))
    (λ newPost oldPost, (Some (default oldPost newPost), "")).

Definition setup : Fixture.Setup := Fixture.with_plugins [censor; keeper] Fixture.setup.
Definition a : Env := Fixture.env setup.

(** The same server with the two extensions in the other order. *)
Definition a_last : Env := Fixture.env (Fixture.with_plugins [keeper; censor] Fixture.setup).

(** An edit of the message of [p1]. *)
Definition post : Post.t := Fixture.post "p1" "edited" "".
Definition w : World := Fixture.world [].
End Rejection.

Module SafeUpdate.
(** An extension that pins every post it is handed. *)
Definition pinner : plugin.Hooks :=
  plugin.mkHooks (λ _, true) (λ _, (None, ""))
    (λ newPost _, (Post.set_IsPinned true <$> newPost, "")).

Definition a : Env := Fixture.env Fixture.setup.
Definition a_pinner : Env := Fixture.env (Fixture.with_plugins [pinner] Fixture.setup).

(** The caller's version of [p1]: another message, pinned, with a file and
    a property. *)
Definition post : Post.t :=
  Post.set_Props (Some {[ "color" := PVString "red" ]})
    (Post.set_FileIds ["f1"]
       (Post.set_IsPinned true (Fixture.post "p1" "edited" ""))).

Definition w : World := Fixture.world [].
End SafeUpdate.

Module EditWindow.
(** The post [p1] was created at 1000 ms; the limit is 10 s; the clock
    stands at 20000 ms. *)
Definition licensed : Fixture.Setup :=
  Fixture.with_time (λ _, 20000%Z) (Fixture.with_licence 10 Fixture.setup).
Definition unlicensed : Fixture.Setup :=
  Fixture.mkSetup false 10 None (Fixture.posts Fixture.setup) (Fixture.users Fixture.setup)
    (Fixture.channels Fixture.setup) (Fixture.search Fixture.setup) (λ _, 20000%Z).
Definition a : Env := Fixture.env licensed.
Definition a_unlicensed : Env := Fixture.env unlicensed.
Definition post : Post.t := Fixture.post "p1" "edited" "".
Definition w : World := Fixture.world [].
Definition postLists : PostList.t :=
  PostList.mk ["p1"] {[ "p1" := Fixture.post "p1" "hello" "" ]} "" "".
End EditWindow.

Module Thread.
(** [r1] is a root post, [n1] a reply to it. *)
Definition far_reply : Post.t :=
  Post.mk "m1" 2000 2000 0 0 false "u1" "c2" "r2" "r2" "a reply elsewhere" "" None "" [] []
    "" false.
Definition posts : gmap string Post.t :=
  {[ "r1" := Fixture.post "r1" "root" "";
     "n1" := Fixture.reply "n1" "r1" "r1" "a reply";
     "m1" := far_reply ]}.
Definition a : Env := Fixture.env (Fixture.with_posts posts Fixture.setup).

(** A reply that declares the reply [n1] as its root. *)
Definition nested : Post.t := Fixture.reply "" "n1" "" "a reply to a reply".
Definition nested_thread : PostList.t :=
  PostList.mk ["n1"] {[ "n1" := Fixture.reply "n1" "r1" "r1" "a reply" ]} "" "".

(** A reply to [r1] whose parent [x9] is not in the thread of [r1]. *)
Definition orphan : Post.t := Fixture.reply "" "r1" "x9" "a reply to nobody".

(** The nested reply again, from an author the store does not know. *)
Definition ghost : Post.t :=
  Post.mk "" 2000 2000 0 0 false "u9" "c1" "n1" "" "a reply to a reply" "" None "" [] []
    "" false.

(** A reply of [alice] in the channel [c1] that declares as its root the
    reply [m1] of the channel [c2]. *)
Definition elsewhere : Post.t := Fixture.reply "" "m1" "" "a reply across channels".

Definition w : World := Fixture.world [].
End Thread.

Module Search.
(** Three posts of the same channel, created at 1 s, 2 s and 3 s. *)
Definition pA : Post.t := Post.set_CreateAt 1000 (Fixture.post "A" "alpha" "").
Definition pB : Post.t := Post.set_CreateAt 2000 (Fixture.post "B" "beta" "").
Definition pC : Post.t := Post.set_CreateAt 3000 (Fixture.post "C" "alpha beta" "").

Definition params (terms : string) : SearchParams.t :=
  SearchParams.mk terms [] [] [] [] false false false.

(** The store finds [C] and [A] for the term [alpha], [B] and [C] for the
    term [beta], and fails on the term [gamma]. *)
Definition search (p : SearchParams.t) : Result PostList.t :=
  if decide (SearchParams.Terms p = "alpha") then
    Ok (PostList.mk ["C"; "A"] {[ "A" := pA; "C" := pC ]} "" "")
  else if decide (SearchParams.Terms p = "beta") then
    Ok (PostList.mk ["B"; "C"] {[ "B" := pB; "C" := pC ]} "" "")
  else if decide (SearchParams.Terms p = "gamma") then
    Err (NewAppError "SqlPostStore.Search" "store.sql_post.search.app_error" [] ""
           StatusInternalServerError)
  else Ok PostList.NewPostList.

Definition a : Env := Fixture.env (Fixture.with_search search Fixture.setup).
Definition w : World := Fixture.world [].
Definition modifier (p : SearchParams.t) : SearchParams.t :=
  SearchParams.set_SearchWithoutUserId true p.
End Search.

Module Merge.
(** The specifications [alpha], [*] and [beta]; the query of [beta]
    completes first. *)
Definition paramsList : list SearchParams.t :=
  [Search.params "alpha"; Search.params "*"; Search.params "beta"].
Definition modifierFun (p : SearchParams.t) : M SearchParams.t :=
  mret (Search.modifier p).
Definition results : list (Result PostList.t) :=
  [Search.search (Search.params "alpha"); Search.search (Search.params "beta")].
Definition w1 : World :=
  with_events [EvSearch "t1" "u1" (Search.modifier (Search.params "alpha"));
               EvSearch "t1" "u1" (Search.modifier (Search.params "beta"))] Search.w.
End Merge.

Module Index.
(** The index finds [p1] and [p2]; the store has both, and [p2] is deleted. *)
Definition deleted : Post.t :=
  Post.mk "p2" 1500 1500 0 1700 false "u1" "c1" "" "" "gone" "" None "" [] [] "" false.
Definition posts : gmap string Post.t :=
  {[ "p1" := Fixture.post "p1" "hello" ""; "p2" := deleted ]}.
Definition a : Env := Fixture.env (Fixture.with_posts posts Fixture.setup).
Definition w : World := Fixture.world [].
Definition results : PostSearchResults.t :=
  MakePostSearchResults
    (PostList.mk ["p1"] {[ "p1" := Fixture.post "p1" "hello" "" ]} "" "") None.
End Index.

Module Mentions.
(** A server on which every message mentions the channels [town-square] and
    [secret]; the first is open, the second is private. *)
Definition secret : Channel.t := Channel.mk "c2" 0 "t1" "P" "Secret" "secret".

Definition a : Env := {|
  License := License (Fixture.env Fixture.setup);
  ExperimentalTownSquareIsReadOnly := false;
  ExperimentalViewArchivedChannels := false;
  PostEditTimeLimit := -1;
  EnablePostSearch := true;
  IsESIndexingEnabled := false;
  IsESSearchEnabled := true;
  Metrics := false;
  GetPluginsEnvironment := None;
  clock := clock (Fixture.env Fixture.setup);
  Store_Channel_GetForPost := Store_Channel_GetForPost (Fixture.env Fixture.setup);
  Store_User_Get := Store_User_Get (Fixture.env Fixture.setup);
  Store_Team_Get := Store_Team_Get (Fixture.env Fixture.setup);
  Store_Post_Get := Store_Post_Get (Fixture.env Fixture.setup);
  Store_Post_GetSingle := Store_Post_GetSingle (Fixture.env Fixture.setup);
  Store_Post_GetPostsByIds := Store_Post_GetPostsByIds (Fixture.env Fixture.setup);
  Store_Post_Search := Store_Post_Search (Fixture.env Fixture.setup);
  Store_Post_Save := Store_Post_Save (Fixture.env Fixture.setup);
  Store_Post_Update := Store_Post_Update (Fixture.env Fixture.setup);
  Store_Post_Overwrite := Store_Post_Overwrite (Fixture.env Fixture.setup);
  Store_FileInfo_AttachToPost := Store_FileInfo_AttachToPost (Fixture.env Fixture.setup);
  Elasticsearch_SearchPosts := Elasticsearch_SearchPosts (Fixture.env Fixture.setup);
  GetChannel := GetChannel (Fixture.env Fixture.setup);
  GetChannelByName := GetChannelByName (Fixture.env Fixture.setup);
  GetChannelsByNames := λ _ _, Ok [Fixture.town; secret];
  GetChannelsForUser := GetChannelsForUser (Fixture.env Fixture.setup);
  GetGroupChannel := GetGroupChannel (Fixture.env Fixture.setup);
  GetOrCreateDirectChannel := GetOrCreateDirectChannel (Fixture.env Fixture.setup);
  GetUserByUsername := GetUserByUsername (Fixture.env Fixture.setup);
  GetUsersByUsernames := GetUsersByUsernames (Fixture.env Fixture.setup);
  RolesGrantPermission := RolesGrantPermission (Fixture.env Fixture.setup);
  PreparePostForClient := PreparePostForClient (Fixture.env Fixture.setup);
  SendNotifications := SendNotifications (Fixture.env Fixture.setup);
  ParseHashtags := ParseHashtags (Fixture.env Fixture.setup);
  ChannelMentions := λ _, ["town-square"; "secret"];
  ErrorString := ErrorString (Fixture.env Fixture.setup);
  jsonRoundTrip := jsonRoundTrip (Fixture.env Fixture.setup)
|}.

Definition post : Post.t := Fixture.post "p1" "see ~town-square and ~secret" "".
Definition filled : Post.t :=
  Post.set_Props (Some {[ "channel_mentions" := PVMentions {[ "town-square" := "Town Square" ]} ]})
    post.
End Mentions.

Module Moderation.
(** An extension that rejects every new post, behind one that lets every
    post through and before another. *)
Definition bouncer : plugin.Hooks :=
  plugin.mkHooks (λ _, true) (λ _, (None, "posting is closed")) (λ newPost _, (newPost, "")).

Definition a : Env :=
  Fixture.env (Fixture.with_plugins [Rejection.keeper; bouncer; Rejection.censor]
                 Fixture.setup).
Definition post : Post.t := Fixture.post "" "hi" "tok".
Definition w : World := Fixture.world [].
End Moderation.

Module Retry.
(** A first request with the token [tok], while the clock stands at 5000,
    and its retry. *)
Definition a : Env := Fixture.env (Fixture.with_time (λ _, 5000%Z) Fixture.setup).
Definition post : Post.t := Fixture.post "" "hi" "tok".
Definition saved : Post.t := Fixture.post "p-new" "hi" "tok".
Definition w : World := Fixture.world [].
Definition w1 : World :=
  (app.CreatePost a post Fixture.town false w).2.

(** The same request from an author that the store does not know. *)
Definition ghost : Post.t :=
  Post.mk "" 1000 1000 0 0 false "u9" "c1" "" "" "hi" "" None "" [] [] "tok" false.
End Retry.



Module Desk.
(** The rest of a small server.  The channel [c1] holds [p1], created at
    1 s, and [p2], created later; nothing precedes [p1].  [alice] viewed the
    channel last at 500 ms, the user [u2] never did.  A patch is a new
    message; search terms are parsed into one specification. *)
Definition b : Backend := {|
  PostPatch := string;
  Post_Patch := λ post message, Post.set_Message message post;
  FileInfo := string;
  POST_EPHEMERAL := "system_ephemeral";
  PREFERENCE_CATEGORY_FLAGGED_POST := "flagged_post";
  WEBSOCKET_EVENT_POST_DELETED := "post_deleted";
  WEBSOCKET_EVENT_EPHEMERAL_MESSAGE := "ephemeral_message";
  Store_Channel_Get := λ id _,
    Fixture.lookup "SqlChannelStore.Get" (Fixture.channels Fixture.setup) id;
  Store_Post_GetPostIdAfterTime := λ channelId time,
    if decide (channelId ≠ "c1") then
      ("", Some (Fixture.notFound "SqlPostStore.GetPostIdAfterTime"))
    else if bool_decide (time < 1000)%Z then ("p1", None)
    else if bool_decide (time < 2000)%Z then ("p2", None)
    else ("", None);
  Store_Post_GetPostIdBeforeTime := λ channelId time,
    if bool_decide (1000 < time)%Z then ("p1", None)
    else ("", Some (Fixture.notFound "SqlPostStore.GetPostIdBeforeTime"));
  Store_Post_GetPostsBefore := λ _ _ _ _, Ok None;
  Store_Post_GetPostsAfter := λ _ _ _ _, Ok (Some PostList.NewPostList);
  Store_Post_Delete := λ postId _ _,
    if decide (postId = "p1") then None
    else Some (Fixture.notFound "SqlPostStore.Delete");
  Store_Preference_DeleteCategoryAndName := λ _ _, None;
  Store_FileInfo_DeleteForPost := λ _,
    Some (Fixture.notFound "SqlFileInfoStore.DeleteForPost");
  Store_FileInfo_GetForPost := λ postId _ _ _,
    if decide (postId = "p1") then Ok [] else Ok ["f1"];
  Elasticsearch_DeletePost := λ _, None;
  GetChannelMember := λ channelId userId,
    if decide (userId = "u1") then Ok (ChannelMember.mk 500)
    else if decide (userId = "u2") then Ok (ChannelMember.mk 0)
    else Err (Fixture.notFound "GetChannelMember");
  JoinChannel := λ channel userId,
    if decide (userId = "u1") then None else Some (Fixture.notFound "JoinChannel");
  MarkChannelsAsViewed := λ _ _ _, None;
  MigrateFilenamesToFileInfos := λ post, Post.Filenames post;
  GetUserTranslations := λ locale id, locale +:+ ":" +:+ id;
  NewId := λ n, "id-" +:+ String.concat "" (replicate n "i");
  Post_GenerateActionIds := λ post, post;
  AddPostActionCookies := λ post _, post;
  PostActionCookieSecret := "secret";
  strings_TrimSpace := λ s, s;
  ParseSearchParams := λ terms _, [Search.params terms]
|}.

(** The server [a] with other settings of the search and another index. *)
Definition with_search_settings (enablePostSearch isESSearchEnabled : bool)
    (index : list Channel.t → list SearchParams.t → Z → Z →
             Result (list string * PostSearchMatches))
    (a : Env) : Env := {|
  License := License a;
  ExperimentalTownSquareIsReadOnly := ExperimentalTownSquareIsReadOnly a;
  ExperimentalViewArchivedChannels := ExperimentalViewArchivedChannels a;
  PostEditTimeLimit := PostEditTimeLimit a;
  EnablePostSearch := enablePostSearch;
  IsESIndexingEnabled := IsESIndexingEnabled a;
  IsESSearchEnabled := isESSearchEnabled;
  Metrics := Metrics a;
  GetPluginsEnvironment := GetPluginsEnvironment a;
  clock := clock a;
  Store_Channel_GetForPost := Store_Channel_GetForPost a;
  Store_User_Get := Store_User_Get a;
  Store_Team_Get := Store_Team_Get a;
  Store_Post_Get := Store_Post_Get a;
  Store_Post_GetSingle := Store_Post_GetSingle a;
  Store_Post_GetPostsByIds := Store_Post_GetPostsByIds a;
  Store_Post_Search := Store_Post_Search a;
  Store_Post_Save := Store_Post_Save a;
  Store_Post_Update := Store_Post_Update a;
  Store_Post_Overwrite := Store_Post_Overwrite a;
  Store_FileInfo_AttachToPost := Store_FileInfo_AttachToPost a;
  Elasticsearch_SearchPosts := index;
  GetChannel := GetChannel a;
  GetChannelByName := GetChannelByName a;
  GetChannelsByNames := GetChannelsByNames a;
  GetChannelsForUser := GetChannelsForUser a;
  GetGroupChannel := GetGroupChannel a;
  GetOrCreateDirectChannel := GetOrCreateDirectChannel a;
  GetUserByUsername := GetUserByUsername a;
  GetUsersByUsernames := GetUsersByUsernames a;
  RolesGrantPermission := RolesGrantPermission a;
  PreparePostForClient := PreparePostForClient a;
  SendNotifications := SendNotifications a;
  ParseHashtags := ParseHashtags a;
  ChannelMentions := ChannelMentions a;
  ErrorString := ErrorString a;
  jsonRoundTrip := jsonRoundTrip a
|}.

Definition a : Env := Fixture.env Fixture.setup.
Definition w : World := Fixture.world [].

(** A page of one post, [p1]. *)
Definition page : PostList.t :=
  PostList.mk ["p1"] {[ "p1" := Fixture.post "p1" "hello" "" ]} "" "".

(** A list whose order names a post that its map does not hold. *)
Definition dangling : PostList.t := PostList.mk ["p9"] ∅ "" "".

(** The server of [Search] without an index, and with an index that is
    down. *)
Definition a_store_only : Env :=
  with_search_settings true false (Elasticsearch_SearchPosts Search.a) Search.a.
Definition indexDown : AppError.t :=
  NewAppError "Elasticsearch.SearchPosts" "ent.elasticsearch.search_posts.search_failed" [] ""
    StatusInternalServerError.
Definition a_index_down : Env :=
  with_search_settings true true (λ _ _ _ _, Err indexDown) Search.a.
End Desk.



Module Office.
(** A site at rest, and a first post of [alice] in [town]. *)
Definition s : Site := mkSite Desk.w 0 [].
Definition hello : Post.t := Fixture.post "" "hi" "".

(** The server [a] with a licence and with the read-only policy of the
    default channel. *)
Definition with_read_only_town_square (a : Env) : Env := {|
  License := true;
  ExperimentalTownSquareIsReadOnly := true;
  ExperimentalViewArchivedChannels := ExperimentalViewArchivedChannels a;
  PostEditTimeLimit := PostEditTimeLimit a;
  EnablePostSearch := EnablePostSearch a;
  IsESIndexingEnabled := IsESIndexingEnabled a;
  IsESSearchEnabled := IsESSearchEnabled a;
  Metrics := Metrics a;
  GetPluginsEnvironment := GetPluginsEnvironment a;
  clock := clock a;
  Store_Channel_GetForPost := Store_Channel_GetForPost a;
  Store_User_Get := Store_User_Get a;
  Store_Team_Get := Store_Team_Get a;
  Store_Post_Get := Store_Post_Get a;
  Store_Post_GetSingle := Store_Post_GetSingle a;
  Store_Post_GetPostsByIds := Store_Post_GetPostsByIds a;
  Store_Post_Search := Store_Post_Search a;
  Store_Post_Save := Store_Post_Save a;
  Store_Post_Update := Store_Post_Update a;
  Store_Post_Overwrite := Store_Post_Overwrite a;
  Store_FileInfo_AttachToPost := Store_FileInfo_AttachToPost a;
  Elasticsearch_SearchPosts := Elasticsearch_SearchPosts a;
  GetChannel := GetChannel a;
  GetChannelByName := GetChannelByName a;
  GetChannelsByNames := GetChannelsByNames a;
  GetChannelsForUser := GetChannelsForUser a;
  GetGroupChannel := GetGroupChannel a;
  GetOrCreateDirectChannel := GetOrCreateDirectChannel a;
  GetUserByUsername := GetUserByUsername a;
  GetUsersByUsernames := GetUsersByUsernames a;
  RolesGrantPermission := RolesGrantPermission a;
  PreparePostForClient := PreparePostForClient a;
  SendNotifications := SendNotifications a;
  ParseHashtags := ParseHashtags a;
  ChannelMentions := ChannelMentions a;
  ErrorString := ErrorString a;
  jsonRoundTrip := jsonRoundTrip a
|}.

(** Such a server, whose clock stands at 5000. *)
Definition a_read_only : Env := with_read_only_town_square Retry.a.

(** The notice that its author is sent. *)
Definition notice : Post.t :=
  Post.mk "id-" 5001 0 0 0 false "u1" "c1" "" ""
    "en:api.post.create_post.town_square_read_only" "system_ephemeral" (Some ∅) "" [] [] ""
    false.
End Office.

(** * Properties *)

(** ** Evaluation of the request monad *)

Lemma bind_Returns {A B} (m : M A) (k : A → M B) w x w1 :
  m w = (Returns x, w1) → (m ≫= k) w = k x w1.
Proof. intros H. unfold mbind, M_bind, bind. by rewrite H. Qed.

Lemma bind_Panics {A B} (m : M A) (k : A → M B) w reason w1 :
  m w = (Panics reason, w1) → (m ≫= k) w = (Panics reason, w1).
Proof. intros H. unfold mbind, M_bind, bind. by rewrite H. Qed.

Lemma bind_inv {A B} (m : M A) (k : A → M B) w out w' :
  (m ≫= k) w = (out, w') →
  (∃ x w1, m w = (Returns x, w1) ∧ k x w1 = (out, w')) ∨
  (∃ reason, m w = (Panics reason, w') ∧ out = Panics reason).
Proof.
  unfold mbind, M_bind, bind. destruct (m w) as [[x|reason] w1]; intros H.
  - left. eauto.
  - right. exists reason. by inversion H.
Qed.

Ltac unfold_M :=
  unfold mbind, M_bind, bind, mret, M_ret, ret, panic, emit, mlog, Go, when,
    modifyCache, app.GetMillis in *.

(** ** The state of an idempotency token *)

Lemma GetOrAdd_recorded a w token value v ttl :
  recorded a w token value →
  app.seenPendingPostIdsCache_GetOrAdd a token v ttl w = (Returns (value, true), tick w).
Proof.
  intros (e & Hfind & Hval).
  unfold app.seenPendingPostIdsCache_GetOrAdd. unfold_M. simpl.
  unfold Cache.GetOrAdd. unfold now_of in Hfind. rewrite Hfind, Hval.
  destruct w; reflexivity.
Qed.

Lemma GetOrAdd_unseen a w token v ttl :
  unseen a w token →
  app.seenPendingPostIdsCache_GetOrAdd a token v ttl w =
    (Returns (v, false),
     with_cache
       (Cache.mk (Cache.size (seenPendingPostIdsCache w))
          (Cache.push (Cache.mkEntry token v (now_of a w + Duration_Milliseconds ttl))
             (Cache.size (seenPendingPostIdsCache w))
             (Cache.without token (seenPendingPostIdsCache w))))
       (tick w)).
Proof.
  intros Hfind. unfold unseen, now_of in Hfind.
  unfold app.seenPendingPostIdsCache_GetOrAdd. unfold_M. simpl.
  unfold Cache.GetOrAdd. rewrite Hfind. reflexivity.
Qed.

(** What [deduplicateCreatePost] answers in each state of the token. *)
Lemma deduplicateCreatePost_no_token a w post :
  Post.PendingPostId post = "" →
  app.deduplicateCreatePost a post w = (Returns (Ok None), w).
Proof. intros H. unfold app.deduplicateCreatePost. by rewrite decide_True. Qed.

Lemma deduplicateCreatePost_pending a w post :
  Post.PendingPostId post ≠ "" →
  recorded a w (Post.PendingPostId post) "" →
  app.deduplicateCreatePost a post w =
    (Returns (Err (NewAppError "deduplicateCreatePost"
                     "api.post.deduplicate_create_post.pending" [] ""
                     StatusInternalServerError)),
     tick w).
Proof.
  intros Hne Hrec. unfold app.deduplicateCreatePost.
  rewrite decide_False by done.
  erewrite bind_Returns by (by apply GetOrAdd_recorded).
  simpl. reflexivity.
Qed.

Lemma deduplicateCreatePost_replay a w post postId :
  Post.PendingPostId post ≠ "" →
  postId ≠ "" →
  recorded a w (Post.PendingPostId post) postId →
  app.deduplicateCreatePost a post w =
    match app.GetSinglePost a postId with
    | Ok actualPost =>
        (Returns (Ok (Some actualPost)),
         with_events [EvLog LDebug "Deduplicated create post"] (tick w))
    | Err err =>
        (Returns (Err (NewAppError "deduplicateCreatePost"
                         "api.post.deduplicate_create_post.failed_to_get" []
                         (ErrorString a err) StatusInternalServerError)),
         tick w)
    end.
Proof.
  intros Hne Hid Hrec. unfold app.deduplicateCreatePost.
  rewrite decide_False by done.
  erewrite bind_Returns by (by apply GetOrAdd_recorded).
  simpl. rewrite decide_False by done.
  destruct (app.GetSinglePost a postId); reflexivity.
Qed.

(** ** A small server to run the code on *)

(** ** The error taxonomy *)

(** ** Create: a token that is still in flight *)

Lemma CreatePost_token_in_flight_run a w post channel triggerWebhooks :
  Post.PendingPostId post ≠ "" →
  recorded a w (Post.PendingPostId post) "" →
  ∃ err, app.CreatePost a post channel triggerWebhooks w = (Returns (Err err), tick w).
Proof.
  intros Hne Hrec. eexists. unfold app.CreatePost.
  erewrite bind_Returns by (by apply deduplicateCreatePost_pending).
  reflexivity.
Qed.

(** C2, as amended.  For every create request whose idempotency token is in
    the deduplication cache with the in-flight marker, [CreatePost] fails with
    the error [api.post.deduplicate_create_post.pending]; its status is 500,
    so by status it is of the internal class and it is told apart from the
    other internal failures by its identifier only.  Nothing but the clock
    reading of the cache lookup changes: no store write, no cache update. *)
Theorem CreatePost_token_in_flight a w post channel triggerWebhooks :
  Post.PendingPostId post ≠ "" →
  recorded a w (Post.PendingPostId post) "" →
  ∃ err,
    app.CreatePost a post channel triggerWebhooks w = (Returns (Err err), tick w)
    ∧ AppError.Id err = "api.post.deduplicate_create_post.pending"
    ∧ AppError.StatusCode err = StatusInternalServerError
    ∧ error_class err = InternalError.
Proof.
  intros Hne Hrec. eexists. split; [|split; [|split]].
  - unfold app.CreatePost.
    erewrite bind_Returns by (by apply deduplicateCreatePost_pending).
    reflexivity.
  - reflexivity.
  - reflexivity.
  - reflexivity.
Qed.

Lemma CreatePost_token_in_flight_witness :
  Post.PendingPostId InFlight.post ≠ ""
  ∧ recorded InFlight.a InFlight.w (Post.PendingPostId InFlight.post) ""
  ∧ ∃ err,
      app.CreatePost InFlight.a InFlight.post Fixture.town false InFlight.w
        = (Returns (Err err), tick InFlight.w)
      ∧ AppError.Id err = "api.post.deduplicate_create_post.pending"
      ∧ AppError.StatusCode err = StatusInternalServerError
      ∧ error_class err = InternalError.
Proof.
  assert (H1 : Post.PendingPostId InFlight.post ≠ "") by (vm_compute; discriminate).
  assert (H2 : recorded InFlight.a InFlight.w (Post.PendingPostId InFlight.post) "")
    by (eexists; split; vm_compute; reflexivity).
  split; [exact H1|]. split; [exact H2|].
  exact (CreatePost_token_in_flight InFlight.a InFlight.w InFlight.post Fixture.town false
           H1 H2).
Defined.

(** C2, as stated, fails: the error of an in-flight token is not of a class
    apart from bad-request, forbidden, not-found and internal; its status is
    that of the internal failures. *)
Lemma CreatePost_token_in_flight_class :
  ¬ (∀ a w post channel triggerWebhooks,
       Post.PendingPostId post ≠ "" →
       recorded a w (Post.PendingPostId post) "" →
       ∃ err w',
         app.CreatePost a post channel triggerWebhooks w = (Returns (Err err), w')
         ∧ error_class err ∉ [BadRequestError; ForbiddenError; NotFoundError; InternalError]).
Proof.
  intros H.
  destruct (H InFlight.a InFlight.w InFlight.post Fixture.town false)
    as (err & w' & Hrun & Hclass).
  - vm_compute; discriminate.
  - eexists; split; vm_compute; reflexivity.
  - vm_compute in Hrun. inversion Hrun; subst err. apply Hclass.
    vm_compute. set_solver.
Qed.

(** ** Create: replay of a recorded token *)

Lemma CreatePost_replay a w post channel triggerWebhooks postId :
  Post.PendingPostId post ≠ "" →
  postId ≠ "" →
  recorded a w (Post.PendingPostId post) postId →
  app.CreatePost a post channel triggerWebhooks w =
    match app.GetSinglePost a postId with
    | Ok actualPost =>
        (Returns (Ok actualPost),
         with_events [EvLog LDebug "Deduplicated create post"] (tick w))
    | Err err =>
        (Returns (Err (NewAppError "deduplicateCreatePost"
                         "api.post.deduplicate_create_post.failed_to_get" []
                         (ErrorString a err) StatusInternalServerError)),
         tick w)
    end.
Proof.
  intros Hne Hid Hrec. unfold app.CreatePost.
  unfold mbind at 1, M_bind at 1, bind.
  rewrite (deduplicateCreatePost_replay a w post postId Hne Hid Hrec).
  destruct (app.GetSinglePost a postId); reflexivity.
Qed.

(** ** Computations that leave the cache and the committed posts alone *)



Lemma committed_saves_app evs1 evs2 :
  committed_saves (evs1 ++ evs2) = committed_saves evs1 + committed_saves evs2.
Proof. unfold committed_saves. by rewrite filter_app, length_app. Qed.











(** ** Create: requests that share a token *)

Lemma verifyThread_stateless post pchan w :
  ∃ out, app.CreatePost_verifyThread post pchan w = (out, w).
Proof.
  unfold app.CreatePost_verifyThread.
  repeat (first [ progress unfold_M | case_match | case_decide | case_bool_decide ]);
    eauto.
Qed.

Lemma AddWithExpiresInSecs_run a k v secs w :
  app.seenPendingPostIdsCache_AddWithExpiresInSecs a k v secs w =
    (Returns tt,
     with_cache (Cache.AddWithExpiresInSecs k v secs (now_of a w) (seenPendingPostIdsCache w))
       (tick w)).
Proof. reflexivity. Qed.



Section TokenWindow.
(** The token, and the start of a window of 30 s. *)
Variable token : string.
Variable start : Z.








Lemma deduplicateCreatePost_fresh a w post :
  Post.PendingPostId post ≠ "" →
  unseen a w (Post.PendingPostId post) →
  app.deduplicateCreatePost a post w =
    (Returns (Ok None),
     with_cache
       (Cache.mk (Cache.size (seenPendingPostIdsCache w))
          (Cache.push (Cache.mkEntry (Post.PendingPostId post) "" (now_of a w + 30000))
             (Cache.size (seenPendingPostIdsCache w))
             (Cache.without (Post.PendingPostId post) (seenPendingPostIdsCache w))))
       (tick w)).
Proof.
  intros Hne Hun. unfold app.deduplicateCreatePost.
  rewrite decide_False by done.
  erewrite bind_Returns by (by apply GetOrAdd_unseen).
  reflexivity.
Qed.




End TokenWindow.




(** ** Update: the pre-commit update hooks *)

(** C3: the chain of pre-commit update hooks does not stop at a rejection.
    With the extensions [censor; keeper], [censor] rejects the update (a nil
    post and a reason), the chain goes on, [keeper] is handed the nil post and
    returns a post, and [UpdatePost] writes to the store and succeeds.  When
    [censor] runs last, the update is rejected and nothing is written. *)
Theorem UpdatePost_rejection_lost :
  plugin.MessageWillBeUpdated Rejection.censor (Some Rejection.post)
    (Fixture.post "p1" "hello" "") = (None, "edits are frozen")
  ∧ (app.UpdatePost Rejection.a Rejection.post false Rejection.w).1 =
      Returns (Ok (Fixture.post "p1" "hello" ""))
  ∧ store_writes (events (app.UpdatePost Rejection.a Rejection.post false Rejection.w).2) =
      [EvPostUpdate (Fixture.post "p1" "hello" "") (Fixture.post "p1" "hello" "")
         (Ok (Fixture.post "p1" "hello" ""))]
  ∧ app.UpdatePost Rejection.a_last Rejection.post false Rejection.w =
      (Returns (Err (NewAppError "UpdatePost" "Post rejected by plugin. edits are frozen"
                       [] "" StatusBadRequest)),
       tick Rejection.w).
Proof. repeat split; vm_compute; reflexivity. Qed.

(** ** Update: the shape of a run *)

Lemma RunMultiPluginHook_keep env oldPost newPost reason :
  Forall (λ hooks, ∀ newPost oldPost,
            (plugin.MessageWillBeUpdated hooks (Some newPost) oldPost).1 = Some newPost) env →
  ∃ reason',
    plugin.RunMultiPluginHook env (app.UpdatePost_hookRunner oldPost)
      plugin.MessageWillBeUpdatedId (Some newPost, reason) = (Some newPost, reason').
Proof.
  intros Henv. revert reason. induction Henv as [|hooks env Hkeep _ IH]; intros reason.
  - by exists reason.
  - simpl. destruct (plugin.Implements hooks _); [|apply IH].
    specialize (Hkeep newPost oldPost).
    destruct (plugin.MessageWillBeUpdated hooks (Some newPost) oldPost) as [np reason'].
    simpl in Hkeep. subst np. apply IH.
Qed.

Lemma UpdatePost_runHooks_keep a newPost oldPost :
  hooks_keep a → ∃ reason, app.UpdatePost_runHooks a newPost oldPost = (Some newPost, reason).
Proof.
  intros Hkeep. unfold app.UpdatePost_runHooks.
  destruct (GetPluginsEnvironment a) as [env|] eqn:Henv; [|by exists ""].
  by apply RunMultiPluginHook_keep, Hkeep.
Qed.

(** [UpdatePost_newPost] returns; it reads the clock at most twice and has no
    other effect. *)
Lemma UpdatePost_newPost_returns a post oldPost safeUpdate w :
  ∃ newPost n,
    app.UpdatePost_newPost a post oldPost safeUpdate w =
      (Returns newPost, Nat.iter n tick w).
Proof.
  unfold app.UpdatePost_newPost. unfold_M.
  case_decide; simpl; destruct (_ && _); simpl;
    first [by eexists _, 0 | by eexists _, 1 | by eexists _, 2].
Qed.

Lemma events_iter_tick n w : events (Nat.iter n tick w) = events w.
Proof. induction n; [done|]. simpl. exact IHn. Qed.

Lemma clockReads_iter_tick n w : clockReads (Nat.iter n tick w) = n + clockReads w.
Proof. induction n; [done|]. simpl. by rewrite IHn. Qed.

(** The four fields that the safe-update flag protects, in the version that
    [UpdatePost_newPost] builds. *)
Lemma UpdatePost_newPost_fields a post oldPost safeUpdate w newPost w' :
  app.UpdatePost_newPost a post oldPost safeUpdate w = (Returns newPost, w') →
  let source := if safeUpdate then oldPost else post in
  Post.IsPinned newPost = Post.IsPinned source
  ∧ Post.HasReactions newPost = Post.HasReactions source
  ∧ Post.FileIds newPost = Post.FileIds source
  ∧ Post.Props newPost = Post.Props source.
Proof.
  unfold app.UpdatePost_newPost. unfold_M.
  destruct safeUpdate; case_decide; simpl; destruct (_ && _); simpl;
    intros Hrun'; inversion Hrun'; subst; done.
Qed.

(** [FillInPostProps] writes the key [channel_mentions] of the property map
    and nothing else. *)
Lemma FillInPostProps_frame a post channel post' :
  app.FillInPostProps a post channel = Ok post' →
  post' = Post.set_Props (Post.Props post') post
  ∧ ∀ key, key ≠ "channel_mentions" → Post.prop post' key = Post.prop post key.
Proof.
  unfold app.FillInPostProps.
  destruct (if bool_decide _ then _ else _) as [prop|err]; [|done].
  repeat case_bool_decide; intros Hrun'; inversion Hrun'; subst; clear Hrun'.
  - split; [by destruct post|]. intros key Hkey. unfold Post.prop. simpl.
    rewrite lookup_insert_ne by done. by destruct (Post.Props post).
  - split; [by destruct post|]. intros key Hkey. unfold Post.prop. simpl.
    destruct (Post.Props post); [|done]. simpl. by rewrite lookup_delete_ne.
  - split; [by destruct post'|done].
Qed.

Lemma UpdatePost_afterUpdate_run a post newPost oldPost rpost w :
  ∃ evs r,
    app.UpdatePost_afterUpdate a post newPost oldPost rpost w =
      (Returns (Ok r), with_events evs w)
    ∧ Forall (λ ev, is_store_write ev = false) evs.
Proof.
  unfold app.UpdatePost_afterUpdate. unfold_M.
  destruct (bool_decide _), (IsESIndexingEnabled a); simpl;
    eexists _, _; (split; [unfold with_events; simpl; rewrite <- ?(assoc_L (++)); simpl;
                            reflexivity|]);
    repeat constructor.
Qed.

(** A run of [UpdatePost_commit] either ends before the store is touched, and
    then has no effect beyond readings of the clock, or it hands the store
    one update: of the version built by [UpdatePost_newPost], with the
    property map as [FillInPostProps] leaves it when that map is the
    caller's, and as the hooks return it. *)
Lemma UpdatePost_commit_inv a post oldPost safeUpdate w out w' :
  app.UpdatePost_commit a post oldPost safeUpdate w = (out, w') →
  (∃ n, w' = Nat.iter n tick w)
  ∨ ∃ n newPost0 post' newPost reason res evs,
      app.UpdatePost_newPost a post oldPost safeUpdate w =
        (Returns newPost0, Nat.iter n tick w)
      ∧ app.FillInPostProps a post None = Ok post'
      ∧ app.UpdatePost_runHooks a
          (if negb safeUpdate && bool_decide (is_Some (Post.Props post))
           then Post.set_Props (Post.Props post') newPost0 else newPost0) oldPost
        = (Some newPost, reason)
      ∧ res = Store_Post_Update a newPost oldPost
      ∧ w' = with_events (EvPostUpdate newPost oldPost res :: evs) (Nat.iter n tick w)
      ∧ Forall (λ ev, is_store_write ev = false) evs.
Proof.
  unfold app.UpdatePost_commit.
  destruct (GetChannel a _) as [channel|err];
    [|intros Hrun'; inversion Hrun'; left; by exists 0].
  case_decide; [intros Hrun'; inversion Hrun'; left; by exists 0|].
  destruct (UpdatePost_newPost_returns a post oldPost safeUpdate w) as (newPost0 & n & Hnew).
  erewrite bind_Returns by exact Hnew.
  destruct (app.FillInPostProps a post None) as [post'|err] eqn:Hfill;
    [|intros Hrun'; inversion Hrun'; left; by exists n].
  destruct (app.UpdatePost_runHooks a _ oldPost) as [[newPost|] reason] eqn:Hhooks;
    [|intros Hrun'; inversion Hrun'; left; by exists n].
  erewrite bind_Returns by reflexivity.
  destruct (Store_Post_Update a newPost oldPost) as [rpost|err] eqn:Hupd.
  - match goal with |- context [app.UpdatePost_afterUpdate _ _ _ _ _ ?W] =>
      destruct (UpdatePost_afterUpdate_run a post' newPost oldPost rpost W)
        as (evs & r & Hrun & Hevs)
    end.
    rewrite Hrun. intros Hrun'; inversion Hrun'; subst. right.
    exists n, newPost0, post', newPost, reason, (Ok rpost), evs.
    repeat (split; [done|]). split; [|done].
    unfold with_events. simpl. by rewrite <- (assoc_L (++)).
  - intros Hrun'; inversion Hrun'; subst. right.
    exists n, newPost0, post', newPost, reason, (Err err), [].
    repeat (split; [done|]). constructor.
Qed.

Lemma UpdatePost_checkTimeLimit_run a post oldPost w :
  ∃ r n, app.UpdatePost_checkTimeLimit a post oldPost w = (Returns r, Nat.iter n tick w).
Proof.
  unfold app.UpdatePost_checkTimeLimit. unfold_M.
  destruct (License a); [|by eexists _, 0].
  case_decide; [|by eexists _, 0]. simpl.
  destruct (_ && _); by eexists _, 1.
Qed.

(** A run of [UpdatePost] either ends in the checks of the old post, with no
    effect beyond a reading of the clock, or it is a run of
    [UpdatePost_commit] on the stored post. *)
Lemma UpdatePost_inv a post safeUpdate w out w' :
  app.UpdatePost a post safeUpdate w = (out, w') →
  (∃ n, w' = Nat.iter n tick w)
  ∨ ∃ postLists oldPost n,
      Store_Post_Get a (Post.Id post) = Ok postLists
      ∧ PostList.Posts postLists !! Post.Id post = Some oldPost
      ∧ app.UpdatePost_checkTimeLimit a (Post.SanitizeProps post) oldPost w =
          (Returns None, Nat.iter n tick w)
      ∧ app.UpdatePost_commit a (Post.SanitizeProps post) oldPost safeUpdate
          (Nat.iter n tick w) = (out, w').
Proof.
  unfold app.UpdatePost. simpl.
  destruct (Store_Post_Get a (Post.Id post)) as [postLists|err] eqn:Hget;
    [|intros Hrun; inversion Hrun; left; by exists 0].
  destruct (PostList.Posts postLists !! Post.Id post) as [oldPost|] eqn:Hold;
    [|intros Hrun; inversion Hrun; left; by exists 0].
  case_decide; [intros Hrun; inversion Hrun; left; by exists 0|].
  destruct (Post.IsSystemMessage oldPost);
    [intros Hrun; inversion Hrun; left; by exists 0|].
  destruct (UpdatePost_checkTimeLimit_run a (Post.SanitizeProps post) oldPost w)
    as ([err|] & n & Hcheck); erewrite bind_Returns by exact Hcheck.
  - intros Hrun; inversion Hrun; left; by exists n.
  - intros Hrun. right. by exists postLists, oldPost, n.
Qed.

(** The effects of a run of [UpdatePost]: at most one update of the store,
    described by [UpdatePost_commit_inv]. *)
Lemma UpdatePost_effects a post safeUpdate w out w' :
  app.UpdatePost a post safeUpdate w = (out, w') →
  ∃ evs, events w' = events w ++ evs
    ∧ ∀ newPost oldPost res, EvPostUpdate newPost oldPost res ∈ evs →
        ∃ postLists n1 n2 newPost0 post' reason,
          Store_Post_Get a (Post.Id post) = Ok postLists
          ∧ PostList.Posts postLists !! Post.Id post = Some oldPost
          ∧ app.UpdatePost_newPost a (Post.SanitizeProps post) oldPost safeUpdate
              (Nat.iter n1 tick w) = (Returns newPost0, Nat.iter n2 tick (Nat.iter n1 tick w))
          ∧ app.FillInPostProps a (Post.SanitizeProps post) None = Ok post'
          ∧ app.UpdatePost_runHooks a
              (if negb safeUpdate
                  && bool_decide (is_Some (Post.Props (Post.SanitizeProps post)))
               then Post.set_Props (Post.Props post') newPost0 else newPost0) oldPost
            = (Some newPost, reason)
          ∧ clockReads w' = n2 + (n1 + clockReads w).
Proof.
  intros Hrun.
  destruct (UpdatePost_inv _ _ _ _ _ _ Hrun)
    as [[n ->]|(postLists & oldPost & n1 & Hget & Hold & Hcheck & Hcommit)].
  { exists []. rewrite events_iter_tick, app_nil_r. split; [done|].
    intros ??? Hin. by apply elem_of_nil in Hin. }
  destruct (UpdatePost_commit_inv _ _ _ _ _ _ _ Hcommit)
    as [[n ->]|(n2 & newPost0 & post' & newPost & reason & res & evs
                & Hnew & Hfill & Hhooks & -> & -> & Hevs)].
  { exists []. rewrite !events_iter_tick, app_nil_r. split; [done|].
    intros ??? Hin. by apply elem_of_nil in Hin. }
  exists (EvPostUpdate newPost oldPost (Store_Post_Update a newPost oldPost) :: evs).
  split; [simpl; by rewrite !events_iter_tick|].
  intros newPost1 oldPost1 res1 Hin. apply elem_of_cons in Hin as [Heq|Hin].
  - inversion Heq; subst newPost1 oldPost1 res1.
    exists postLists, n1, n2, newPost0, post', reason.
    repeat (split; [done|]). unfold with_events. cbn [clockReads].
    by rewrite !clockReads_iter_tick.
  - rewrite Forall_forall in Hevs. apply Hevs in Hin. discriminate Hin.
Qed.

(** ** Update: the safe-update flag *)

(** C4, as amended.  The new version that [UpdatePost] builds is the version
    it persists whenever the pre-commit update hooks return what they are
    handed (or no plugin environment is active).  For every such update with
    the safe-update flag set, the persisted version's pinned flag, reactions
    flag, file-reference list and property map equal those of the old post,
    whatever the caller supplies; without the flag, its pinned flag,
    reactions flag and file-reference list are the caller's, and its property
    map is the caller's map as [SanitizeProps] and [FillInPostProps] leave
    it. *)
Theorem UpdatePost_safe_update a post safeUpdate w :
  hooks_keep a →
  ∃ evs,
    events (app.UpdatePost a post safeUpdate w).2 = events w ++ evs
    ∧ ∀ newPost oldPost res, EvPostUpdate newPost oldPost res ∈ evs →
        if safeUpdate then
          Post.IsPinned newPost = Post.IsPinned oldPost
          ∧ Post.HasReactions newPost = Post.HasReactions oldPost
          ∧ Post.FileIds newPost = Post.FileIds oldPost
          ∧ Post.Props newPost = Post.Props oldPost
        else
          Post.IsPinned newPost = Post.IsPinned post
          ∧ Post.HasReactions newPost = Post.HasReactions post
          ∧ Post.FileIds newPost = Post.FileIds post
          ∧ ∃ post', app.FillInPostProps a (Post.SanitizeProps post) None = Ok post'
              ∧ Post.Props newPost =
                  match Post.Props post with
                  | Some _ => Post.Props post'
                  | None => None
                  end.
Proof.
  intros Hkeep.
  destruct (app.UpdatePost a post safeUpdate w) as [out w'] eqn:Hrun.
  destruct (UpdatePost_effects _ _ _ _ _ _ Hrun) as (evs & Hevs & Hupd).
  exists evs. split; [done|]. intros newPost oldPost res Hin.
  destruct (Hupd _ _ _ Hin)
    as (postLists & n1 & n2 & newPost0 & post' & reason & _ & _ & Hnew & Hfill & Hhooks & _).
  apply UpdatePost_newPost_fields in Hnew as (Hpin & Hreact & Hfiles & Hprops).
  match type of Hhooks with app.UpdatePost_runHooks _ ?np _ = _ =>
    destruct (UpdatePost_runHooks_keep a np oldPost Hkeep) as [reason' Hkept]
  end.
  rewrite Hkept in Hhooks. inversion Hhooks; subst newPost; clear Hhooks Hkept.
  destruct safeUpdate; simpl in *.
  - done.
  - case_bool_decide as Hsome.
    + simpl. repeat (split; [done|]). exists post'. split; [done|].
      apply fmap_is_Some in Hsome. by destruct Hsome as [m ->].
    + repeat (split; [done|]). exists post'. split; [done|].
      rewrite Hprops. destruct (Post.Props post) as [m|]; [|done].
      exfalso. apply Hsome. by eexists.
Qed.

Lemma UpdatePost_safe_update_witness :
  hooks_keep SafeUpdate.a
  ∧ ∃ evs,
      events (app.UpdatePost SafeUpdate.a SafeUpdate.post true SafeUpdate.w).2 =
        events SafeUpdate.w ++ evs
      ∧ ∀ newPost oldPost res, EvPostUpdate newPost oldPost res ∈ evs →
          Post.IsPinned newPost = Post.IsPinned oldPost
          ∧ Post.HasReactions newPost = Post.HasReactions oldPost
          ∧ Post.FileIds newPost = Post.FileIds oldPost
          ∧ Post.Props newPost = Post.Props oldPost.
Proof.
  assert (H1 : hooks_keep SafeUpdate.a) by (intros env Henv; vm_compute in Henv; discriminate).
  split; [exact H1|].
  exact (UpdatePost_safe_update SafeUpdate.a SafeUpdate.post true SafeUpdate.w H1).
Defined.

(** C4, as stated, fails: under the safe-update flag an extension of the
    pre-commit update hooks pins the post, and the persisted version's pinned
    flag differs from the old post's. *)
Lemma UpdatePost_safe_update_hooked :
  ∃ newPost oldPost res,
    store_writes (events (app.UpdatePost SafeUpdate.a_pinner SafeUpdate.post true
                            SafeUpdate.w).2)
      = [EvPostUpdate newPost oldPost res]
    ∧ Post.IsPinned oldPost = false
    ∧ Post.IsPinned newPost = true.
Proof. eexists _, _, _. split; [vm_compute; reflexivity|]. done. Qed.

(** The two updates of [SafeUpdate] on the server without extensions: with
    the flag the caller's pin, file and property are dropped; without it
    they are persisted. *)
Example UpdatePost_safe_update_example :
  store_writes (events (app.UpdatePost SafeUpdate.a SafeUpdate.post true SafeUpdate.w).2) =
    (let newPost := Post.set_EditAt 5000 (Fixture.post "p1" "edited" "") in
     [EvPostUpdate newPost (Fixture.post "p1" "hello" "") (Ok newPost)])
  ∧ store_writes (events (app.UpdatePost SafeUpdate.a SafeUpdate.post false SafeUpdate.w).2) =
      (let newPost := Post.set_EditAt 5000 SafeUpdate.post in
       [EvPostUpdate newPost (Fixture.post "p1" "hello" "") (Ok newPost)]).
Proof. split; vm_compute; reflexivity. Qed.

(** ** Update: the edit timestamp *)

Lemma Attachments_prop o1 o2 :
  Post.prop o1 "attachments" = Post.prop o2 "attachments" →
  Post.Attachments o1 = Post.Attachments o2.
Proof. unfold Post.Attachments. by intros ->. Qed.

(** With the message unchanged, [UpdatePost_newPost] bumps the edit
    timestamp exactly when the file references or the attachments of the
    version it builds differ from the old post's. *)
Lemma UpdatePost_newPost_editAt a post oldPost safeUpdate w newPost w' :
  app.UpdatePost_newPost a post oldPost safeUpdate w = (Returns newPost, w') →
  Post.Message post = Post.Message oldPost →
  if bool_decide (Post.FileIds newPost = Post.FileIds oldPost
                  ∧ Post.Attachments newPost = Post.Attachments oldPost)
  then Post.EditAt newPost = Post.EditAt oldPost ∧ w' = w
  else Post.EditAt newPost = now_of a w ∧ w' = tick w.
Proof.
  intros Hrun Hmsg. unfold app.UpdatePost_newPost in Hrun.
  rewrite decide_False in Hrun by (intros ?; congruence).
  unfold model.StringArray_Equals, Post.AttachmentsEqual in Hrun.
  unfold_M. simpl in Hrun.
  destruct safeUpdate; simpl in Hrun.
  - rewrite !bool_decide_eq_true_2 in Hrun by done. simpl in Hrun.
    inversion Hrun; subst. by rewrite bool_decide_eq_true_2.
  - rewrite (bool_decide_eq_true_2 (Post.EditAt oldPost = Post.EditAt oldPost)) in Hrun
      by done.
    simpl in Hrun.
    destruct (bool_decide (Post.FileIds oldPost = Post.FileIds post)) eqn:Hfiles;
      simpl in Hrun.
    + apply bool_decide_eq_true in Hfiles.
      match type of Hrun with context [bool_decide ?P] =>
        destruct (bool_decide P) eqn:Hatt end; simpl in Hrun.
      * apply bool_decide_eq_true in Hatt. inversion Hrun; subst.
        by rewrite bool_decide_eq_true_2.
      * apply bool_decide_eq_false in Hatt. inversion Hrun; subst.
        rewrite bool_decide_eq_false_2; [done|]. intros [_ Heq]. apply Hatt.
        symmetry. exact Heq.
    + apply bool_decide_eq_false in Hfiles. inversion Hrun; subst.
      rewrite bool_decide_eq_false_2; [done|]. intros [Heq _]. simpl in Heq. congruence.
Qed.

(** C9.  For every update that reaches the store, the new version that
    [UpdatePost] built and handed to the pre-commit hooks (the version that is
    persisted, unless an extension replaces it) is such that, when the
    caller's message text equals the old post's: if its file-reference list
    or its property-derived attachments differ from the old post's, its edit
    timestamp is a reading of the clock taken during the call; and if both are
    the same as the old post's, its edit timestamp is the old post's. *)
Theorem UpdatePost_edit_timestamp a post safeUpdate w :
  ∃ evs,
    events (app.UpdatePost a post safeUpdate w).2 = events w ++ evs
    ∧ ∀ persisted oldPost res, EvPostUpdate persisted oldPost res ∈ evs →
        ∃ newPost reason,
          app.UpdatePost_runHooks a newPost oldPost = (Some persisted, reason)
          ∧ (Post.Message post = Post.Message oldPost →
             (Post.FileIds newPost ≠ Post.FileIds oldPost
              ∨ Post.Attachments newPost ≠ Post.Attachments oldPost →
              ∃ n, clockReads w ≤ n < clockReads (app.UpdatePost a post safeUpdate w).2
                   ∧ Post.EditAt newPost = clock a n)
             ∧ (Post.FileIds newPost = Post.FileIds oldPost →
                Post.Attachments newPost = Post.Attachments oldPost →
                Post.EditAt newPost = Post.EditAt oldPost)).
Proof.
  destruct (app.UpdatePost a post safeUpdate w) as [out w'] eqn:Hrun.
  destruct (UpdatePost_effects _ _ _ _ _ _ Hrun) as (evs & Hevs & Hupd).
  exists evs. split; [done|]. intros persisted oldPost res Hin.
  destruct (Hupd _ _ _ Hin)
    as (postLists & n1 & n2 & newPost0 & post' & reason & _ & _ & Hnew & Hfill & Hhooks
        & Hreads).
  eexists _, reason. split; [exact Hhooks|]. intros Hmsg.
  pose proof (UpdatePost_newPost_fields _ _ _ _ _ _ _ Hnew) as (_ & _ & _ & Hprops).
  pose proof (UpdatePost_newPost_editAt _ _ _ _ _ _ _ Hnew Hmsg) as Hedit.
  destruct (FillInPostProps_frame _ _ _ _ Hfill) as [_ Hframe].
  match goal with |- context [Post.FileIds ?np] =>
    assert (Hsame : Post.FileIds np = Post.FileIds newPost0
                    ∧ Post.EditAt np = Post.EditAt newPost0
                    ∧ Post.Attachments np = Post.Attachments newPost0)
  end.
  { destruct (_ && _) eqn:Halias; [|done]. split; [done|]. split; [done|].
    apply andb_true_iff in Halias as [Hsafe _]. destruct safeUpdate; [done|].
    simpl in Hprops. apply Attachments_prop.
    transitivity (Post.prop post' "attachments"); [reflexivity|].
    rewrite Hframe by done. unfold Post.prop. by rewrite Hprops. }
  destruct Hsame as (-> & -> & ->). simpl in Hreads.
  case_bool_decide as Hcase.
  - destruct Hedit as [Hedit _]. split; [|done].
    intros [Hne|Hne]; exfalso; apply Hne; apply Hcase.
  - destruct Hedit as [Hedit Hw]. split.
    + intros _. exists (n1 + clockReads w). split.
      * assert (Hn2 : clockReads (Nat.iter n2 tick (Nat.iter n1 tick w))
                      = clockReads (tick (Nat.iter n1 tick w))) by (by rewrite Hw).
        simpl in Hn2. rewrite !clockReads_iter_tick in Hn2. simpl. lia.
      * rewrite Hedit. unfold now_of. by rewrite clockReads_iter_tick.
    + intros Hf Ha. exfalso. by apply Hcase.
Qed.

(** An edit of the files only bumps the edit timestamp to the reading 5000
    of the clock; an edit that changes nothing leaves it at 0. *)
Example UpdatePost_edit_timestamp_example :
  store_writes
    (events (app.UpdatePost SafeUpdate.a
               (Post.set_FileIds ["f1"] (Fixture.post "p1" "hello" "")) false
               SafeUpdate.w).2) =
    (let newPost := Post.set_EditAt 5000
                      (Post.set_FileIds ["f1"] (Fixture.post "p1" "hello" "")) in
     [EvPostUpdate newPost (Fixture.post "p1" "hello" "") (Ok newPost)])
  ∧ store_writes
      (events (app.UpdatePost SafeUpdate.a (Fixture.post "p1" "hello" "") false
                 SafeUpdate.w).2) =
      [EvPostUpdate (Fixture.post "p1" "hello" "") (Fixture.post "p1" "hello" "")
         (Ok (Fixture.post "p1" "hello" ""))].
Proof. split; vm_compute; reflexivity. Qed.

(** ** Update: the edit-time-limit *)

Lemma wrap64_small z : in_int64 z → wrap64 z = z.
Proof.
  unfold in_int64, min_int64, max_int64, wrap64. intros Hz.
  rewrite Z.mod_small by lia. lia.
Qed.

(** Within the range of [int64] the limit in milliseconds and the end of the
    window are computed without wrap-around. *)
Lemma edit_window_end createAt limit now :
  (0 ≤ createAt)%Z → (0 ≤ limit)%Z → (now ≤ max_int64)%Z →
  (createAt + limit * 1000 < now)%Z →
  add64 createAt (mul64 limit 1000) = (createAt + limit * 1000)%Z.
Proof.
  intros Hc Hl Hnow Hlt. unfold add64, mul64.
  rewrite (wrap64_small (limit * 1000)) by (unfold in_int64, min_int64, max_int64 in *; lia).
  apply wrap64_small. unfold in_int64, min_int64, max_int64 in *. lia.
Qed.

(** C5, as amended.  For every update of a stored post that is neither
    deleted nor a system message: (1) if a licence is present, the
    edit-time-limit is N seconds with N not -1 (and not negative), the message
    text changes and the clock reads more than N seconds after the post's
    creation time, [UpdatePost] rejects with the bad-request error
    [api.post.update_post.permissions_time_limit.app_error] and writes
    nothing; (2) if the limit is -1, or no licence is present, the window
    rejects nothing: the update proceeds to the edit itself; (3) an update
    that does not change the message text is never rejected by the window
    either. *)
Theorem UpdatePost_edit_window a post safeUpdate w postLists oldPost :
  Store_Post_Get a (Post.Id post) = Ok postLists →
  PostList.Posts postLists !! Post.Id post = Some oldPost →
  Post.DeleteAt oldPost = 0%Z →
  Post.IsSystemMessage oldPost = false →
  (License a = true →
   PostEditTimeLimit a ≠ (-1)%Z → (0 ≤ PostEditTimeLimit a)%Z →
   (0 ≤ Post.CreateAt oldPost)%Z → (now_of a w ≤ max_int64)%Z →
   Post.Message post ≠ Post.Message oldPost →
   (now_of a w > Post.CreateAt oldPost + PostEditTimeLimit a * 1000)%Z →
   app.UpdatePost a post safeUpdate w =
     (Returns (Err (NewAppError "UpdatePost"
                      "api.post.update_post.permissions_time_limit.app_error"
                      [("timeLimit", ParamInt (PostEditTimeLimit a))] "" StatusBadRequest)),
      tick w))
  ∧ (PostEditTimeLimit a = (-1)%Z ∨ License a = false →
     app.UpdatePost a post safeUpdate w =
       app.UpdatePost_commit a (Post.SanitizeProps post) oldPost safeUpdate w)
  ∧ (Post.Message post = Post.Message oldPost →
     ∃ n, n ≤ 1
          ∧ app.UpdatePost a post safeUpdate w =
              app.UpdatePost_commit a (Post.SanitizeProps post) oldPost safeUpdate
                (Nat.iter n tick w)).
Proof.
  intros Hget Hold Hdel Hsys.
  assert (Hprefix : app.UpdatePost a post safeUpdate w =
            (app.UpdatePost_checkTimeLimit a (Post.SanitizeProps post) oldPost ≫=
               λ expired, match expired with
                          | Some err => mret (Err err)
                          | None => app.UpdatePost_commit a (Post.SanitizeProps post)
                                      oldPost safeUpdate
                          end) w).
  { unfold app.UpdatePost. simpl. rewrite Hget, Hold.
    rewrite decide_False by (intros Hne; by apply Hne). by rewrite Hsys. }
  rewrite Hprefix. clear Hprefix. split; [|split].
  - intros Hlic Hlimit Hpos Hcreate Hnow Hmsg Hlate.
    unfold app.UpdatePost_checkTimeLimit. rewrite Hlic, decide_True by done.
    unfold_M. simpl. fold (now_of a w).
    rewrite (edit_window_end _ _ (now_of a w)) by lia.
    rewrite bool_decide_eq_true_2 by lia. rewrite bool_decide_eq_true_2 by done.
    reflexivity.
  - intros Hoff. unfold app.UpdatePost_checkTimeLimit.
    destruct Hoff as [Hoff|Hoff].
    + destruct (License a); [|reflexivity].
      rewrite decide_False by (intros Hne; by apply Hne). reflexivity.
    + rewrite Hoff. reflexivity.
  - intros Hmsg. unfold app.UpdatePost_checkTimeLimit.
    destruct (License a); [|exists 0; split; [lia|reflexivity]].
    case_decide; [|exists 0; split; [lia|reflexivity]]. exists 1. split; [done|].
    unfold_M. simpl.
    rewrite (bool_decide_eq_false_2 (Post.Message post ≠ Post.Message oldPost))
      by (intros Hne; by apply Hne).
    rewrite andb_false_r. reflexivity.
Qed.

Lemma UpdatePost_edit_window_witness :
  Store_Post_Get EditWindow.a (Post.Id EditWindow.post) = Ok EditWindow.postLists
  ∧ PostList.Posts EditWindow.postLists !! Post.Id EditWindow.post
      = Some (Fixture.post "p1" "hello" "")
  ∧ app.UpdatePost EditWindow.a EditWindow.post false EditWindow.w =
      (Returns (Err (NewAppError "UpdatePost"
                       "api.post.update_post.permissions_time_limit.app_error"
                       [("timeLimit", ParamInt 10)] "" StatusBadRequest)),
       tick EditWindow.w).
Proof.
  assert (H1 : Store_Post_Get EditWindow.a (Post.Id EditWindow.post)
               = Ok EditWindow.postLists) by (vm_compute; reflexivity).
  assert (H2 : PostList.Posts EditWindow.postLists !! Post.Id EditWindow.post
               = Some (Fixture.post "p1" "hello" "")) by (vm_compute; reflexivity).
  split; [exact H1|]. split; [exact H2|].
  refine (proj1 (UpdatePost_edit_window EditWindow.a EditWindow.post false EditWindow.w
                   EditWindow.postLists (Fixture.post "p1" "hello" "") H1 H2 _ _)
            _ _ _ _ _ _ _);
    vm_compute; congruence.
Defined.

(** C5, as stated, fails: without a licence the limit of 10 s is not
    enforced, and a change of the message 19 s after creation is accepted. *)
Lemma UpdatePost_edit_window_unlicensed :
  PostEditTimeLimit EditWindow.a_unlicensed = 10%Z
  ∧ Store_Post_GetSingle EditWindow.a_unlicensed "p1" = Ok (Fixture.post "p1" "hello" "")
  ∧ (now_of EditWindow.a_unlicensed EditWindow.w
     > Post.CreateAt (Fixture.post "p1" "hello" "") + 10 * 1000)%Z
  ∧ Post.Message EditWindow.post ≠ "hello"
  ∧ (app.UpdatePost EditWindow.a_unlicensed EditWindow.post false EditWindow.w).1 =
      Returns (Ok (Post.set_EditAt 20000 (Fixture.post "p1" "edited" ""))).
Proof. repeat split; vm_compute; congruence. Qed.

(** ** Create: the thread invariant *)

Lemma find_Remove k now c : Cache.find k now (Cache.Remove k c) = None.
Proof.
  unfold Cache.find, Cache.Remove, Cache.without. simpl.
  induction (Cache.items c) as [|e l IH]; [done|].
  destruct (decide (Cache.key e = k)) as [He|He].
  - rewrite filter_cons_False by (intros Hne; by apply Hne). exact IH.
  - rewrite filter_cons_True by done.
    rewrite filter_cons_False by (intros [Hk _]; by apply He). exact IH.
Qed.

Lemma IsSystemMessage_from_bot (b : bool) post :
  Post.IsSystemMessage (if b then Post.AddProp "from_bot" (PVString "true") post else post)
  = Post.IsSystemMessage post.
Proof. by destruct b. Qed.

Lemma String_length_pos s : s ≠ "" → 0 < String.length s.
Proof. destruct s; [done|]. simpl. lia. Qed.

Lemma CreatePost_body_thread a post channel triggerWebhooks user parentPostList w p err :
  Post.RootId post ≠ "" →
  Store_Post_Get a (Post.RootId post) = Ok parentPostList →
  AuthorPasses a post channel user →
  app.CreatePost_verifyThread (checked_post user post) (Some (Ok parentPostList)) w
    = (Returns (p, Err err), w) →
  app.CreatePost_body a post channel triggerWebhooks w = (Returns (p, Err err), w).
Proof.
  intros Hroot Hget [Huser Hpolicy] Hverify.
  unfold app.CreatePost_body. simpl. rewrite Huser.
  unfold app.CreatePost_townSquareIsReadOnly in *.
  rewrite IsSystemMessage_from_bot.
  change (Post.IsSystemMessage (Post.SanitizeProps post)) with (Post.IsSystemMessage post).
  rewrite Hpolicy.
  rewrite bool_decide_eq_true_2 by (by apply String_length_pos).
  rewrite Hget. fold (checked_post user post).
  erewrite bind_Returns by exact Hverify. reflexivity.
Qed.

Lemma verifyThread_enters post parentPostList rootPost :
  PostList.IsChannelId (Post.ChannelId post) parentPostList = true →
  PostList.Posts parentPostList !! Post.RootId post = Some rootPost →
  bool_decide (size (PostList.Posts parentPostList) = 0)
  || negb (PostList.IsChannelId (Post.ChannelId post) parentPostList) = false.
Proof.
  intros -> Hfound. rewrite bool_decide_eq_false_2; [done|].
  intros Hsize. apply map_size_empty_iff in Hsize. rewrite Hsize in Hfound.
  by rewrite lookup_empty in Hfound.
Qed.

(** The root has a root of its own. *)
Lemma verifyThread_nested post parentPostList rootPost w :
  PostList.IsChannelId (Post.ChannelId post) parentPostList = true →
  PostList.Posts parentPostList !! Post.RootId post = Some rootPost →
  Post.RootId rootPost ≠ "" →
  app.CreatePost_verifyThread post (Some (Ok parentPostList)) w =
    (Returns (post, Err (NewAppError "createPost" "api.post.create_post.root_id.app_error"
                           [] "" StatusBadRequest)), w).
Proof.
  intros Hchan Hfound Hnested. unfold app.CreatePost_verifyThread.
  rewrite (verifyThread_enters _ _ _ Hchan Hfound), Hfound.
  rewrite bool_decide_eq_true_2 by (by apply String_length_pos). reflexivity.
Qed.

(** The parent is not the root and is not in the root's thread. *)
Lemma verifyThread_orphan post parentPostList rootPost w :
  PostList.IsChannelId (Post.ChannelId post) parentPostList = true →
  PostList.Posts parentPostList !! Post.RootId post = Some rootPost →
  Post.RootId rootPost = "" →
  Post.ParentId post ≠ "" →
  Post.ParentId post ≠ Post.RootId post →
  PostList.Posts parentPostList !! Post.ParentId post = None →
  app.CreatePost_verifyThread post (Some (Ok parentPostList)) w =
    (Returns (post, Err (NewAppError "createPost" "api.post.create_post.parent_id.app_error"
                           [] "" StatusInternalServerError)), w).
Proof.
  intros Hchan Hfound Hflat Hparent Hne Horphan. unfold app.CreatePost_verifyThread.
  rewrite (verifyThread_enters _ _ _ Hchan Hfound), Hfound.
  rewrite bool_decide_eq_false_2 by (rewrite Hflat; simpl; lia).
  rewrite (decide_False (P := Post.ParentId post = "")) by done.
  rewrite decide_True by congruence.
  rewrite Horphan. reflexivity.
Qed.

Lemma released_events a post w : events (released a post w) = events w.
Proof. unfold released. by case_decide. Qed.

(** A request that passes the deduplication check as a new one, and whose
    body fails without any effect, fails as a whole; the slot of its token is
    released. *)
Lemma CreatePost_fails_early a post channel triggerWebhooks w p err :
  (Post.PendingPostId post = "" ∨ unseen a w (Post.PendingPostId post)) →
  Post.PendingPostId p = Post.PendingPostId post →
  (∀ w1, app.CreatePost_body a post channel triggerWebhooks w1 = (Returns (p, Err err), w1)) →
  app.CreatePost a post channel triggerWebhooks w = (Returns (Err err), released a post w).
Proof.
  intros Hnew Htok Hbody. unfold app.CreatePost, released.
  destruct (decide (Post.PendingPostId post = "")) as [Hempty|Hne].
  - erewrite bind_Returns by (by apply deduplicateCreatePost_no_token).
    cbv beta iota. erewrite bind_Returns by apply Hbody.
    unfold app.CreatePost_deferred. rewrite decide_True by congruence. reflexivity.
  - destruct Hnew as [?|Hunseen]; [done|].
    erewrite bind_Returns by (by apply deduplicateCreatePost_fresh).
    cbv beta iota. erewrite bind_Returns by apply Hbody.
    unfold app.CreatePost_deferred. rewrite decide_False by congruence.
    rewrite Htok. reflexivity.
Qed.

(** C6, as amended.  For every create request that declares a root post,
    passes the deduplication check as a new request, whose author loads and is
    not stopped by the read-only policy, and whose root thread comes back from
    the store with all its posts in the channel of the request: (1) if the
    root post has a root reference of its own, [CreatePost] rejects with the
    bad-request error [api.post.create_post.root_id.app_error]; (2) if it has
    none, and the parent of the request is given, differs from the root and is
    not among the posts of the thread, [CreatePost] rejects with the error
    [api.post.create_post.parent_id.app_error]; in either case nothing is
    written to the store, and the slot of the token, if any, is released. *)
Theorem CreatePost_thread_invariant a post channel triggerWebhooks w user parentPostList
    rootPost :
  (Post.PendingPostId post = "" ∨ unseen a w (Post.PendingPostId post)) →
  AuthorPasses a post channel user →
  RootThread a post parentPostList rootPost →
  (Post.RootId rootPost ≠ "" →
   ∃ err,
     app.CreatePost a post channel triggerWebhooks w = (Returns (Err err), released a post w)
     ∧ AppError.Id err = "api.post.create_post.root_id.app_error"
     ∧ error_class err = BadRequestError)
  ∧ (Post.RootId rootPost = "" →
     Post.ParentId post ≠ "" →
     Post.ParentId post ≠ Post.RootId post →
     PostList.Posts parentPostList !! Post.ParentId post = None →
     ∃ err,
       app.CreatePost a post channel triggerWebhooks w = (Returns (Err err), released a post w)
       ∧ AppError.Id err = "api.post.create_post.parent_id.app_error"
       ∧ AppError.StatusCode err = StatusInternalServerError)
  ∧ events (released a post w) = events w
  ∧ (Post.PendingPostId post ≠ "" →
     ∀ now, Cache.find (Post.PendingPostId post) now
              (seenPendingPostIdsCache (released a post w)) = None).
Proof.
  intros Hnew Hauthor [Hroot Hget Hchan Hfound].
  assert (Hfields : Post.RootId (checked_post user post) = Post.RootId post
                    ∧ Post.ChannelId (checked_post user post) = Post.ChannelId post
                    ∧ Post.ParentId (checked_post user post) = Post.ParentId post
                    ∧ Post.PendingPostId (checked_post user post) = Post.PendingPostId post)
    by (unfold checked_post; by destruct (User.IsBot user)).
  destruct Hfields as (HrootId & HchannelId & HparentId & Htoken).
  split; [|split; [|split]].
  - intros Hnested. eexists. split.
    { apply CreatePost_fails_early with (p := checked_post user post); [done|done|].
      intros w1. eapply CreatePost_body_thread; [done..|].
      apply verifyThread_nested with (rootPost := rootPost); congruence. }
    split; reflexivity.
  - intros Hflat Hparent Hne Horphan. eexists. split.
    { apply CreatePost_fails_early with (p := checked_post user post); [done|done|].
      intros w1. eapply CreatePost_body_thread; [done..|].
      apply verifyThread_orphan with (rootPost := rootPost); congruence. }
    split; reflexivity.
  - apply released_events.
  - intros Htok now. unfold released. rewrite decide_False by done. simpl.
    apply (find_Remove (Post.PendingPostId post) now).
Qed.

Lemma CreatePost_thread_invariant_witness :
  (Post.PendingPostId Thread.nested = "" ∨ unseen Thread.a Thread.w (Post.PendingPostId Thread.nested))
  ∧ AuthorPasses Thread.a Thread.nested Fixture.town Fixture.alice
  ∧ RootThread Thread.a Thread.nested Thread.nested_thread
      (Fixture.reply "n1" "r1" "r1" "a reply")
  ∧ Post.RootId (Fixture.reply "n1" "r1" "r1" "a reply") ≠ ""
  ∧ ∃ err,
      app.CreatePost Thread.a Thread.nested Fixture.town false Thread.w =
        (Returns (Err err), released Thread.a Thread.nested Thread.w)
      ∧ AppError.Id err = "api.post.create_post.root_id.app_error"
      ∧ error_class err = BadRequestError.
Proof.
  assert (H1 : Post.PendingPostId Thread.nested = ""
               ∨ unseen Thread.a Thread.w (Post.PendingPostId Thread.nested))
    by (left; reflexivity).
  assert (H2 : AuthorPasses Thread.a Thread.nested Fixture.town Fixture.alice)
    by (split; vm_compute; reflexivity).
  assert (H3 : RootThread Thread.a Thread.nested Thread.nested_thread
                 (Fixture.reply "n1" "r1" "r1" "a reply"))
    by (split; vm_compute; congruence).
  assert (H4 : Post.RootId (Fixture.reply "n1" "r1" "r1" "a reply") ≠ "")
    by (vm_compute; congruence).
  split; [exact H1|]. split; [exact H2|]. split; [exact H3|]. split; [exact H4|].
  exact (proj1 (CreatePost_thread_invariant Thread.a Thread.nested Fixture.town false
                  Thread.w Fixture.alice Thread.nested_thread
                  (Fixture.reply "n1" "r1" "r1" "a reply") H1 H2 H3) H4).
Defined.

(** The orphan reply is rejected, with status 500, and nothing is written. *)
Example CreatePost_orphan_example :
  app.CreatePost Thread.a Thread.orphan Fixture.town false Thread.w =
    (Returns (Err (NewAppError "createPost" "api.post.create_post.parent_id.app_error"
                     [] "" StatusInternalServerError)),
     Thread.w).
Proof. vm_compute. reflexivity. Qed.

(** C6, as stated, fails.  The root [n1] declared by the request has a root
    of its own, but the author of the request is unknown to the store, and
    [CreatePost] rejects with the not-found error of the user store; and the
    root [m1] has a root of its own, but lies in another channel, and
    [CreatePost] rejects with status 500: neither is a bad-request error. *)
Lemma CreatePost_thread_invariant_author :
  (RootThread Thread.a Thread.ghost Thread.nested_thread
     (Fixture.reply "n1" "r1" "r1" "a reply")
   ∧ Post.RootId (Fixture.reply "n1" "r1" "r1" "a reply") ≠ ""
   ∧ ∃ err,
       (app.CreatePost Thread.a Thread.ghost Fixture.town false Thread.w).1
         = Returns (Err err)
       ∧ error_class err = NotFoundError)
  ∧ (Store_Post_Get Thread.a (Post.RootId Thread.elsewhere)
       = Ok (PostList.mk ["m1"] {[ "m1" := Thread.far_reply ]} "" "")
     ∧ Post.RootId Thread.far_reply ≠ ""
     ∧ (app.CreatePost Thread.a Thread.elsewhere Fixture.town false Thread.w).1
         = Returns (Err (NewAppError "createPost"
                           "api.post.create_post.channel_root_id.app_error" [] ""
                           StatusInternalServerError))).
Proof.
  split.
  - split; [split; vm_compute; congruence|]. split; [vm_compute; congruence|].
    eexists. split; vm_compute; reflexivity.
  - split; [vm_compute; reflexivity|]. split; vm_compute; congruence.
Qed.

(** ** Search: the aggregator *)

Lemma omap_lookup_seq {A} (l1 l2 : list A) :
  omap (λ i, (l1 ++ l2) !! i) (seq (length l1) (length l2)) = l2.
Proof.
  revert l1. induction l2 as [|x l2 IH]; intros l1; [done|].
  simpl. rewrite lookup_app_r by lia. rewrite Nat.sub_diag. simpl. f_equal.
  specialize (IH (l1 ++ [x])). rewrite <- (assoc_L (++)) in IH. simpl in IH.
  rewrite length_app in IH. simpl in IH. by rewrite Nat.add_1_r in IH.
Qed.

(** Whatever the order of completion, the loop over [pchan] sees each
    answer once. *)
Lemma arrivals_Permutation {A} (schedule : list nat) (results : list A) :
  schedule ≡ₚ seq 0 (length results) → app.arrivals schedule results ≡ₚ results.
Proof.
  intros Hperm. unfold app.arrivals. rewrite Hperm.
  pose proof (omap_lookup_seq [] results) as Hseq. simpl in Hseq. by rewrite Hseq.
Qed.

Lemma searchPostsInTeam_collect_Err pchan posts err0 :
  Err err0 ∈ pchan →
  ∃ err, app.searchPostsInTeam_collect pchan posts = Err err ∧ Err err ∈ pchan.
Proof.
  revert posts. induction pchan as [|r pchan IH]; intros posts Hin.
  - by apply elem_of_nil in Hin.
  - destruct r as [data|err]; simpl.
    + apply elem_of_cons in Hin as [Heq|Hin]; [done|].
      destruct (IH (PostList.Extend data posts) Hin) as (err & Hrun & Herr).
      exists err. split; [done|]. by apply elem_of_cons; right.
    + exists err. split; [done|]. by apply elem_of_cons; left.
Qed.

(** C8.  For every list of search-term specifications and every order in
    which the launched store queries complete: if at least one of the queries
    fails, [searchPostsInTeam] returns an error, one of the errors of the
    queries, and no post list. *)
Theorem searchPostsInTeam_failure a dir schedule teamId userId paramsList modifierFun
    w results w1 err0 :
  app.searchPostsInTeam_launch a teamId userId paramsList modifierFun w
    = (Returns results, w1) →
  schedule ≡ₚ seq 0 (length results) →
  Err err0 ∈ results →
  ∃ err,
    app.searchPostsInTeam a dir schedule teamId userId paramsList modifierFun w
      = (Returns (Err err), w1)
    ∧ Err err ∈ results.
Proof.
  intros Hlaunch Hsched Hin.
  pose proof (arrivals_Permutation schedule results Hsched) as Hperm.
  destruct (searchPostsInTeam_collect_Err (app.arrivals schedule results)
              PostList.NewPostList err0) as (err & Hcollect & Herr).
  { by rewrite Hperm. }
  exists err. split; [|by rewrite <- Hperm].
  unfold app.searchPostsInTeam. erewrite bind_Returns by exact Hlaunch.
  cbv beta zeta. by rewrite Hcollect.
Qed.

Lemma searchPostsInTeam_failure_witness :
  app.searchPostsInTeam_launch Search.a "t1" "u1"
    [Search.params "alpha"; Search.params "*"; Search.params "gamma"]
    (λ p, mret (Search.modifier p)) Search.w
  = (Returns [Search.search (Search.params "alpha"); Search.search (Search.params "gamma")],
     with_events [EvSearch "t1" "u1" (Search.modifier (Search.params "alpha"));
                  EvSearch "t1" "u1" (Search.modifier (Search.params "gamma"))] Search.w)
  ∧ [1; 0] ≡ₚ seq 0 2
  ∧ ∃ err,
      app.searchPostsInTeam Search.a PostList.NewestFirst [1; 0] "t1" "u1"
        [Search.params "alpha"; Search.params "*"; Search.params "gamma"]
        (λ p, mret (Search.modifier p)) Search.w
      = (Returns (Err err),
         with_events [EvSearch "t1" "u1" (Search.modifier (Search.params "alpha"));
                      EvSearch "t1" "u1" (Search.modifier (Search.params "gamma"))] Search.w)
      ∧ Err err ∈ [Search.search (Search.params "alpha");
                   Search.search (Search.params "gamma")].
Proof.
  assert (H1 : app.searchPostsInTeam_launch Search.a "t1" "u1"
                 [Search.params "alpha"; Search.params "*"; Search.params "gamma"]
                 (λ p, mret (Search.modifier p)) Search.w
               = (Returns [Search.search (Search.params "alpha");
                           Search.search (Search.params "gamma")],
                  with_events [EvSearch "t1" "u1" (Search.modifier (Search.params "alpha"));
                               EvSearch "t1" "u1" (Search.modifier (Search.params "gamma"))]
                    Search.w)) by (vm_compute; reflexivity).
  assert (H2 : [1; 0] ≡ₚ seq 0 2) by (simpl; apply Permutation_swap).
  assert (H3 : Err (NewAppError "SqlPostStore.Search" "store.sql_post.search.app_error" []
                      "" StatusInternalServerError)
               ∈ [Search.search (Search.params "alpha");
                  Search.search (Search.params "gamma")])
    by (apply elem_of_cons; right; apply elem_of_cons; left; vm_compute; reflexivity).
  split; [exact H1|]. split; [exact H2|].
  exact (searchPostsInTeam_failure Search.a PostList.NewestFirst [1; 0] "t1" "u1" _ _ _ _ _ _
           H1 H2 H3).
Defined.

Lemma merged_NewPostList : merged PostList.NewPostList.
Proof.
  split; [constructor|]. intros id. simpl. rewrite lookup_empty. split.
  - intros Hin. by apply elem_of_nil in Hin.
  - intros [p Hp]. done.
Qed.

Lemma Extend_loop_spec ids other o :
  merged o →
  (∀ id, id ∈ ids → ∃ p, PostList.Posts other !! id = Some p ∧ Post.Id p = id) →
  merged (PostList.Extend_loop ids other o)
  ∧ (∀ id, id ∈ PostList.Order (PostList.Extend_loop ids other o)
           ↔ id ∈ PostList.Order o ∨ id ∈ ids)
  ∧ (∀ id p, PostList.Posts (PostList.Extend_loop ids other o) !! id = Some p →
             PostList.Posts o !! id = Some p
             ∨ (id ∈ ids ∧ PostList.Posts other !! id = Some p)).
Proof.
  revert o. induction ids as [|postId rest IH]; intros o Hmerged Hids.
  - simpl. split; [done|]. split; [|by left].
    intros id. split; [by left|]. intros [?|Hin]; [done|]. by apply elem_of_nil in Hin.
  - assert (Hrest : ∀ id, id ∈ rest →
                      ∃ p, PostList.Posts other !! id = Some p ∧ Post.Id p = id)
      by (intros id Hin; apply Hids; by apply elem_of_cons; right).
    destruct Hmerged as [Hnodup Hdom]. simpl.
    destruct (PostList.Posts o !! postId) as [q|] eqn:Hq.
    + destruct (IH o (conj Hnodup Hdom) Hrest) as (Hm & Hord & Hposts).
      split; [done|]. split.
      * intros id. rewrite Hord. split.
        -- intros [?|?]; [by left|]. right. by apply elem_of_cons; right.
        -- intros [?|Hin]; [by left|]. apply elem_of_cons in Hin as [->|?]; [|by right].
           left. apply Hdom. by eexists.
      * intros id p Hp. destruct (Hposts id p Hp) as [?|[? ?]]; [by left|].
        right. split; [|done]. by apply elem_of_cons; right.
    + destruct (Hids postId) as (p & Hp & Hid); [by apply elem_of_cons; left|].
      rewrite Hp.
      assert (Hfresh : postId ∉ PostList.Order o).
      { intros Hin. apply Hdom in Hin as [q Hq']. congruence. }
      assert (Hm1 : merged (PostList.AddOrder postId (PostList.AddPost p o))).
      { split; simpl.
        - apply NoDup_app. split; [done|]. split; [|apply NoDup_singleton].
          intros x Hx Hx'. apply list_elem_of_singleton in Hx'. by subst.
        - intros id. rewrite elem_of_app, list_elem_of_singleton, Hid.
          rewrite lookup_insert_is_Some. rewrite Hdom.
          destruct (decide (postId = id)); intuition congruence. }
      destruct (IH _ Hm1 Hrest) as (Hm & Hord & Hposts).
      split; [done|]. split.
      * intros id. rewrite Hord. simpl.
        rewrite elem_of_app, list_elem_of_singleton, elem_of_cons. tauto.
      * intros id q Hq'. destruct (Hposts id q Hq') as [Hold|[? ?]].
        -- simpl in Hold. rewrite Hid in Hold.
           destruct (decide (postId = id)) as [->|Hne].
           ++ rewrite lookup_insert_eq in Hold. inversion Hold; subst q.
              right. split; [by apply elem_of_cons; left|done].
           ++ rewrite lookup_insert_ne in Hold by done. by left.
        -- right. split; [by apply elem_of_cons; right|done].
Qed.

Lemma searchPostsInTeam_collect_Ok pchan o :
  merged o →
  Forall (λ r, ∃ data, r = Ok data ∧ PostList_wf data) pchan →
  ∃ o',
    app.searchPostsInTeam_collect pchan o = Ok o'
    ∧ merged o'
    ∧ (∀ id, id ∈ PostList.Order o'
             ↔ id ∈ PostList.Order o ∨ ∃ data, Ok data ∈ pchan ∧ id ∈ PostList.Order data)
    ∧ (∀ id p, PostList.Posts o' !! id = Some p →
               PostList.Posts o !! id = Some p
               ∨ ∃ data, Ok data ∈ pchan ∧ PostList.Posts data !! id = Some p).
Proof.
  intros Hmerged Hall. revert o Hmerged.
  induction Hall as [|r pchan (data & -> & Hwf) _ IH]; intros o Hmerged.
  - exists o. split; [done|]. split; [done|]. split; [|by left].
    intros id. split; [by left|]. intros [?|(data & Hin & _)]; [done|].
    by apply elem_of_nil in Hin.
  - simpl. destruct (Extend_loop_spec (PostList.Order data) data o Hmerged Hwf)
      as (Hm & Hord & Hposts).
    destruct (IH (PostList.Extend data o) Hm) as (o' & Hrun & Hm' & Hord' & Hposts').
    exists o'. split; [done|]. split; [done|]. split.
    + intros id. rewrite Hord'. unfold PostList.Extend. rewrite Hord. split.
      * intros [[?|?]|(data' & Hin & ?)]; [by left| |].
        -- right. exists data. split; [by apply elem_of_cons; left|done].
        -- right. exists data'. split; [by apply elem_of_cons; right|done].
      * intros [?|(data' & Hin & ?)]; [by left; left|].
        apply elem_of_cons in Hin as [Heq|Hin].
        -- inversion Heq; subst data'. by left; right.
        -- right. by exists data'.
    + intros id p Hp. destruct (Hposts' id p Hp) as [Hold|(data' & Hin & ?)].
      * destruct (Hposts id p Hold) as [?|[_ ?]]; [by left|].
        right. exists data. split; [by apply elem_of_cons; left|done].
      * right. exists data'. split; [by apply elem_of_cons; right|done].
Qed.

#[global] Instance before_total d o : Total (PostList.before d o).
Proof. intros x y. destruct d; unfold PostList.before; lia. Qed.

#[global] Instance before_transitive d o : Transitive (PostList.before d o).
Proof. intros x y z. destruct d; unfold PostList.before; lia. Qed.

(** The launch loop with a modifier that has no effect of its own: one store
    query per specification whose term is not the wildcard, in order. *)
Lemma searchPostsInTeam_launch_pure a teamId userId paramsList f w :
  app.searchPostsInTeam_launch a teamId userId paramsList (λ p, mret (f p)) w =
    (Returns (Store_Post_Search a teamId userId
                <$> (f <$> filter (λ p, SearchParams.Terms p ≠ "*") paramsList)),
     with_events (EvSearch teamId userId
                    <$> (f <$> filter (λ p, SearchParams.Terms p ≠ "*") paramsList)) w).
Proof.
  revert w. induction paramsList as [|params rest IH]; intros w.
  - simpl. unfold with_events. simpl. rewrite app_nil_r. by destruct w.
  - simpl. case_decide as Hterm.
    + rewrite filter_cons_False by (intros Hne; by apply Hne). apply IH.
    + rewrite filter_cons_True by done.
      erewrite bind_Returns by reflexivity. erewrite bind_Returns by reflexivity.
      erewrite bind_Returns by apply IH. simpl.
      unfold with_events. simpl. by rewrite <- (assoc_L (++)).
Qed.

(** The launch loop issues one store query per specification whose term is
    not the wildcard, on the specification as the modifier leaves it, and
    none for the others. *)
Lemma searchPostsInTeam_launch_queries a teamId userId paramsList modifierFun w results w1 :
  app.searchPostsInTeam_launch a teamId userId paramsList modifierFun w
    = (Returns results, w1) →
  ∃ queried,
    results = Store_Post_Search a teamId userId <$> queried
    ∧ Forall2 (λ params query, ∃ w0 w0', modifierFun params w0 = (Returns query, w0'))
        (filter (λ p, SearchParams.Terms p ≠ "*") paramsList) queried.
Proof.
  revert w results w1. induction paramsList as [|params rest IH]; intros w results w1 Hrun.
  - inversion Hrun. exists []. split; [done|constructor].
  - simpl in Hrun. case_decide as Hterm.
    + rewrite filter_cons_False by (intros Hne; by apply Hne). by eapply IH.
    + rewrite filter_cons_True by done.
      apply bind_inv in Hrun as [(query & w2 & Hmod & Hrun)|(reason & _ & ?)]; [|done].
      apply bind_inv in Hrun as [([] & w3 & _ & Hrun)|(reason & _ & ?)]; [|done].
      apply bind_inv in Hrun as [(results' & w4 & Hrest & Hrun)|(reason & _ & ?)]; [|done].
      inversion Hrun; subst. destruct (IH _ _ _ Hrest) as (queried & -> & Hall).
      exists (query :: queried). split; [done|]. constructor; [by eauto|done].
Qed.

(** C7.  For every list of search-term specifications and every order in
    which the launched store queries complete: one store query is issued per
    specification whose term is not the wildcard [*], and none for the
    others; if all these queries succeed (with post lists as the data model
    has them), [searchPostsInTeam] returns a post list whose order has no
    duplicate identifier, lists exactly the identifiers listed by the answers
    of the queries, each with a post found by one of them, and is sorted by
    creation time. *)
Theorem searchPostsInTeam_merge a dir schedule teamId userId paramsList modifierFun
    w results w1 :
  app.searchPostsInTeam_launch a teamId userId paramsList modifierFun w
    = (Returns results, w1) →
  schedule ≡ₚ seq 0 (length results) →
  (∀ r, r ∈ results → ∃ data, r = Ok data ∧ PostList_wf data) →
  ∃ posts queried,
    app.searchPostsInTeam a dir schedule teamId userId paramsList modifierFun w
      = (Returns (Ok posts), w1)
    ∧ NoDup (PostList.Order posts)
    ∧ (∀ id, id ∈ PostList.Order posts
             ↔ ∃ data, Ok data ∈ results ∧ id ∈ PostList.Order data)
    ∧ (∀ id, id ∈ PostList.Order posts →
             ∃ data p, Ok data ∈ results
                       ∧ PostList.Posts data !! id = Some p
                       ∧ PostList.Posts posts !! id = Some p)
    ∧ StronglySorted (PostList.before dir posts) (PostList.Order posts)
    ∧ results = Store_Post_Search a teamId userId <$> queried
    ∧ Forall2 (λ params query, ∃ w0 w0', modifierFun params w0 = (Returns query, w0'))
        (filter (λ p, SearchParams.Terms p ≠ "*") paramsList) queried.
Proof.
  intros Hlaunch Hsched Hall.
  pose proof (arrivals_Permutation schedule results Hsched) as Hperm.
  assert (Hall' : Forall (λ r, ∃ data, r = Ok data ∧ PostList_wf data)
                    (app.arrivals schedule results)).
  { apply Forall_forall. intros r Hr. apply Hall. by rewrite <- Hperm. }
  destruct (searchPostsInTeam_collect_Ok _ _ merged_NewPostList Hall')
    as (o & Hcollect & [Hnodup Hdom] & Hord & Hposts).
  destruct (searchPostsInTeam_launch_queries _ _ _ _ _ _ _ _ Hlaunch)
    as (queried & Hqueried & Hspecs).
  exists (PostList.SortByCreateAt dir o), queried.
  assert (Hsorted : PostList.Order (PostList.SortByCreateAt dir o) ≡ₚ PostList.Order o)
    by apply merge_sort_Permutation.
  split; [|split; [|split; [|split; [|split; [|split]]]]]; [| | | | |done|done].
  - unfold app.searchPostsInTeam. erewrite bind_Returns by exact Hlaunch.
    cbv beta zeta. by rewrite Hcollect.
  - by rewrite Hsorted.
  - intros id. rewrite Hsorted, Hord. simpl. split.
    + intros [Hin|(data & Hin & ?)]; [by apply elem_of_nil in Hin|].
      exists data. by rewrite <- Hperm.
    + intros (data & Hin & ?). right. exists data. by rewrite Hperm.
  - intros id Hin. rewrite Hsorted in Hin. apply Hdom in Hin as [p Hp].
    destruct (Hposts id p Hp) as [Hempty|(data & Hin & Hdata)].
    + simpl in Hempty. by rewrite lookup_empty in Hempty.
    + exists data, p. split; [by rewrite <- Hperm|]. split; [done|]. exact Hp.
  - apply (StronglySorted_merge_sort (PostList.before dir o)).
Qed.

Lemma searchPostsInTeam_merge_witness :
  app.searchPostsInTeam_launch Search.a "t1" "u1" Merge.paramsList Merge.modifierFun Search.w
    = (Returns Merge.results, Merge.w1)
  ∧ [1; 0] ≡ₚ seq 0 (length Merge.results)
  ∧ (∀ r, r ∈ Merge.results → ∃ data, r = Ok data ∧ PostList_wf data)
  ∧ ∃ posts queried,
      app.searchPostsInTeam Search.a PostList.NewestFirst [1; 0] "t1" "u1" Merge.paramsList
        Merge.modifierFun Search.w = (Returns (Ok posts), Merge.w1)
      ∧ NoDup (PostList.Order posts)
      ∧ (∀ id, id ∈ PostList.Order posts
               ↔ ∃ data, Ok data ∈ Merge.results ∧ id ∈ PostList.Order data)
      ∧ (∀ id, id ∈ PostList.Order posts →
               ∃ data p, Ok data ∈ Merge.results
                         ∧ PostList.Posts data !! id = Some p
                         ∧ PostList.Posts posts !! id = Some p)
      ∧ StronglySorted (PostList.before PostList.NewestFirst posts) (PostList.Order posts)
      ∧ Merge.results = Store_Post_Search Search.a "t1" "u1" <$> queried
      ∧ Forall2 (λ params query,
                   ∃ w0 w0', Merge.modifierFun params w0 = (Returns query, w0'))
          (filter (λ p, SearchParams.Terms p ≠ "*") Merge.paramsList) queried.
Proof.
  assert (H1 : app.searchPostsInTeam_launch Search.a "t1" "u1" Merge.paramsList
                 Merge.modifierFun Search.w = (Returns Merge.results, Merge.w1))
    by (vm_compute; reflexivity).
  assert (H2 : [1; 0] ≡ₚ seq 0 (length Merge.results)) by (simpl; apply Permutation_swap).
  assert (H3 : ∀ r, r ∈ Merge.results → ∃ data, r = Ok data ∧ PostList_wf data).
  { intros r Hr.
    apply elem_of_cons in Hr as [->|Hr]; [|apply elem_of_cons in Hr as [->|Hr]].
    - eexists. split; [vm_compute; reflexivity|]. intros id Hid. simpl in Hid.
      apply elem_of_cons in Hid as [->|Hid]; [by eexists|].
      apply elem_of_cons in Hid as [->|Hid]; [by eexists|]. by apply elem_of_nil in Hid.
    - eexists. split; [vm_compute; reflexivity|]. intros id Hid. simpl in Hid.
      apply elem_of_cons in Hid as [->|Hid]; [by eexists|].
      apply elem_of_cons in Hid as [->|Hid]; [by eexists|]. by apply elem_of_nil in Hid.
    - by apply elem_of_nil in Hr. }
  split; [exact H1|]. split; [exact H2|]. split; [exact H3|].
  exact (searchPostsInTeam_merge Search.a PostList.NewestFirst [1; 0] "t1" "u1"
           Merge.paramsList Merge.modifierFun Search.w Merge.results Merge.w1 H1 H2 H3).
Defined.

(** The merge of the answers [C; A] and [B; C], whichever query completes
    first: the posts [A], [B] and [C], each once, by creation time; the
    wildcard specification is not queried. *)
Example searchPostsInTeam_merge_example :
  ∀ schedule, schedule = [0; 1] ∨ schedule = [1; 0] →
    ∀ dir,
      app.searchPostsInTeam Search.a dir schedule "t1" "u1"
        [Search.params "alpha"; Search.params "*"; Search.params "beta"]
        (λ p, mret (Search.modifier p)) Search.w
      = (Returns (Ok (PostList.mk
                        (match dir with
                         | PostList.OldestFirst => ["A"; "B"; "C"]
                         | PostList.NewestFirst => ["C"; "B"; "A"]
                         end)
                        {[ "A" := Search.pA; "B" := Search.pB; "C" := Search.pC ]} "" "")),
         with_events [EvSearch "t1" "u1" (Search.modifier (Search.params "alpha"));
                      EvSearch "t1" "u1" (Search.modifier (Search.params "beta"))]
           Search.w).
Proof. intros schedule [-> | ->] []; vm_compute; reflexivity. Qed.

(** ** Search through the index *)

Lemma esSearchPostsInTeamForUser_posts_spec posts postList :
  PostList.Order (app.esSearchPostsInTeamForUser_posts posts postList)
    = PostList.Order postList ++ (Post.Id <$> filter (λ p, Post.DeleteAt p = 0%Z) posts)
  ∧ (∀ id p,
       PostList.Posts (app.esSearchPostsInTeamForUser_posts posts postList) !! id = Some p →
       PostList.Posts postList !! id = Some p
       ∨ (p ∈ posts ∧ Post.DeleteAt p = 0%Z ∧ Post.Id p = id))
  ∧ (∀ id,
       is_Some (PostList.Posts postList !! id)
       ∨ (∃ p, p ∈ posts ∧ Post.DeleteAt p = 0%Z ∧ Post.Id p = id) →
       is_Some (PostList.Posts (app.esSearchPostsInTeamForUser_posts posts postList) !! id)).
Proof.
  revert postList. induction posts as [|p posts IH]; intros postList; simpl.
  - split; [by rewrite app_nil_r|]. split; [by left|].
    intros id [?|(p & Hin & _)]; [done|]. by apply elem_of_nil in Hin.
  - case_decide as Hlive.
    + destruct (IH (PostList.AddOrder (Post.Id p) (PostList.AddPost p postList)))
        as (Hord & Hposts & Hdom).
      rewrite filter_cons_True by done. split; [|split].
      * rewrite Hord. simpl. by rewrite <- (assoc_L (++)).
      * intros id q Hq. destruct (Hposts id q Hq) as [Hold|(Hin & ? & ?)].
        -- simpl in Hold. destruct (decide (Post.Id p = id)) as [<-|Hne].
           ++ rewrite lookup_insert_eq in Hold. inversion Hold; subst q.
              right. split; [by apply elem_of_cons; left|done].
           ++ rewrite lookup_insert_ne in Hold by done. by left.
        -- right. split; [by apply elem_of_cons; right|done].
      * intros id Hid. apply Hdom. simpl. rewrite lookup_insert_is_Some.
        destruct (decide (Post.Id p = id)) as [?|Hne]; [by left; left|].
        destruct Hid as [?|(q & Hin & ? & ?)]; [by left; right|].
        apply elem_of_cons in Hin as [->|Hin]; [done|]. right. by exists q.
    + destruct (IH postList) as (Hord & Hposts & Hdom).
      rewrite filter_cons_False by done. split; [done|]. split.
      * intros id q Hq. destruct (Hposts id q Hq) as [?|(Hin & ? & ?)]; [by left|].
        right. split; [by apply elem_of_cons; right|done].
      * intros id Hid. apply Hdom. destruct Hid as [?|(q & Hin & ? & ?)]; [by left|].
        apply elem_of_cons in Hin as [->|Hin]; [done|]. right. by exists q.
Qed.

(** A successful search through the index returns the posts that the store
    has for the identifiers found by the index, less the deleted ones. *)
Lemma esSearchPostsInTeamForUser_inv a paramsList userId teamId isOrSearch
    includeDeletedChannels page perPage w results w' :
  app.esSearchPostsInTeamForUser a paramsList userId teamId isOrSearch
    includeDeletedChannels page perPage w = (Returns (Ok results), w') →
  ∃ posts matches,
    results = MakePostSearchResults
                (app.esSearchPostsInTeamForUser_posts posts PostList.NewPostList) matches
    ∧ (posts = [] ∨ ∃ postIds, Store_Post_GetPostsByIds a postIds = Ok posts).
Proof.
  unfold app.esSearchPostsInTeamForUser. intros Hrun.
  apply bind_inv in Hrun as [(finalParamsList & w1 & _ & Hrun)|(reason & _ & ?)]; [|done].
  case_bool_decide.
  { inversion Hrun. exists [], None. split; [done|by left]. }
  destruct (GetChannelsForUser a _ _ _) as [userChannels|err].
  - destruct (Elasticsearch_SearchPosts a _ _ _ _) as [[postIds matches]|err];
      [|by inversion Hrun].
    case_bool_decide.
    + destruct (Store_Post_GetPostsByIds a postIds) as [posts|err] eqn:Hget;
        [|by inversion Hrun].
      inversion Hrun. exists posts, matches. split; [done|]. right. by exists postIds.
    + inversion Hrun. exists [], matches. split; [done|by left].
  - apply bind_inv in Hrun as [(? & ? & _ & Hrun)|(reason & _ & ?)]; [|done].
    by inversion Hrun.
Qed.

(** C10.  For every search through the index that succeeds: every post of the
    returned list has a deletion timestamp of 0, and every identifier of its
    order has such a post in the map; the order lists the identifiers of the
    posts that the store returned for the identifiers found by the index,
    less the soft-deleted ones, and the map holds none of the soft-deleted
    posts. *)
Theorem esSearchPostsInTeamForUser_live a paramsList userId teamId isOrSearch
    includeDeletedChannels page perPage w results w' :
  app.esSearchPostsInTeamForUser a paramsList userId teamId isOrSearch
    includeDeletedChannels page perPage w = (Returns (Ok results), w') →
  ∃ posts,
    (posts = [] ∨ ∃ postIds, Store_Post_GetPostsByIds a postIds = Ok posts)
    ∧ PostList.Order (PostSearchResults.PostList results)
        = Post.Id <$> filter (λ p, Post.DeleteAt p = 0%Z) posts
    ∧ (∀ id p, PostList.Posts (PostSearchResults.PostList results) !! id = Some p →
               p ∈ posts ∧ Post.DeleteAt p = 0%Z ∧ Post.Id p = id)
    ∧ (∀ id, id ∈ PostList.Order (PostSearchResults.PostList results) →
             ∃ p, PostList.Posts (PostSearchResults.PostList results) !! id = Some p
                  ∧ Post.DeleteAt p = 0%Z).
Proof.
  intros Hrun.
  destruct (esSearchPostsInTeamForUser_inv _ _ _ _ _ _ _ _ _ _ _ Hrun)
    as (posts & matches & -> & Hposts).
  destruct (esSearchPostsInTeamForUser_posts_spec posts PostList.NewPostList)
    as (Hord & Hmap & Hdom).
  exists posts. split; [done|]. simpl. split; [|split].
  - by rewrite Hord.
  - intros id p Hp. destruct (Hmap id p Hp) as [Hempty|?]; [|done].
    simpl in Hempty. by rewrite lookup_empty in Hempty.
  - intros id Hid. rewrite Hord in Hid. simpl in Hid.
    apply list_elem_of_fmap in Hid as (q & -> & Hq).
    apply list_elem_of_filter in Hq as [Hlive Hq].
    destruct (Hdom (Post.Id q)) as [p Hp]; [right; by exists q|].
    exists p. split; [done|].
    destruct (Hmap _ p Hp) as [Hempty|(_ & ? & _)]; [|done].
    simpl in Hempty. by rewrite lookup_empty in Hempty.
Qed.

Lemma esSearchPostsInTeamForUser_live_witness :
  app.esSearchPostsInTeamForUser Index.a [Search.params "hello"] "u1" "t1" false false 0 10
    Index.w = (Returns (Ok Index.results), Index.w)
  ∧ ∃ posts,
      (posts = [] ∨ ∃ postIds, Store_Post_GetPostsByIds Index.a postIds = Ok posts)
      ∧ PostList.Order (PostSearchResults.PostList Index.results)
          = Post.Id <$> filter (λ p, Post.DeleteAt p = 0%Z) posts
      ∧ (∀ id p,
           PostList.Posts (PostSearchResults.PostList Index.results) !! id = Some p →
           p ∈ posts ∧ Post.DeleteAt p = 0%Z ∧ Post.Id p = id)
      ∧ (∀ id, id ∈ PostList.Order (PostSearchResults.PostList Index.results) →
               ∃ p, PostList.Posts (PostSearchResults.PostList Index.results) !! id = Some p
                    ∧ Post.DeleteAt p = 0%Z).
Proof.
  assert (H1 : app.esSearchPostsInTeamForUser Index.a [Search.params "hello"] "u1" "t1"
                 false false 0 10 Index.w = (Returns (Ok Index.results), Index.w))
    by (vm_compute; reflexivity).
  split; [exact H1|].
  exact (esSearchPostsInTeamForUser_live Index.a [Search.params "hello"] "u1" "t1" false
           false 0 10 Index.w Index.results Index.w H1).
Defined.

(** * Further properties of the code *)

Lemma attach_events_cons a post fileId rest :
  attach_events a post (fileId :: rest) =
    [EvAttachToPost fileId (Post.Id post) (Post.UserId post)]
    ++ (if decide (attaches a post fileId) then []
        else [EvLog LWarn "Failed to attach file to post"])
    ++ attach_events a post rest.
Proof. reflexivity. Qed.

Lemma with_events_nil w : with_events [] w = w.
Proof. unfold with_events. rewrite app_nil_r. by destruct w. Qed.

Lemma with_events_app evs1 evs2 w :
  with_events evs2 (with_events evs1 w) = with_events (evs1 ++ evs2) w.
Proof. unfold with_events. simpl. by rewrite (assoc_L (++)). Qed.

Lemma attachFilesToPost_loop_run a post fileIds attachedIds w :
  app.attachFilesToPost_loop a post fileIds attachedIds w =
    (Returns (attachedIds ++ filter (attaches a post) fileIds),
     with_events (attach_events a post fileIds) w).
Proof.
  revert attachedIds w. induction fileIds as [|fileId rest IH]; intros attachedIds w.
  - simpl. by rewrite app_nil_r, with_events_nil.
  - simpl. erewrite bind_Returns by reflexivity.
    rewrite attach_events_cons.
    destruct (Store_FileInfo_AttachToPost a fileId _ _) as [err|] eqn:Hattach.
    + erewrite bind_Returns by reflexivity. rewrite IH.
      rewrite filter_cons_False by (unfold attaches; congruence).
      rewrite decide_False by (unfold attaches; congruence).
      f_equal. unfold with_events. simpl. by rewrite <- !(assoc_L (++)).
    + rewrite IH. rewrite filter_cons_True by done.
      rewrite decide_True by done.
      rewrite <- (assoc_L (++)). f_equal.
      unfold with_events. simpl. by rewrite <- !(assoc_L (++)).
Qed.

Lemma filter_length_all {A} (P : A → Prop) `{∀ x, Decision (P x)} (l : list A) :
  length (filter P l) = length l ↔ Forall P l.
Proof.
  induction l as [|x l IH]; [by split|].
  destruct (decide (P x)).
  - rewrite filter_cons_True by done. simpl. rewrite Forall_cons. split.
    + intros Hlen. split; [done|]. apply IH. lia.
    + intros [_ Hall]. f_equal. by apply IH.
  - rewrite filter_cons_False by done. simpl. split.
    + intros Hlen. pose proof (length_filter P l). lia.
    + intros Hall. by apply Forall_cons in Hall as [? _].
Qed.

Lemma set_FileIds_same post : Post.set_FileIds (Post.FileIds post) post = post.
Proof. by destruct post. Qed.

Lemma store_writes_app evs1 evs2 :
  store_writes (evs1 ++ evs2) = store_writes evs1 ++ store_writes evs2.
Proof. unfold store_writes. by rewrite filter_app. Qed.

Lemma store_writes_attach_events a post fileIds :
  store_writes (attach_events a post fileIds) = [].
Proof.
  induction fileIds as [|fileId rest IH]; [done|].
  rewrite attach_events_cons, !store_writes_app, IH.
  case_decide; reflexivity.
Qed.

Lemma attach_events_attempts a post fileIds :
  filter (λ ev, is_attach ev = true) (attach_events a post fileIds)
  = (λ fileId, EvAttachToPost fileId (Post.Id post) (Post.UserId post)) <$> fileIds.
Proof.
  induction fileIds as [|fileId rest IH]; [done|].
  rewrite attach_events_cons, !filter_app, IH. simpl. f_equal.
  case_decide; reflexivity.
Qed.

Lemma attachFilesToPost_run a post w :
  let attachedIds := filter (attaches a post) (Post.FileIds post) in
  let post' := Post.set_FileIds attachedIds post in
  app.attachFilesToPost a post w =
    if decide (Forall (attaches a post) (Post.FileIds post)) then
      (Returns (post, None), with_events (attach_events a post (Post.FileIds post)) w)
    else
      (Returns (post', match Store_Post_Overwrite a post' with
                       | Err err => Some err
                       | Ok _ => None
                       end),
       with_events (attach_events a post (Post.FileIds post)
                    ++ [EvPostOverwrite post' (Store_Post_Overwrite a post')]) w).
Proof.
  intros attachedIds post'. unfold app.attachFilesToPost.
  erewrite bind_Returns by apply attachFilesToPost_loop_run. simpl.
  fold attachedIds. case_bool_decide as Hlen.
  - rewrite decide_False.
    2:{ intros Hall. apply Hlen. symmetry. by apply filter_length_all. }
    fold post'. erewrite bind_Returns by reflexivity.
    rewrite <- with_events_app. by destruct (Store_Post_Overwrite a post').
  - rewrite decide_True; [done|].
    apply (filter_length_all (attaches a post)). symmetry. exact Hlen.
Qed.

(** X1.  [attachFilesToPost] always returns.  The attachment of every file of
    the post is attempted once, in order, and the post it leaves is the post
    it was given with, as its files, those whose attachment the file store
    accepted, in their order.  It writes to the post store only when a file
    failed to attach: it then overwrites the post once, with the shortened
    file list, and returns the error of that write, if any.  When every file
    attaches, the post is left as it is, nothing is written to the post store
    and no error is returned. *)
Theorem attachFilesToPost_outcome a post w :
  let post' := Post.set_FileIds (filter (attaches a post) (Post.FileIds post)) post in
  ∃ err evs,
    app.attachFilesToPost a post w = (Returns (post', err), with_events evs w)
    ∧ filter (λ ev, is_attach ev = true) evs
      = (λ fileId, EvAttachToPost fileId (Post.Id post) (Post.UserId post))
          <$> Post.FileIds post
    ∧ if decide (Forall (attaches a post) (Post.FileIds post)) then
        post' = post ∧ err = None ∧ store_writes evs = []
      else
        err = match Store_Post_Overwrite a post' with
              | Err err => Some err
              | Ok _ => None
              end
        ∧ store_writes evs = [EvPostOverwrite post' (Store_Post_Overwrite a post')].
Proof.
  cbv zeta. rewrite attachFilesToPost_run. case_decide as Hall.
  - assert (Hsame : filter (attaches a post) (Post.FileIds post) = Post.FileIds post).
    { clear w. induction Hall as [|f l Hf Hall IH]; [done|].
      rewrite filter_cons_True by done. by f_equal. }
    rewrite Hsame, set_FileIds_same.
    eexists _, _. split; [reflexivity|]. split; [apply attach_events_attempts|].
    split; [done|]. split; [done|]. apply store_writes_attach_events.
  - eexists _, _. split; [reflexivity|]. split.
    + rewrite filter_app, attach_events_attempts. simpl. by rewrite app_nil_r.
    + split; [done|]. by rewrite store_writes_app, store_writes_attach_events.
Qed.

(** Membership in a list that is written out. *)
Ltac in_list := repeat first [apply list_elem_of_here | apply list_elem_of_further].
Ltac not_in_list H :=
  repeat (apply elem_of_cons in H as [H|H]; [discriminate H|]);
  by apply elem_of_nil in H.

Lemma emit_run ev w : emit ev w = (Returns tt, with_events [ev] w).
Proof. reflexivity. Qed.

Lemma ret_run {A} (x : A) w : (mret x : M A) w = (Returns x, w).
Proof. reflexivity. Qed.

Lemma open_mentions_spec_gen (l : list Channel.t) (m0 : gmap string string) name d :
  foldl (λ prop mentioned,
           if decide (Channel.Type_ mentioned = CHANNEL_OPEN)
           then <[Channel.Name mentioned := Channel.DisplayName mentioned]> prop
           else prop) m0 l !! name = Some d →
  m0 !! name = Some d
  ∨ ∃ ch, ch ∈ l ∧ Channel.Type_ ch = CHANNEL_OPEN ∧ Channel.Name ch = name
          ∧ Channel.DisplayName ch = d.
Proof.
  revert m0. induction l as [|c l IH]; intros m0; simpl; [auto|].
  intros Hm. apply IH in Hm as [Hm|(ch & Hin & H)].
  - case_decide as Hopen; [|auto].
    destruct (decide (Channel.Name c = name)) as [Hn|Hn].
    + rewrite Hn, lookup_insert_eq in Hm. inversion Hm. right. exists c.
      split; [left|done].
    + rewrite lookup_insert_ne in Hm by done. auto.
  - right. exists ch. split; [by right|done].
Qed.

Lemma open_mentions_complete_gen (l : list Channel.t) (m0 : gmap string string) name :
  (is_Some (m0 !! name)
   ∨ ∃ ch, ch ∈ l ∧ Channel.Type_ ch = CHANNEL_OPEN ∧ Channel.Name ch = name) →
  is_Some (foldl (λ prop mentioned,
           if decide (Channel.Type_ mentioned = CHANNEL_OPEN)
           then <[Channel.Name mentioned := Channel.DisplayName mentioned]> prop
           else prop) m0 l !! name).
Proof.
  revert m0. induction l as [|c l IH]; intros m0; simpl.
  - intros [?|(ch & Hin & _)]; [done|by apply elem_of_nil in Hin].
  - intros [Hm|(ch & Hin & Hopen & Hname)]; apply IH.
    + left. case_decide; [|done]. apply lookup_insert_is_Some. 
      destruct (decide (Channel.Name c = name)); auto.
    + apply elem_of_cons in Hin as [->|Hin].
      * left. rewrite decide_True by done. rewrite Hname, lookup_insert_eq. by eexists.
      * right. by exists ch.
Qed.

(** X2.  When the message of a post mentions channels and the server finds
    [mentionedChannels] for these names in the team of the channel,
    [FillInPostProps] succeeds, and the property [channel_mentions] lists the
    names of the open channels among them and no other name, each with the
    display name of such a channel; the property is absent exactly when none
    of the channels found is open. *)
Theorem FillInPostProps_open_channels a post channel mentionedChannels :
  ChannelMentions a post ≠ [] →
  GetChannelsByNames a (ChannelMentions a post) (Channel.TeamId channel)
    = Ok mentionedChannels →
  ∃ post',
    app.FillInPostProps a post (Some channel) = Ok post'
    ∧ (∀ name, is_Some (mentions_of post' !! name)
               ↔ ∃ ch, ch ∈ mentionedChannels ∧ Channel.Type_ ch = CHANNEL_OPEN
                       ∧ Channel.Name ch = name)
    ∧ (∀ name displayName, mentions_of post' !! name = Some displayName →
         ∃ ch, ch ∈ mentionedChannels ∧ Channel.Type_ ch = CHANNEL_OPEN
               ∧ Channel.Name ch = name ∧ Channel.DisplayName ch = displayName)
    ∧ (Post.prop post' "channel_mentions" = None
       ↔ ∀ ch, ch ∈ mentionedChannels → Channel.Type_ ch ≠ CHANNEL_OPEN).
Proof.
  intros Hmentions Hget. unfold app.FillInPostProps.
  rewrite bool_decide_eq_true_2 by (destruct (ChannelMentions a post); simpl; [done|lia]).
  rewrite Hget. fold (open_mentions mentionedChannels).
  assert (Hsound : ∀ name d, open_mentions mentionedChannels !! name = Some d →
            ∃ ch, ch ∈ mentionedChannels ∧ Channel.Type_ ch = CHANNEL_OPEN
                  ∧ Channel.Name ch = name ∧ Channel.DisplayName ch = d).
  { intros name d Hm. apply open_mentions_spec_gen in Hm as [Hm|Hm]; [done|exact Hm]. }
  assert (Hcomplete : ∀ name,
            (∃ ch, ch ∈ mentionedChannels ∧ Channel.Type_ ch = CHANNEL_OPEN
                   ∧ Channel.Name ch = name) →
            is_Some (open_mentions mentionedChannels !! name)).
  { intros name H. apply open_mentions_complete_gen. by right. }
  case_bool_decide as Hsize.
  - eexists. split; [reflexivity|].
    assert (Hm : mentions_of (Post.AddProp "channel_mentions"
                                (PVMentions (open_mentions mentionedChannels)) post)
                 = open_mentions mentionedChannels).
    { unfold mentions_of, Post.prop. simpl. by rewrite lookup_insert_eq. }
    rewrite Hm. split; [|split].
    + intros name. split; [|apply Hcomplete].
      intros [d Hd]. destruct (Hsound _ _ Hd) as (ch & ? & ? & ? & _). by exists ch.
    + exact Hsound.
    + unfold Post.prop. simpl. rewrite lookup_insert_eq. split; [done|].
      intros Hnone. exfalso.
      destruct (map_choose_or_empty (open_mentions mentionedChannels))
        as [(name & d & Hd)|Hempty].
      * destruct (Hsound _ _ Hd) as (ch & Hin & Hopen & _). by apply (Hnone ch).
      * rewrite Hempty, map_size_empty in Hsize. lia.
  - assert (Hempty : open_mentions mentionedChannels = ∅).
    { apply map_size_empty_iff. lia. }
    assert (Hnone : ∀ ch, ch ∈ mentionedChannels → Channel.Type_ ch ≠ CHANNEL_OPEN).
    { intros ch Hin Hopen.
      destruct (Hcomplete (Channel.Name ch)) as [d Hd]; [by exists ch|].
      by rewrite Hempty, lookup_empty in Hd. }
    assert (Hprop : ∀ post', Post.prop post' "channel_mentions" = None →
              mentions_of post' = ∅).
    { intros post' H. unfold mentions_of. by rewrite H. }
    assert (Hfinal : ∀ post', Post.prop post' "channel_mentions" = None →
      (∀ name, is_Some (mentions_of post' !! name)
               ↔ ∃ ch, ch ∈ mentionedChannels ∧ Channel.Type_ ch = CHANNEL_OPEN
                       ∧ Channel.Name ch = name)
      ∧ (∀ name displayName, mentions_of post' !! name = Some displayName →
         ∃ ch, ch ∈ mentionedChannels ∧ Channel.Type_ ch = CHANNEL_OPEN
               ∧ Channel.Name ch = name ∧ Channel.DisplayName ch = displayName)
      ∧ (Post.prop post' "channel_mentions" = None
         ↔ ∀ ch, ch ∈ mentionedChannels → Channel.Type_ ch ≠ CHANNEL_OPEN)).
    { intros post' H. rewrite (Hprop _ H). split; [|split].
      - intros name. rewrite lookup_empty. split; [by intros [? ?]|].
        intros (ch & Hin & Hopen & _). by destruct (Hnone ch).
      - intros name d. by rewrite lookup_empty.
      - done. }
    case_bool_decide as Hprops.
    + eexists. split; [reflexivity|]. apply Hfinal.
      unfold Post.prop. simpl. destruct (Post.Props post); [|done]. simpl.
      apply lookup_delete_eq.
    + eexists. split; [reflexivity|]. apply Hfinal.
      unfold Post.prop. destruct (Post.Props post); [|done].
      first [congruence | by destruct Hprops].
Qed.

Lemma FillInPostProps_open_channels_witness :
  ChannelMentions Mentions.a Mentions.post ≠ []
  ∧ GetChannelsByNames Mentions.a (ChannelMentions Mentions.a Mentions.post)
      (Channel.TeamId Fixture.town) = Ok [Fixture.town; Mentions.secret]
  ∧ ∃ post',
      app.FillInPostProps Mentions.a Mentions.post (Some Fixture.town) = Ok post'
      ∧ (∀ name, is_Some (mentions_of post' !! name)
                 ↔ ∃ ch, ch ∈ [Fixture.town; Mentions.secret]
                         ∧ Channel.Type_ ch = CHANNEL_OPEN ∧ Channel.Name ch = name)
      ∧ (∀ name displayName, mentions_of post' !! name = Some displayName →
           ∃ ch, ch ∈ [Fixture.town; Mentions.secret] ∧ Channel.Type_ ch = CHANNEL_OPEN
                 ∧ Channel.Name ch = name ∧ Channel.DisplayName ch = displayName)
      ∧ (Post.prop post' "channel_mentions" = None
         ↔ ∀ ch, ch ∈ [Fixture.town; Mentions.secret] → Channel.Type_ ch ≠ CHANNEL_OPEN).
Proof.
  assert (H1 : ChannelMentions Mentions.a Mentions.post ≠ []) by (vm_compute; discriminate).
  assert (H2 : GetChannelsByNames Mentions.a (ChannelMentions Mentions.a Mentions.post)
                 (Channel.TeamId Fixture.town) = Ok [Fixture.town; Mentions.secret])
    by reflexivity.
  split; [exact H1|]. split; [exact H2|].
  exact (FillInPostProps_open_channels Mentions.a Mentions.post Fixture.town
           [Fixture.town; Mentions.secret] H1 H2).
Defined.

Lemma DelProp_idemp key post : Post.DelProp key (Post.DelProp key post) = Post.DelProp key post.
Proof.
  unfold Post.DelProp, Post.set_Props. simpl. f_equal.
  destruct (Post.Props post); [|done]. simpl. f_equal. apply delete_delete_eq.
Qed.

Lemma AddProp_idemp key value post :
  Post.AddProp key value (Post.AddProp key value post) = Post.AddProp key value post.
Proof.
  unfold Post.AddProp, Post.set_Props. simpl. f_equal. f_equal. apply insert_insert_eq.
Qed.

(** X3.  [FillInPostProps] changes nothing of a post but the key
    [channel_mentions] of its property map, and it is idempotent: applied to
    the post it has produced (whose message mentions the same channels), it
    returns that post again. *)
Theorem FillInPostProps_idempotent a post channel post' :
  app.FillInPostProps a post channel = Ok post' →
  ChannelMentions a post' = ChannelMentions a post →
  app.FillInPostProps a post' channel = Ok post'
  ∧ post' = Post.set_Props (Post.Props post') post
  ∧ ∀ key, key ≠ "channel_mentions" → Post.prop post' key = Post.prop post key.
Proof.
  intros Hrun Hsame. split; [|by apply (FillInPostProps_frame a post channel)].
  assert (Hid : Post.Id post' = Post.Id post).
  { apply FillInPostProps_frame in Hrun as [-> _]. done. }
  revert Hrun. unfold app.FillInPostProps. rewrite Hsame, Hid.
  destruct (if bool_decide _ then _ else _) as [prop|err]; [|done].
  case_bool_decide.
  - intros Hrun; inversion Hrun; subst. by rewrite AddProp_idemp.
  - case_bool_decide as Hprops; intros Hrun; inversion Hrun; subst.
    + rewrite bool_decide_eq_true_2; [by rewrite DelProp_idemp|].
      simpl. by destruct (Post.Props post).
    + rewrite bool_decide_eq_false_2; [done|]. intros Hne. by apply Hne.
Qed.

Lemma FillInPostProps_idempotent_witness :
  app.FillInPostProps Mentions.a Mentions.post (Some Fixture.town) = Ok Mentions.filled
  ∧ ChannelMentions Mentions.a Mentions.filled = ChannelMentions Mentions.a Mentions.post
  ∧ app.FillInPostProps Mentions.a Mentions.filled (Some Fixture.town) = Ok Mentions.filled
  ∧ Mentions.filled = Post.set_Props (Post.Props Mentions.filled) Mentions.post
  ∧ ∀ key, key ≠ "channel_mentions" →
           Post.prop Mentions.filled key = Post.prop Mentions.post key.
Proof.
  assert (H1 : app.FillInPostProps Mentions.a Mentions.post (Some Fixture.town)
               = Ok Mentions.filled) by (vm_compute; reflexivity).
  assert (H2 : ChannelMentions Mentions.a Mentions.filled
               = ChannelMentions Mentions.a Mentions.post) by reflexivity.
  split; [exact H1|]. split; [exact H2|].
  exact (FillInPostProps_idempotent Mentions.a Mentions.post (Some Fixture.town)
           Mentions.filled H1 H2).
Defined.

(** X4.  [handlePostEvents] launches background tasks only when it returns
    no error, that is, after the caches of the channel have been invalidated
    and the notifications have been sent without error; it then always
    launches the auto-response task, and it launches the webhook task exactly
    when [triggerWebhooks] is set.  When the team of the channel cannot be
    loaded, it has no effect at all. *)
Theorem handlePostEvents_tasks a post user channel triggerWebhooks parentPostList w :
  ∃ err evs,
    app.handlePostEvents a post user channel triggerWebhooks parentPostList w
      = (Returns err, with_events evs w)
    ∧ (∀ task, EvGo task ∈ evs → err = None)
    ∧ (err = None →
       EvGo (TaskSendAutoResponse channel user) ∈ evs
       ∧ EvSendNotifications post ∈ evs
       ∧ EvInvalidateCacheForChannel (Channel.Id channel) ∈ evs
       ∧ EvInvalidateCacheForChannelPosts (Channel.Id channel) ∈ evs)
    ∧ ((∃ p team c u, EvGo (TaskWebhookEvents p team c u) ∈ evs)
       ↔ err = None ∧ triggerWebhooks = true)
    ∧ (isErr (Store_Team_Get a (Channel.TeamId channel)) = true →
       Channel.TeamId channel ≠ "" → evs = [] ∧ err ≠ None).
Proof.
  unfold app.handlePostEvents.
  assert (Hlen : Channel.TeamId channel ≠ "" → 0 < String.length (Channel.TeamId channel)).
  { destruct (Channel.TeamId channel); [done|simpl; lia]. }
  destruct (if bool_decide _ then _ else _) as [team|e] eqn:Hteam.
  - assert (Hok : isErr (Store_Team_Get a (Channel.TeamId channel)) = true →
                  Channel.TeamId channel ≠ "" → False).
    { intros Hfail Hne. rewrite bool_decide_eq_true_2 in Hteam by auto.
      by rewrite Hteam in Hfail. }
    do 3 (erewrite bind_Returns by apply emit_run).
    destruct (SendNotifications a post team channel user parentPostList) as [e|].
    + rewrite ret_run, !with_events_app. eexists _, _. split; [reflexivity|].
      split; [|split; [done|split]].
      * intros task Hin. simpl in Hin. not_in_list Hin.
      * split; [|by intros [? _]]. intros (p & t & c & u & Hin). simpl in Hin.
        not_in_list Hin.
      * intros Hfail Hne. by destruct Hok.
    + erewrite bind_Returns by apply emit_run. destruct triggerWebhooks; simpl.
      * erewrite bind_Returns by apply emit_run.
        rewrite ret_run, !with_events_app. eexists _, _. split; [reflexivity|].
        split; [done|]. split; [intros _; simpl; repeat split; in_list|]. split.
        -- split; [done|]. intros _. eexists _, _, _, _. simpl. in_list.
        -- intros Hfail Hne. by destruct Hok.
      * erewrite bind_Returns by reflexivity.
        rewrite ret_run, !with_events_app. eexists _, _. split; [reflexivity|].
        split; [done|]. split; [intros _; simpl; repeat split; in_list|]. split.
        -- split; [|by intros [_ ?]]. intros (p & t & c & u & Hin). simpl in Hin.
           not_in_list Hin.
        -- intros Hfail Hne. by destruct Hok.
  - exists (Some (ErrorString a e)), []. rewrite with_events_nil.
    split; [reflexivity|]. split; [intros task Hin; by apply elem_of_nil in Hin|].
    split; [done|]. split; [|done].
    split; [|by intros [? _]]. intros (p & t & c & u & Hin). by apply elem_of_nil in Hin.
Qed.

Lemma convertChannelNamesToChannelIds_run a channels userId teamId includeDeleted w :
  app.convertChannelNamesToChannelIds a channels userId teamId includeDeleted w =
    (Returns (resolved_channel a userId teamId includeDeleted <$> channels),
     with_events
       (replicate (length (filter (unresolved_channel a userId teamId includeDeleted)
                             channels))
          (EvLog LError "error getting channel id by name from in filter")) w).
Proof.
  revert w. induction channels as [|channelName rest IH]; intros w.
  - simpl. by rewrite with_events_nil.
  - simpl. unfold resolved_channel at 1.
    destruct (app.parseAndFetchChannelIdByNameFromInFilter a channelName userId teamId
                includeDeleted) as [channel|err] eqn:Hparse.
    + erewrite bind_Returns by apply IH.
      rewrite filter_cons_False by (unfold unresolved_channel; by rewrite Hparse).
      reflexivity.
    + erewrite bind_Returns by reflexivity. erewrite bind_Returns by apply IH.
      rewrite filter_cons_True by (unfold unresolved_channel; by rewrite Hparse).
      simpl. unfold with_events. simpl. by rewrite <- (assoc_L (++)).
Qed.

Lemma convertUserNameToUserIds_run a usernames w :
  app.convertUserNameToUserIds a usernames w =
    (Returns (resolved_user a <$> usernames),
     with_events
       (replicate (length (filter (λ username, isErr (GetUserByUsername a username) = true)
                             usernames))
          (EvLog LError "error getting user by username")) w).
Proof.
  revert w. induction usernames as [|username rest IH]; intros w.
  - simpl. by rewrite with_events_nil.
  - simpl. unfold resolved_user at 1.
    destruct (GetUserByUsername a username) as [user|err] eqn:Hget.
    + erewrite bind_Returns by apply IH.
      rewrite filter_cons_False by (by rewrite Hget). reflexivity.
    + erewrite bind_Returns by reflexivity. erewrite bind_Returns by apply IH.
      rewrite filter_cons_True by (by rewrite Hget).
      simpl. unfold with_events. simpl. by rewrite <- (assoc_L (++)).
Qed.

Lemma emits_ret {A} P (Q : A → Prop) (x : A) : Q x → emits P Q (mret x).
Proof. intros HQ w. exists x, []. by rewrite with_events_nil. Qed.

Lemma emits_bind {A B} P (Q1 : A → Prop) (Q2 : B → Prop) (m : M A) (k : A → M B) :
  emits P Q1 m → (∀ x, Q1 x → emits P Q2 (k x)) → emits P Q2 (m ≫= k).
Proof.
  intros Hm Hk w. destruct (Hm w) as (x & evs1 & Hrun & HQ & HP1).
  destruct (Hk x HQ (with_events evs1 w)) as (y & evs2 & Hrun2 & HQ2 & HP2).
  exists y, (evs1 ++ evs2). split; [|split; [done|by apply Forall_app]].
  erewrite bind_Returns by exact Hrun. by rewrite Hrun2, with_events_app.
Qed.

Lemma emits_emit (P : Event → Prop) ev : P ev → emits P (λ _, True) (emit ev).
Proof. intros HP w. exists tt, [ev]. repeat split; auto. Qed.

Lemma emits_when (P : Event → Prop) b m :
  emits P (λ _, True) m → emits P (λ _, True) (when b m).
Proof. destruct b; [done|]. intros _. by apply emits_ret. Qed.

Lemma emits_then {A B} P (Q : B → Prop) (m : M A) (k : M B) :
  emits P (λ _, True) m → emits P Q k → emits P Q (m ≫= λ _, k).
Proof. intros Hm Hk. eapply emits_bind; [exact Hm|]. intros _ _. exact Hk. Qed.

Lemma emits_attachFilesToPost_loop a post fileIds attachedIds :
  emits (λ ev, is_save ev = false) (λ _, True)
    (app.attachFilesToPost_loop a post fileIds attachedIds).
Proof.
  revert attachedIds. induction fileIds as [|fileId rest IH]; intros attachedIds; simpl.
  - by apply emits_ret.
  - apply emits_then; [by apply emits_emit|].
    destruct (Store_FileInfo_AttachToPost a fileId _ _); [|apply IH].
    apply emits_then; [by apply emits_emit|]. apply IH.
Qed.

Lemma emits_attachFilesToPost a post :
  emits (λ ev, is_save ev = false)
    (λ r, Post.PendingPostId r.1 = Post.PendingPostId post)
    (app.attachFilesToPost a post).
Proof.
  unfold app.attachFilesToPost.
  eapply emits_bind; [apply emits_attachFilesToPost_loop|]. intros attachedIds _.
  case_bool_decide; [|by apply emits_ret].
  apply emits_then; [by apply emits_emit|].
  destruct (Store_Post_Overwrite a _); by apply emits_ret.
Qed.

Lemma emits_handlePostEvents a post user channel triggerWebhooks parentPostList :
  emits (λ ev, is_save ev = false) (λ _, True)
    (app.handlePostEvents a post user channel triggerWebhooks parentPostList).
Proof.
  unfold app.handlePostEvents.
  destruct (if bool_decide _ then _ else _); [|by apply emits_ret].
  repeat (apply emits_then; [by apply emits_emit|]).
  destruct (SendNotifications a _ _ _ _ _); [by apply emits_ret|].
  apply emits_then; [by apply emits_emit|].
  apply emits_then; [by apply emits_when, emits_emit|]. by apply emits_ret.
Qed.

Lemma emits_CreatePost_convertAttachments a post :
  emits (λ ev, is_log ev = true)
    (λ post', Post.PendingPostId post' = Post.PendingPostId post)
    (app.CreatePost_convertAttachments a post).
Proof.
  unfold app.CreatePost_convertAttachments.
  destruct (Post.prop post "attachments") as [[]|]; try by apply emits_ret.
  destruct (jsonRoundTrip a l) as [[attachmentsInterface ok]|].
  - apply emits_then; [by apply emits_when, emits_emit|]. by apply emits_ret.
  - apply emits_then; [by apply emits_emit|]. by apply emits_ret.
Qed.

(** What follows a committed save: the identifier of the saved post is
    recorded under the token, the committed post is returned as prepared for
    the client, and nothing more is saved. *)
Lemma CreatePost_afterSave_run a post rpost user channel triggerWebhooks parentPostList w :
  ∃ post' after,
    app.CreatePost_afterSave a post rpost user channel triggerWebhooks parentPostList w
      = (Returns (post', Ok (PreparePostForClient a rpost true false)),
         with_events after
           (with_cache
              (Cache.AddWithExpiresInSecs (Post.PendingPostId post) (Post.Id rpost) 30
                 (now_of a w) (seenPendingPostIdsCache w))
              (tick w)))
    ∧ Forall (λ ev, is_save ev = false) after
    ∧ Post.PendingPostId post' = Post.PendingPostId post.
Proof.
  unfold app.CreatePost_afterSave.
  erewrite bind_Returns by apply AddWithExpiresInSecs_run.
  match goal with |- context [?m (with_cache ?c (tick w))] =>
    assert (Hm : emits (λ ev, is_save ev = false)
                   (λ r, r.2 = Ok (PreparePostForClient a rpost true false)
                         ∧ Post.PendingPostId r.1 = Post.PendingPostId post) m)
  end.
  { repeat (apply emits_then; [by apply emits_when, emits_emit|]).
    eapply emits_bind with (Q1 := λ p, Post.PendingPostId p = Post.PendingPostId post).
    - case_bool_decide; [|by apply emits_ret].
      eapply emits_bind; [apply emits_attachFilesToPost|]. intros [post1 err] Htok.
      apply emits_then; [by apply emits_when, emits_emit|].
      apply emits_then; [by apply emits_when, emits_emit|]. by apply emits_ret.
    - intros post1 Htok.
      eapply emits_bind; [apply emits_handlePostEvents|]. intros err _.
      apply emits_then; [by apply emits_when, emits_emit|]. by apply emits_ret. }
  match goal with |- context [_ (with_cache ?c (tick w))] =>
    destruct (Hm (with_cache c (tick w))) as ([post' r] & after & Hrun & [Hr Htok] & Hafter)
  end.
  simpl in Hr, Htok. subst r. exists post', after. by rewrite Hrun.
Qed.

Lemma verifyThread_token post pchan w p verified w' :
  app.CreatePost_verifyThread post pchan w = (Returns (p, verified), w') →
  Post.PendingPostId p = Post.PendingPostId post.
Proof.
  unfold app.CreatePost_verifyThread.
  repeat (first [ progress unfold_M | case_match | case_decide | case_bool_decide ]);
    intros Hrun; inversion Hrun; subst; done.
Qed.

Lemma FillInPostProps_token a post channel post' :
  app.FillInPostProps a post channel = Ok post' →
  Post.PendingPostId post' = Post.PendingPostId post.
Proof. intros H. apply FillInPostProps_frame in H as [-> _]. done. Qed.

Lemma CreatePost_body_run a post channel triggerWebhooks w :
  ∃ out w',
    app.CreatePost_body a post channel triggerWebhooks w = (out, w')
    ∧ CreatePost_run a post w out w'.
Proof.
  unfold app.CreatePost_body.
  destruct (Store_User_Get a _) as [user|err];
    [|eexists _, _; split; [reflexivity|by apply run_refused]].
  set (post0 := if User.IsBot user then _ else _).
  assert (Htok0 : Post.PendingPostId post0 = Post.PendingPostId post).
  { unfold post0. by destruct (User.IsBot user). }
  destruct (app.CreatePost_townSquareIsReadOnly _ _ _ _);
    [eexists _, _; split; [reflexivity|by apply run_refused]|].
  match goal with |- context [app.CreatePost_verifyThread ?p ?c] =>
    destruct (verifyThread_stateless p c w) as ([[post1 verified]|reason] & Hv)
  end.
  2:{ erewrite bind_Panics by exact Hv. eexists _, _. split; [reflexivity|constructor]. }
  erewrite bind_Returns by exact Hv. simpl.
  apply verifyThread_token in Hv as Htok1.
  destruct verified as [parentPostList|err].
  2:{ eexists _, _; split; [reflexivity|]. apply run_refused. congruence. }
  destruct (app.FillInPostProps a _ _) as [post2|err] eqn:Hfill.
  2:{ eexists _, _; split; [reflexivity|]. apply run_refused. simpl. congruence. }
  apply FillInPostProps_token in Hfill as Htok2. simpl in Htok2.
  destruct (emits_CreatePost_convertAttachments a post2 w)
    as (post3 & logs & Hconv & Htok3 & Hlogs).
  erewrite bind_Returns by exact Hconv.
  assert (Htok : Post.PendingPostId post3 = Post.PendingPostId post) by congruence.
  destruct (app.CreatePost_runHooks a post3) as [post4 [err|]] eqn:Hhooks.
  { eexists _, _. split; [reflexivity|]. by eapply run_rejected. }
  erewrite bind_Returns by apply emit_run. rewrite with_events_app.
  destruct (Store_Post_Save a post4) as [rpost|err] eqn:Hsave.
  - destruct (CreatePost_afterSave_run a post4 rpost user channel triggerWebhooks
                parentPostList (with_events (logs ++ [EvPostSave post4 (Ok rpost)]) w))
      as (post' & after & Hrun & Hafter & Htok').
    eexists _, _. split; [exact Hrun|].
    exact (run_commits a post w post3 post4 rpost post' logs after
             Htok Hlogs Hhooks Hsave Hafter Htok').
  - eexists _, _. split; [reflexivity|]. by eapply run_save_fails.
Qed.

Lemma deduplicateCreatePost_new a post w :
  (Post.PendingPostId post = "" ∨ unseen a w (Post.PendingPostId post)) →
  app.deduplicateCreatePost a post w = (Returns (Ok None), entered a post w).
Proof.
  intros Hnew. unfold entered. case_decide as Htok.
  - by apply deduplicateCreatePost_no_token.
  - destruct Hnew as [?|Hunseen]; [done|]. by apply deduplicateCreatePost_fresh.
Qed.

Lemma CreatePost_deferred_settled a post res w :
  app.CreatePost_deferred a post res w = (Returns tt, settled a post res w).
Proof.
  unfold app.CreatePost_deferred, settled. case_decide; [by destruct w|].
  destruct res; [apply AddWithExpiresInSecs_run|reflexivity].
Qed.

Lemma events_settled a post res w : events (settled a post res w) = events w.
Proof. unfold settled. case_decide; [done|]. by destruct res. Qed.

Lemma events_entered a post w : events (entered a post w) = events w.
Proof. unfold entered. by case_decide. Qed.

(** A request that is let through as new runs the body and then the deferred
    function. *)
Lemma CreatePost_new_run a post channel triggerWebhooks w :
  (Post.PendingPostId post = "" ∨ unseen a w (Post.PendingPostId post)) →
  ∃ out w1,
    CreatePost_run a post (entered a post w) out w1
    ∧ app.CreatePost a post channel triggerWebhooks w =
        match out with
        | Panics reason => (Panics reason, w1)
        | Returns (p, res) => (Returns res, settled a p res w1)
        end.
Proof.
  intros Hnew. unfold app.CreatePost.
  erewrite bind_Returns by (by apply deduplicateCreatePost_new).
  destruct (CreatePost_body_run a post channel triggerWebhooks (entered a post w))
    as (out & w1 & Hbody & Hrun).
  exists out, w1. split; [done|]. cbv beta iota.
  destruct out as [[p res]|reason].
  - erewrite bind_Returns by exact Hbody. cbv beta iota.
    erewrite bind_Returns by apply CreatePost_deferred_settled. reflexivity.
  - erewrite bind_Panics by exact Hbody. reflexivity.
Qed.

(** A request whose token the cache answers for is answered from the cache. *)
Lemma CreatePost_answered a post channel triggerWebhooks w e :
  Post.PendingPostId post ≠ "" →
  Cache.find (Post.PendingPostId post) (now_of a w) (seenPendingPostIdsCache w) = Some e →
  ∃ res logs,
    app.CreatePost a post channel triggerWebhooks w = (Returns res, with_events logs (tick w))
    ∧ Forall (λ ev, is_log ev = true) logs.
Proof.
  intros Htok Hfind. destruct (decide (Cache.value e = "")) as [Hval|Hval].
  - destruct (CreatePost_token_in_flight_run a w post channel triggerWebhooks)
      as [err ->]; [done|by exists e|].
    exists (Err err), []. by rewrite with_events_nil.
  - rewrite (CreatePost_replay a w post channel triggerWebhooks (Cache.value e))
      by (done || by exists e).
    destruct (app.GetSinglePost a _).
    + eexists _, [_]. split; [reflexivity|]. by repeat constructor.
    + eexists _, []. rewrite with_events_nil. split; [reflexivity|constructor].
Qed.

Lemma store_writes_logs logs :
  Forall (λ ev, is_log ev = true) logs → store_writes logs = [].
Proof.
  induction 1 as [|ev logs Hev _ IH]; [done|].
  unfold store_writes. rewrite filter_cons_False; [exact IH|].
  destruct ev; simpl in *; congruence.
Qed.

Lemma RunMultiPluginHook_rejects before rejecting after_ post :
  Forall accepts_posts before → rejects_posts rejecting →
  ∃ p,
    plugin.RunMultiPluginHook (before ++ rejecting :: after_) app.CreatePost_hookRunner
      plugin.MessageWillBePostedId (post, None)
    = (p, Some (NewAppError "createPost"
                  (if decide ((plugin.MessageWillBePosted rejecting p).2
                              = plugin.DismissPostError)
                   then plugin.DismissPostError
                   else "Post rejected by plugin. "
                        +:+ (plugin.MessageWillBePosted rejecting p).2)
                  [] "" StatusBadRequest)).
Proof.
  intros Hbefore [Himpl Hrej]. revert post.
  induction Hbefore as [|hooks before Hacc _ IH]; intros post.
  - exists post. simpl. rewrite Himpl. unfold app.CreatePost_hookRunner.
    specialize (Hrej post).
    destruct (plugin.MessageWillBePosted rejecting post) as [replacement reason].
    simpl in *. by rewrite decide_True.
  - simpl. destruct (plugin.Implements hooks _); [|apply IH].
    specialize (Hacc post).
    destruct (plugin.MessageWillBePosted hooks post) as [replacement reason].
    simpl in Hacc. subst reason.
    rewrite decide_False by (intros Hne; by apply Hne).
    destruct replacement; apply IH.
Qed.

(** X5.  When the chain of extensions holds one that rejects every new
    post, behind extensions that reject none, [CreatePost] never saves a
    post: a request that the deduplication check lets through writes nothing
    to the post store and is not answered with a post.  The chain stops at
    the rejecting extension, whatever follows it: the hooks return a
    bad-request error that carries its reason. *)
Theorem CreatePost_rejected_by_plugin a post channel triggerWebhooks w
    before rejecting after_ :
  GetPluginsEnvironment a = Some (before ++ rejecting :: after_) →
  Forall accepts_posts before →
  rejects_posts rejecting →
  (Post.PendingPostId post = "" ∨ unseen a w (Post.PendingPostId post)) →
  store_writes (events (app.CreatePost a post channel triggerWebhooks w).2)
    = store_writes (events w)
  ∧ (∀ r, (app.CreatePost a post channel triggerWebhooks w).1 ≠ Returns (Ok r))
  ∧ ∀ handed, ∃ p,
      app.CreatePost_runHooks a handed
      = (p, Some (NewAppError "createPost"
                    (if decide ((plugin.MessageWillBePosted rejecting p).2
                                = plugin.DismissPostError)
                     then plugin.DismissPostError
                     else "Post rejected by plugin. "
                          +:+ (plugin.MessageWillBePosted rejecting p).2)
                    [] "" StatusBadRequest)).
Proof.
  intros Henv Hbefore Hrej Hnew.
  assert (Hhooks : ∀ handed, ∃ p,
      app.CreatePost_runHooks a handed
      = (p, Some (NewAppError "createPost"
                    (if decide ((plugin.MessageWillBePosted rejecting p).2
                                = plugin.DismissPostError)
                     then plugin.DismissPostError
                     else "Post rejected by plugin. "
                          +:+ (plugin.MessageWillBePosted rejecting p).2)
                    [] "" StatusBadRequest))).
  { intros handed. unfold app.CreatePost_runHooks. rewrite Henv.
    by apply RunMultiPluginHook_rejects. }
  destruct (CreatePost_new_run a post channel triggerWebhooks w Hnew)
    as (out & w1 & Hrun & ->).
  split; [|split; [|exact Hhooks]].
  - destruct Hrun as [reason|p err Htok|handed p err logs Htok Hlogs Hrun
                      |handed saving err logs Htok Hlogs Hrun Hsave
                      |handed saving rpost post' logs after Htok Hlogs Hrun Hsave Hafter Htok'];
      try (destruct (Hhooks handed) as [p' Hp']; congruence); simpl;
      rewrite ?events_settled; simpl; rewrite ?events_entered; try done.
    rewrite store_writes_app, (store_writes_logs logs) by done. by rewrite app_nil_r.
  - destruct Hrun as [reason|p err Htok|handed p err logs Htok Hlogs Hrun
                      |handed saving err logs Htok Hlogs Hrun Hsave
                      |handed saving rpost post' logs after Htok Hlogs Hrun Hsave Hafter Htok'];
      try (destruct (Hhooks handed) as [p' Hp']; congruence); done.
Qed.

Lemma CreatePost_rejected_by_plugin_witness :
  GetPluginsEnvironment Moderation.a
    = Some ([Rejection.keeper] ++ Moderation.bouncer :: [Rejection.censor])
  ∧ Forall accepts_posts [Rejection.keeper]
  ∧ rejects_posts Moderation.bouncer
  ∧ (Post.PendingPostId Moderation.post = ""
     ∨ unseen Moderation.a Moderation.w (Post.PendingPostId Moderation.post))
  ∧ store_writes (events (app.CreatePost Moderation.a Moderation.post Fixture.town false
                            Moderation.w).2)
      = store_writes (events Moderation.w)
  ∧ (∀ r, (app.CreatePost Moderation.a Moderation.post Fixture.town false Moderation.w).1
          ≠ Returns (Ok r))
  ∧ ∀ handed, ∃ p,
      app.CreatePost_runHooks Moderation.a handed
      = (p, Some (NewAppError "createPost"
                    (if decide ((plugin.MessageWillBePosted Moderation.bouncer p).2
                                = plugin.DismissPostError)
                     then plugin.DismissPostError
                     else "Post rejected by plugin. "
                          +:+ (plugin.MessageWillBePosted Moderation.bouncer p).2)
                    [] "" StatusBadRequest)).
Proof.
  assert (H1 : GetPluginsEnvironment Moderation.a
               = Some ([Rejection.keeper] ++ Moderation.bouncer :: [Rejection.censor]))
    by reflexivity.
  assert (H2 : Forall accepts_posts [Rejection.keeper])
    by (constructor; [intros p; reflexivity|constructor]).
  assert (H3 : rejects_posts Moderation.bouncer)
    by (split; [reflexivity|intros p; simpl; discriminate]).
  assert (H4 : Post.PendingPostId Moderation.post = ""
               ∨ unseen Moderation.a Moderation.w (Post.PendingPostId Moderation.post))
    by (right; vm_compute; reflexivity).
  split; [exact H1|]. split; [exact H2|]. split; [exact H3|]. split; [exact H4|].
  exact (CreatePost_rejected_by_plugin Moderation.a Moderation.post Fixture.town false
           Moderation.w [Rejection.keeper] Moderation.bouncer [Rejection.censor]
           H1 H2 H3 H4).
Defined.

Lemma filter_nil_Forall {A} (P Q : A → Prop) `{∀ x, Decision (P x)} (l : list A) :
  Forall Q l → (∀ x, Q x → ¬ P x) → filter P l = [].
Proof.
  intros Hl HQ. induction Hl as [|x l Hx _ IH]; [done|].
  rewrite filter_cons_False by (by apply HQ). exact IH.
Qed.

Lemma saves_logs logs :
  Forall (λ ev, is_log ev = true) logs → filter (λ ev, is_save ev = true) logs = [].
Proof.
  intros Hlogs. apply (filter_nil_Forall _ _ _ Hlogs). intros ev Hlog.
  destruct ev; simpl in *; congruence.
Qed.

Lemma saves_none evs :
  Forall (λ ev, is_save ev = false) evs → filter (λ ev, is_save ev = true) evs = [].
Proof. intros Hevs. apply (filter_nil_Forall _ _ _ Hevs). intros ev. congruence. Qed.

Lemma committed_saves_logs logs :
  Forall (λ ev, is_log ev = true) logs → committed_saves logs = 0.
Proof.
  intros Hlogs. unfold committed_saves.
  rewrite (filter_nil_Forall _ _ _ Hlogs); [done|].
  intros ev Hlog. destruct ev; simpl in *; congruence.
Qed.

Lemma committed_saves_none evs :
  Forall (λ ev, is_save ev = false) evs → committed_saves evs = 0.
Proof.
  intros Hevs. unfold committed_saves.
  rewrite (filter_nil_Forall _ _ _ Hevs); [done|].
  intros ev Hsave. destruct ev; simpl in *; congruence.
Qed.

Lemma orderly_logs out logs :
  Forall (λ ev, is_log ev = true) logs → orderly out logs.
Proof.
  intros Hlogs. unfold orderly. rewrite saves_logs, committed_saves_logs by done.
  split; [simpl; lia|]. split; [|split; [|done]].
  - intros ev Hin. left. by apply (proj1 (Forall_forall _ _) Hlogs).
  - intros p err Hin. by apply (proj1 (Forall_forall _ _) Hlogs) in Hin.
Qed.

Lemma CreatePost_run_orderly a post w out w1 :
  CreatePost_run a post w out w1 →
  ∃ evs, events w1 = events w ++ evs ∧ orderly (answer out) evs.
Proof.
  intros [reason|p err Htok0|handed p err logs Htok0 Hlogs Hrun
         |handed saving err logs Htok0 Hlogs Hrun Hsave
         |handed saving rpost post' logs after Htok0 Hlogs Hrun Hsave Hafter Htok'].
  - exists []. rewrite app_nil_r. split; [done|]. apply orderly_logs. constructor.
  - exists []. rewrite app_nil_r. split; [done|]. apply orderly_logs. constructor.
  - exists logs. split; [done|]. by apply orderly_logs.
  - exists (logs ++ [EvPostSave saving (Err err)]). split; [done|]. unfold orderly.
    rewrite committed_saves_app, committed_saves_logs by done.
    rewrite filter_app, saves_logs by done.
    split; [simpl; lia|]. split; [|split; [|done]].
    + intros ev Hin. apply elem_of_app in Hin as [Hin|Hin].
      * left. by apply (proj1 (Forall_forall _ _) Hlogs).
      * apply list_elem_of_singleton in Hin as ->. by right; left.
    + intros p0 err0 Hin. apply elem_of_app in Hin as [Hin|Hin].
      * by apply (proj1 (Forall_forall _ _) Hlogs) in Hin.
      * apply list_elem_of_singleton in Hin. inversion Hin; subst.
        split; [done|apply last_snoc].
  - exists ((logs ++ [EvPostSave saving (Ok rpost)]) ++ after).
    split; [simpl; by rewrite <- !(assoc_L (++))|].
    unfold orderly.
    rewrite !committed_saves_app, (committed_saves_logs logs),
      (committed_saves_none after) by done.
    rewrite !filter_app, (saves_logs logs), (saves_none after) by done.
    split; [simpl; lia|]. split; [intros ev _; by right; right|].
    split; [|intros _; by eexists].
    intros p0 err0 Hin. apply elem_of_app in Hin as [Hin|Hin].
    + apply elem_of_app in Hin as [Hin|Hin].
      * by apply (proj1 (Forall_forall _ _) Hlogs) in Hin.
      * by apply list_elem_of_singleton in Hin.
    + by apply (proj1 (Forall_forall _ _) Hafter) in Hin.
Qed.


Lemma RunMultiPluginHook_token env post rejectionError :
  Forall (λ hooks, ∀ post replacement reason,
            plugin.MessageWillBePosted hooks post = (Some replacement, reason) →
            Post.PendingPostId replacement = Post.PendingPostId post) env →
  Post.PendingPostId
    (plugin.RunMultiPluginHook env app.CreatePost_hookRunner plugin.MessageWillBePostedId
       (post, rejectionError)).1
  = Post.PendingPostId post.
Proof.
  intros Henv. revert post rejectionError.
  induction Henv as [|hooks env Hkeep _ IH]; intros post rejectionError; [done|].
  simpl. destruct (plugin.Implements hooks _); [|apply IH].
  specialize (Hkeep post).
  destruct (plugin.MessageWillBePosted hooks post) as [replacement reason].
  case_decide; [done|]. destruct replacement as [p|]; rewrite IH; [|done].
  by eapply Hkeep.
Qed.

Lemma CreatePost_runHooks_token a post :
  hooks_keep_token a →
  Post.PendingPostId (app.CreatePost_runHooks a post).1 = Post.PendingPostId post.
Proof.
  intros Hkeep. unfold app.CreatePost_runHooks.
  destruct (GetPluginsEnvironment a) as [env|] eqn:Henv; [|done].
  by apply RunMultiPluginHook_token, Hkeep.
Qed.


Lemma no_plugins_keep_token a : GetPluginsEnvironment a = None → hooks_keep_token a.
Proof. intros Hnone env Henv. congruence. Qed.


Lemma answers_find k v until c now :
  answers k v until c → (now ≤ until)%Z →
  ∃ e, Cache.find k now c = Some e ∧ Cache.value e = v.
Proof.
  intros (e & rest & Hitems & Hkey & Hval & Hexp) Hnow. exists e. split; [|done].
  unfold Cache.find. rewrite Hitems, filter_cons_True; [done|].
  split; [done|]. unfold Cache.live. apply bool_decide_eq_true. lia.
Qed.

Lemma answers_fresh k v expires c :
  (1 ≤ Cache.size c)%Z →
  answers k v expires
    (Cache.mk (Cache.size c)
       (Cache.push (Cache.mkEntry k v expires) (Cache.size c) (Cache.without k c))).
Proof.
  intros Hsize. unfold answers, Cache.push. simpl.
  destruct (Z.to_nat (Cache.size c)) as [|n] eqn:Hn; [lia|].
  simpl. eexists _, _. split; [reflexivity|]. simpl. repeat split; lia.
Qed.

Lemma answers_AddWithExpiresInSecs k v0 v until secs now c :
  answers k v0 until c → (now ≤ until)%Z →
  answers k v until (Cache.AddWithExpiresInSecs k v secs now c).
Proof.
  intros Hans Hnow. destruct (answers_find k v0 until c now Hans Hnow) as (e0 & Hfind & _).
  destruct Hans as (e & rest & Hitems & Hkey & Hval & Hexp).
  unfold Cache.AddWithExpiresInSecs. rewrite Hfind. unfold answers. simpl.
  rewrite Hitems. simpl. rewrite decide_True by done.
  eexists _, _. split; [reflexivity|]. simpl. repeat split; lia.
Qed.

(** X8.  When a request with a token that the cache has not seen succeeds,
    a second request with the same token, served next within the expiry
    window of 30 s, is answered with what the store has under the identifier
    of the post returned to the first: that post, or the error of the
    deduplication check when the store fails; nothing is written again. *)
Theorem CreatePost_then_retry a post channel triggerWebhooks w r w1
    post2 channel2 triggerWebhooks2 start :
  hooks_keep_token a →
  Post.PendingPostId post ≠ "" →
  unseen a w (Post.PendingPostId post) →
  (∀ n, start ≤ clock a n ≤ start + 30000)%Z →
  (1 ≤ Cache.size (seenPendingPostIdsCache w))%Z →
  app.CreatePost a post channel triggerWebhooks w = (Returns (Ok r), w1) →
  Post.Id r ≠ "" →
  Post.PendingPostId post2 = Post.PendingPostId post →
  app.CreatePost a post2 channel2 triggerWebhooks2 w1 =
    match app.GetSinglePost a (Post.Id r) with
    | Ok actualPost =>
        (Returns (Ok actualPost),
         with_events [EvLog LDebug "Deduplicated create post"] (tick w1))
    | Err err =>
        (Returns (Err (NewAppError "deduplicateCreatePost"
                         "api.post.deduplicate_create_post.failed_to_get" []
                         (ErrorString a err) StatusInternalServerError)),
         tick w1)
    end.
Proof.
  intros Hkeep Htok Hunseen Hclock Hsize Hrun Hid Htok2.
  apply CreatePost_replay; [congruence|done|]. rewrite Htok2.
  destruct (CreatePost_new_run a post channel triggerWebhooks w (or_intror Hunseen))
    as (out & w0 & Hshape & Heq).
  rewrite Heq in Hrun. clear Heq.
  assert (Hentered : answers (Post.PendingPostId post) "" (start + 30000)
                       (seenPendingPostIdsCache (entered a post w))).
  { unfold entered. rewrite decide_False by done. simpl.
    destruct (answers_fresh (Post.PendingPostId post) "" (now_of a w + 30000)
                (seenPendingPostIdsCache w) Hsize)
      as (e & rest & Hitems & Hkey & Hval & Hexp).
    exists e, rest. repeat split; try done. specialize (Hclock (clockReads w)).
    unfold now_of in Hexp. lia. }
  destruct Hshape as [reason|p e Htok0|handed p e logs Htok0 Hlogs Hhooks
                      |handed saving e logs Htok0 Hlogs Hhooks Hsave
                      |handed saving rpost post' logs after Htok0 Hlogs Hhooks Hsave Hafter
                         Htok'];
    inversion Hrun; subst; clear Hrun.
  pose proof (CreatePost_runHooks_token a handed Hkeep) as Hp.
  rewrite Hhooks in Hp. simpl in Hp.
  assert (Hsaving : Post.PendingPostId saving = Post.PendingPostId post) by congruence.
  unfold settled. rewrite decide_False by congruence.
  rewrite Htok', Hsaving.
  unfold recorded. apply (answers_find _ _ (start + 30000)).
  - apply answers_AddWithExpiresInSecs with (v0 := Post.Id rpost).
    + simpl. apply answers_AddWithExpiresInSecs with (v0 := ""); [exact Hentered|].
      apply Hclock.
    + apply Hclock.
  - apply Hclock.
Qed.

Lemma CreatePost_then_retry_witness :
  hooks_keep_token Retry.a
  ∧ Post.PendingPostId Retry.post ≠ ""
  ∧ unseen Retry.a Retry.w (Post.PendingPostId Retry.post)
  ∧ (∀ n, 5000 ≤ clock Retry.a n ≤ 5000 + 30000)%Z
  ∧ (1 ≤ Cache.size (seenPendingPostIdsCache Retry.w))%Z
  ∧ app.CreatePost Retry.a Retry.post Fixture.town false Retry.w
    = (Returns (Ok Retry.saved), Retry.w1)
  ∧ Post.Id Retry.saved ≠ ""
  ∧ Post.PendingPostId Retry.post = Post.PendingPostId Retry.post
  ∧ app.CreatePost Retry.a Retry.post Fixture.town true Retry.w1 =
      match app.GetSinglePost Retry.a (Post.Id Retry.saved) with
      | Ok actualPost =>
          (Returns (Ok actualPost),
           with_events [EvLog LDebug "Deduplicated create post"] (tick Retry.w1))
      | Err err =>
          (Returns (Err (NewAppError "deduplicateCreatePost"
                           "api.post.deduplicate_create_post.failed_to_get" []
                           (ErrorString Retry.a err) StatusInternalServerError)),
           tick Retry.w1)
      end.
Proof.
  assert (H1 : hooks_keep_token Retry.a) by (by apply no_plugins_keep_token).
  assert (H2 : Post.PendingPostId Retry.post ≠ "") by (vm_compute; discriminate).
  assert (H3 : unseen Retry.a Retry.w (Post.PendingPostId Retry.post))
    by (vm_compute; reflexivity).
  assert (H4 : ∀ n, (5000 ≤ clock Retry.a n ≤ 5000 + 30000)%Z) by (intros n; simpl; lia).
  assert (H5 : (1 ≤ Cache.size (seenPendingPostIdsCache Retry.w))%Z)
    by (vm_compute; discriminate).
  assert (H6 : app.CreatePost Retry.a Retry.post Fixture.town false Retry.w
               = (Returns (Ok Retry.saved), Retry.w1)) by (vm_compute; reflexivity).
  assert (H7 : Post.Id Retry.saved ≠ "") by (vm_compute; discriminate).
  assert (H8 : Post.PendingPostId Retry.post = Post.PendingPostId Retry.post)
    by reflexivity.
  split; [exact H1|]. split; [exact H2|]. split; [exact H3|]. split; [exact H4|].
  split; [exact H5|]. split; [exact H6|]. split; [exact H7|]. split; [exact H8|].
  exact (CreatePost_then_retry Retry.a Retry.post Fixture.town false Retry.w Retry.saved
           Retry.w1 Retry.post Fixture.town true 5000 H1 H2 H3 H4 H5 H6 H7 H8).
Defined.

Lemma with_cache_with_cache c c' w : with_cache c (with_cache c' w) = with_cache c w.
Proof. reflexivity. Qed.

Lemma blind_ret {A} (x : A) : blind (mret x : M A).
Proof. intros w c. by exists c. Qed.

Lemma blind_bind {A B} (m : M A) (k : A → M B) :
  blind m → (∀ x, blind (k x)) → blind (m ≫= k).
Proof.
  intros Hm Hk w c. unfold mbind, M_bind, bind.
  destruct (Hm w c) as [c1 ->]. destruct (m w) as [[x|reason] w1]; simpl.
  - apply Hk.
  - by exists c1.
Qed.

Lemma blind_emit ev : blind (emit ev).
Proof. intros w c. by exists c. Qed.

Lemma blind_when b m : blind m → blind (when b m).
Proof. destruct b; [done|]. intros _. apply blind_ret. Qed.

Lemma blind_AddWithExpiresInSecs a k v secs :
  blind (app.seenPendingPostIdsCache_AddWithExpiresInSecs a k v secs).
Proof. intros w c. eexists. reflexivity. Qed.

Lemma blind_Remove k : blind (app.seenPendingPostIdsCache_Remove k).
Proof. intros w c. eexists. reflexivity. Qed.

Lemma blind_panic {A} reason : blind (panic reason : M A).
Proof. intros w c. by exists c. Qed.

Lemma blind_attachFilesToPost_loop a post fileIds attachedIds :
  blind (app.attachFilesToPost_loop a post fileIds attachedIds).
Proof.
  revert attachedIds. induction fileIds as [|fileId rest IH]; intros attachedIds; simpl.
  - apply blind_ret.
  - apply blind_bind; [apply blind_emit|]. intros _.
    destruct (Store_FileInfo_AttachToPost a fileId _ _); [|apply IH].
    apply blind_bind; [apply blind_emit|]. intros _. apply IH.
Qed.

Lemma blind_attachFilesToPost a post : blind (app.attachFilesToPost a post).
Proof.
  unfold app.attachFilesToPost.
  apply blind_bind; [apply blind_attachFilesToPost_loop|]. intros attachedIds.
  case_bool_decide; [|apply blind_ret].
  apply blind_bind; [apply blind_emit|]. intros _.
  destruct (Store_Post_Overwrite a _); apply blind_ret.
Qed.

Lemma blind_handlePostEvents a post user channel triggerWebhooks parentPostList :
  blind (app.handlePostEvents a post user channel triggerWebhooks parentPostList).
Proof.
  unfold app.handlePostEvents.
  destruct (if bool_decide _ then _ else _); [|apply blind_ret].
  do 3 (apply blind_bind; [apply blind_emit|]; intros _).
  destruct (SendNotifications a _ _ _ _ _); [apply blind_ret|].
  apply blind_bind; [apply blind_emit|]. intros _.
  apply blind_bind; [apply blind_when, blind_emit|]. intros _. apply blind_ret.
Qed.

Lemma blind_CreatePost_convertAttachments a post :
  blind (app.CreatePost_convertAttachments a post).
Proof.
  unfold app.CreatePost_convertAttachments.
  destruct (Post.prop post "attachments") as [[]|]; try apply blind_ret.
  destruct (jsonRoundTrip a l) as [[attachmentsInterface ok]|].
  - apply blind_bind; [apply blind_when, blind_emit|]. intros _. apply blind_ret.
  - apply blind_bind; [apply blind_emit|]. intros _. apply blind_ret.
Qed.

Lemma blind_CreatePost_verifyThread post pchan :
  blind (app.CreatePost_verifyThread post pchan).
Proof.
  unfold app.CreatePost_verifyThread.
  repeat (first [ case_match | case_decide | case_bool_decide ]);
    first [apply blind_ret | apply blind_panic].
Qed.

Lemma blind_CreatePost_afterSave a post rpost user channel triggerWebhooks parentPostList :
  blind (app.CreatePost_afterSave a post rpost user channel triggerWebhooks parentPostList).
Proof.
  unfold app.CreatePost_afterSave.
  apply blind_bind; [apply blind_AddWithExpiresInSecs|]. intros _.
  do 3 (apply blind_bind; [apply blind_when, blind_emit|]; intros _).
  apply blind_bind.
  - case_bool_decide; [|apply blind_ret].
    apply blind_bind; [apply blind_attachFilesToPost|]. intros [post1 err].
    do 2 (apply blind_bind; [apply blind_when, blind_emit|]; intros _). apply blind_ret.
  - intros post1. apply blind_bind; [apply blind_handlePostEvents|]. intros err.
    apply blind_bind; [apply blind_when, blind_emit|]. intros _. apply blind_ret.
Qed.

Lemma blind_CreatePost_body a post channel triggerWebhooks :
  blind (app.CreatePost_body a post channel triggerWebhooks).
Proof.
  unfold app.CreatePost_body.
  destruct (Store_User_Get a _) as [user|err]; [|apply blind_ret].
  destruct (app.CreatePost_townSquareIsReadOnly _ _ _ _); [apply blind_ret|].
  apply blind_bind; [apply blind_CreatePost_verifyThread|]. intros [post1 verified].
  destruct verified as [parentPostList|err]; [|apply blind_ret].
  destruct (app.FillInPostProps a _ _) as [post2|err]; [|apply blind_ret].
  apply blind_bind; [apply blind_CreatePost_convertAttachments|]. intros post3.
  destruct (app.CreatePost_runHooks a post3) as [post4 [err|]]; [apply blind_ret|].
  apply blind_bind; [apply blind_emit|]. intros _.
  destruct (Store_Post_Save a post4); [apply blind_CreatePost_afterSave|apply blind_ret].
Qed.

Lemma blind_CreatePost_deferred a post res : blind (app.CreatePost_deferred a post res).
Proof.
  unfold app.CreatePost_deferred. case_decide; [apply blind_ret|].
  destruct res; [apply blind_AddWithExpiresInSecs|apply blind_Remove].
Qed.

(** X9.  A request without a token is never deduplicated: its outcome, its
    effects and its readings of the clock do not depend on what the
    deduplication cache holds. *)
Theorem CreatePost_without_token a post channel triggerWebhooks w c :
  Post.PendingPostId post = "" →
  (app.CreatePost a post channel triggerWebhooks (with_cache c w)).1
    = (app.CreatePost a post channel triggerWebhooks w).1
  ∧ events (app.CreatePost a post channel triggerWebhooks (with_cache c w)).2
    = events (app.CreatePost a post channel triggerWebhooks w).2
  ∧ clockReads (app.CreatePost a post channel triggerWebhooks (with_cache c w)).2
    = clockReads (app.CreatePost a post channel triggerWebhooks w).2.
Proof.
  intros Htok.
  assert (Hblind : blind (app.CreatePost a post channel triggerWebhooks)).
  { unfold app.CreatePost. apply blind_bind.
    - unfold app.deduplicateCreatePost. rewrite decide_True by done. apply blind_ret.
    - intros [[foundPost|]|err]; try apply blind_ret.
      apply blind_bind; [apply blind_CreatePost_body|]. intros [p res].
      apply blind_bind; [apply blind_CreatePost_deferred|]. intros _. apply blind_ret. }
  destruct (Hblind w c) as [c' ->]. done.
Qed.

Lemma CreatePost_without_token_witness :
  Post.PendingPostId (Fixture.post "" "hi" "") = ""
  ∧ (app.CreatePost Retry.a (Fixture.post "" "hi" "") Fixture.town false
       (with_cache (Cache.mk 10 [Cache.mkEntry "tok" "p1" 6000]) Retry.w)).1
    = (app.CreatePost Retry.a (Fixture.post "" "hi" "") Fixture.town false Retry.w).1
  ∧ events (app.CreatePost Retry.a (Fixture.post "" "hi" "") Fixture.town false
              (with_cache (Cache.mk 10 [Cache.mkEntry "tok" "p1" 6000]) Retry.w)).2
    = events (app.CreatePost Retry.a (Fixture.post "" "hi" "") Fixture.town false Retry.w).2
  ∧ clockReads (app.CreatePost Retry.a (Fixture.post "" "hi" "") Fixture.town false
                  (with_cache (Cache.mk 10 [Cache.mkEntry "tok" "p1" 6000]) Retry.w)).2
    = clockReads (app.CreatePost Retry.a (Fixture.post "" "hi" "") Fixture.town false
                    Retry.w).2.
Proof.
  assert (H1 : Post.PendingPostId (Fixture.post "" "hi" "") = "") by reflexivity.
  split; [exact H1|].
  exact (CreatePost_without_token Retry.a (Fixture.post "" "hi" "") Fixture.town false
           Retry.w (Cache.mk 10 [Cache.mkEntry "tok" "p1" 6000]) H1).
Defined.

Lemma cache_iter_tick n w :
  seenPendingPostIdsCache (Nat.iter n tick w) = seenPendingPostIdsCache w.
Proof. induction n; [done|]. simpl. exact IHn. Qed.

Lemma UpdatePost_afterUpdate_shape a post newPost oldPost rpost w :
  ∃ tasks,
    app.UpdatePost_afterUpdate a post newPost oldPost rpost w =
      (Returns (Ok (PreparePostForClient a rpost false true)),
       with_events
         (tasks ++ [EvPublish "post_edited"
                      (Post.ChannelId (PreparePostForClient a rpost false true)) ""
                      (PreparePostForClient a rpost false true);
                    EvInvalidateCacheForChannelPosts
                      (Post.ChannelId (PreparePostForClient a rpost false true))]) w)
    ∧ Forall (λ ev, is_go ev = true) tasks.
Proof.
  unfold app.UpdatePost_afterUpdate.
  destruct (bool_decide _), (IsESIndexingEnabled a); simpl.
  - exists [EvGo (TaskMessageHasBeenUpdated newPost oldPost); EvGo (TaskIndexUpdatedPost rpost)].
    split; [|by repeat constructor].
    do 4 (erewrite bind_Returns by apply emit_run). by rewrite ret_run, !with_events_app.
  - exists [EvGo (TaskMessageHasBeenUpdated newPost oldPost)].
    split; [|by repeat constructor].
    erewrite bind_Returns by apply emit_run. erewrite bind_Returns by apply ret_run.
    do 2 (erewrite bind_Returns by apply emit_run). by rewrite ret_run, !with_events_app.
  - exists [EvGo (TaskIndexUpdatedPost rpost)].
    split; [|by repeat constructor].
    erewrite bind_Returns by apply ret_run.
    do 3 (erewrite bind_Returns by apply emit_run). by rewrite ret_run, !with_events_app.
  - exists []. split; [|constructor].
    do 2 (erewrite bind_Returns by apply ret_run).
    do 2 (erewrite bind_Returns by apply emit_run). by rewrite ret_run, !with_events_app.
Qed.

Lemma UpdatePost_commit_shape a post oldPost safeUpdate w :
  ∃ out evs n,
    app.UpdatePost_commit a post oldPost safeUpdate w = (out, with_events evs (Nat.iter n tick w))
    ∧ UpdatePost_run a out evs.
Proof.
  unfold app.UpdatePost_commit.
  destruct (GetChannel a _) as [channel|err].
  2:{ eexists _, [], 0. rewrite with_events_nil. split; [reflexivity|constructor]. }
  case_decide.
  { eexists _, [], 0. rewrite with_events_nil. split; [reflexivity|constructor]. }
  destruct (UpdatePost_newPost_returns a post oldPost safeUpdate w) as (newPost0 & n & Hnew).
  erewrite bind_Returns by exact Hnew.
  destruct (app.FillInPostProps a post None) as [post'|err] eqn:Hfill.
  2:{ eexists _, [], n. rewrite with_events_nil. split; [reflexivity|constructor]. }
  destruct (app.UpdatePost_runHooks a _ oldPost) as [[newPost|] reason] eqn:Hhooks.
  2:{ eexists _, [], n. rewrite with_events_nil. split; [reflexivity|constructor]. }
  erewrite bind_Returns by apply emit_run.
  destruct (Store_Post_Update a newPost oldPost) as [rpost|err] eqn:Hupd.
  - match goal with |- context [app.UpdatePost_afterUpdate _ _ _ _ _ ?W] =>
      destruct (UpdatePost_afterUpdate_shape a post' newPost oldPost rpost W)
        as (tasks & Hrun & Htasks)
    end.
    rewrite Hrun, with_events_app. eexists _, _, n. split; [reflexivity|].
    by eapply update_commits.
  - eexists _, _, n. split; [reflexivity|]. by eapply update_fails.
Qed.

Lemma UpdatePost_shape a post safeUpdate w :
  ∃ out evs n,
    app.UpdatePost a post safeUpdate w = (out, with_events evs (Nat.iter n tick w))
    ∧ UpdatePost_run a out evs.
Proof.
  unfold app.UpdatePost. simpl.
  destruct (Store_Post_Get a (Post.Id post)) as [postLists|err].
  2:{ eexists _, [], 0. rewrite with_events_nil. split; [reflexivity|constructor]. }
  destruct (PostList.Posts postLists !! Post.Id post) as [oldPost|].
  2:{ eexists _, [], 0. rewrite with_events_nil. split; [reflexivity|constructor]. }
  case_decide.
  { eexists _, [], 0. rewrite with_events_nil. split; [reflexivity|constructor]. }
  destruct (Post.IsSystemMessage oldPost).
  { eexists _, [], 0. rewrite with_events_nil. split; [reflexivity|constructor]. }
  destruct (UpdatePost_checkTimeLimit_run a (Post.SanitizeProps post) oldPost w)
    as ([err|] & n & Hcheck); erewrite bind_Returns by exact Hcheck.
  - eexists _, [], n. rewrite with_events_nil. split; [reflexivity|constructor].
  - destruct (UpdatePost_commit_shape a (Post.SanitizeProps post) oldPost safeUpdate
                (Nat.iter n tick w)) as (out & evs & m & Hrun & Hshape).
    exists out, evs, (m + n). rewrite Nat.iter_add. by split.
Qed.

(** X10.  [UpdatePost] never panics and never touches the deduplication
    cache.  When it answers with a post, its effects are one committed update
    of the store, then background tasks, then one [post_edited] broadcast of
    the answered post to its channel and the invalidation of the post cache
    of that channel, and the answered post is the updated post as prepared for
    the client.  When it answers with an error, it has had no effect, or its
    only effect is the update that the store has refused with that error. *)
Theorem UpdatePost_outcome a post safeUpdate w :
  ∃ evs,
    events (app.UpdatePost a post safeUpdate w).2 = events w ++ evs
    ∧ seenPendingPostIdsCache (app.UpdatePost a post safeUpdate w).2
      = seenPendingPostIdsCache w
    ∧ match (app.UpdatePost a post safeUpdate w).1 with
      | Returns (Ok r) =>
          ∃ newPost oldPost rpost tasks,
            Store_Post_Update a newPost oldPost = Ok rpost
            ∧ r = PreparePostForClient a rpost false true
            ∧ Forall (λ ev, is_go ev = true) tasks
            ∧ evs = EvPostUpdate newPost oldPost (Ok rpost) :: tasks
                    ++ [EvPublish "post_edited" (Post.ChannelId r) "" r;
                        EvInvalidateCacheForChannelPosts (Post.ChannelId r)]
      | Returns (Err err) =>
          evs = [] ∨ ∃ newPost oldPost, evs = [EvPostUpdate newPost oldPost (Err err)]
      | Panics _ => False
      end.
Proof.
  destruct (UpdatePost_shape a post safeUpdate w) as (out & evs & n & -> & Hshape).
  exists evs. simpl. rewrite events_iter_tick, cache_iter_tick.
  split; [done|]. split; [done|].
  destruct Hshape as [err|handed newPost oldPost reason err Hhooks Hupd
                      |handed newPost oldPost reason rpost tasks Hhooks Hupd Htasks r].
  - by left.
  - right. by exists newPost, oldPost.
  - by exists newPost, oldPost, rpost, tasks.
Qed.

(** X11.  When the post to update is not in the list that the store returns
    for its identifier, or is deleted, or is a system message, [UpdatePost]
    fails with a bad-request error that tells which, and leaves the world as
    it is. *)
Theorem UpdatePost_not_editable a post safeUpdate w postLists :
  Store_Post_Get a (Post.Id post) = Ok postLists →
  ¬ editable postLists (Post.Id post) →
  ∃ err,
    app.UpdatePost a post safeUpdate w = (Returns (Err err), w)
    ∧ AppError.StatusCode err = StatusBadRequest
    ∧ AppError.Id err =
        match PostList.Posts postLists !! Post.Id post with
        | None => "api.post.update_post.find.app_error"
        | Some oldPost =>
            if decide (Post.DeleteAt oldPost = 0%Z)
            then "api.post.update_post.system_message.app_error"
            else "api.post.update_post.permissions_details.app_error"
        end.
Proof.
  intros Hget Hne. unfold app.UpdatePost. simpl. rewrite Hget.
  destruct (PostList.Posts postLists !! Post.Id post) as [oldPost|] eqn:Hold.
  2:{ eexists. split; [reflexivity|]. done. }
  case_decide as Hdel.
  { eexists. split; [reflexivity|]. by rewrite decide_False. }
  destruct (Post.IsSystemMessage oldPost) eqn:Hsys.
  { eexists. split; [reflexivity|]. rewrite decide_True; [done|].
    destruct (decide (Post.DeleteAt oldPost = 0%Z)); [done|by destruct Hdel]. }
  destruct Hne. exists oldPost. split; [done|]. split; [|done].
  destruct (decide (Post.DeleteAt oldPost = 0%Z)); [done|by destruct Hdel].
Qed.

Lemma UpdatePost_not_editable_witness :
  Store_Post_Get Index.a (Post.Id Index.deleted)
    = Ok (PostList.mk ["p2"] {[ "p2" := Index.deleted ]} "" "")
  ∧ ¬ editable (PostList.mk ["p2"] {[ "p2" := Index.deleted ]} "" "") (Post.Id Index.deleted)
  ∧ ∃ err,
      app.UpdatePost Index.a Index.deleted false Index.w = (Returns (Err err), Index.w)
      ∧ AppError.StatusCode err = StatusBadRequest
      ∧ AppError.Id err =
          match PostList.Posts (PostList.mk ["p2"] {[ "p2" := Index.deleted ]} "" "")
                  !! Post.Id Index.deleted with
          | None => "api.post.update_post.find.app_error"
          | Some oldPost =>
              if decide (Post.DeleteAt oldPost = 0%Z)
              then "api.post.update_post.system_message.app_error"
              else "api.post.update_post.permissions_details.app_error"
          end.
Proof.
  assert (H1 : Store_Post_Get Index.a (Post.Id Index.deleted)
               = Ok (PostList.mk ["p2"] {[ "p2" := Index.deleted ]} "" ""))
    by (vm_compute; reflexivity).
  assert (H2 : ¬ editable (PostList.mk ["p2"] {[ "p2" := Index.deleted ]} "" "")
                 (Post.Id Index.deleted)).
  { intros (oldPost & Hold & Hlive & _). vm_compute in Hold. inversion Hold; subst.
    vm_compute in Hlive. discriminate. }
  split; [exact H1|]. split; [exact H2|].
  exact (UpdatePost_not_editable Index.a Index.deleted false Index.w _ H1 H2).
Defined.

Lemma RunMultiPluginHook_last_rejects before rejecting oldPost s :
  rejects_updates rejecting →
  (plugin.RunMultiPluginHook (before ++ [rejecting]) (app.UpdatePost_hookRunner oldPost)
     plugin.MessageWillBeUpdatedId s).1 = None.
Proof.
  intros [Himpl Hrej]. revert s. induction before as [|hooks before IH]; intros s; simpl.
  - rewrite Himpl. unfold app.UpdatePost_hookRunner. destruct s as [newPost reason].
    apply Hrej.
  - destruct (plugin.Implements hooks _); [|apply IH].
    unfold app.UpdatePost_hookRunner at 2. destruct s as [newPost reason]. apply IH.
Qed.

(** X12.  When the last extension of the chain rejects every update,
    [UpdatePost] always fails and has no effect: nothing is written to the
    store, nothing is broadcast. *)
Theorem UpdatePost_rejected_by_last_plugin a post safeUpdate w before rejecting :
  GetPluginsEnvironment a = Some (before ++ [rejecting]) →
  rejects_updates rejecting →
  ∃ err,
    (app.UpdatePost a post safeUpdate w).1 = Returns (Err err)
    ∧ events (app.UpdatePost a post safeUpdate w).2 = events w.
Proof.
  intros Henv Hrej.
  assert (Hhooks : ∀ handed oldPost newPost reason,
            app.UpdatePost_runHooks a handed oldPost ≠ (Some newPost, reason)).
  { intros handed oldPost newPost reason Hrun.
    unfold app.UpdatePost_runHooks in Hrun. rewrite Henv in Hrun.
    pose proof (RunMultiPluginHook_last_rejects before rejecting oldPost (Some handed, "")
                  Hrej) as Hnone.
    by rewrite Hrun in Hnone. }
  destruct (UpdatePost_shape a post safeUpdate w) as (out & evs & n & -> & Hshape).
  destruct Hshape as [err|handed newPost oldPost reason err Hrun Hupd
                      |handed newPost oldPost reason rpost tasks Hrun Hupd Htasks r].
  - exists err. simpl. by rewrite app_nil_r, events_iter_tick.
  - by destruct (Hhooks _ _ _ _ Hrun).
  - by destruct (Hhooks _ _ _ _ Hrun).
Qed.

Lemma UpdatePost_rejected_by_last_plugin_witness :
  GetPluginsEnvironment Rejection.a_last = Some ([Rejection.keeper] ++ [Rejection.censor])
  ∧ rejects_updates Rejection.censor
  ∧ ∃ err,
      (app.UpdatePost Rejection.a_last Rejection.post false Rejection.w).1
        = Returns (Err err)
      ∧ events (app.UpdatePost Rejection.a_last Rejection.post false Rejection.w).2
        = events Rejection.w.
Proof.
  assert (H1 : GetPluginsEnvironment Rejection.a_last
               = Some ([Rejection.keeper] ++ [Rejection.censor])) by reflexivity.
  assert (H2 : rejects_updates Rejection.censor) by (split; [reflexivity|by intros ??]).
  split; [exact H1|]. split; [exact H2|].
  exact (UpdatePost_rejected_by_last_plugin Rejection.a_last Rejection.post false
           Rejection.w [Rejection.keeper] Rejection.censor H1 H2).
Defined.

Lemma Forall_is_log_replicate n level msg :
  Forall (λ ev, is_log ev = true) (replicate n (EvLog level msg)).
Proof. apply Forall_forall. intros ev Hin. by apply elem_of_replicate in Hin as [-> _]. Qed.


(** X14.  [SearchPostsInTeam] queries the store once per specification whose
    term is not the wildcard, in order, each time without a user and with the
    flag [SearchWithoutUserId] set, whatever the order of completion; when
    post search is disabled, it queries nothing and fails with status 501. *)
Theorem SearchPostsInTeam_queries a dir schedule teamId paramsList w :
  events (app.SearchPostsInTeam a dir schedule teamId paramsList w).2
    = events w
      ++ (if EnablePostSearch a then
            (λ params, EvSearch teamId "" (SearchParams.set_SearchWithoutUserId true params))
              <$> filter (λ params, SearchParams.Terms params ≠ "*") paramsList
          else [])
  ∧ (EnablePostSearch a = false →
     ∃ err, (app.SearchPostsInTeam a dir schedule teamId paramsList w).1 = Returns (Err err)
            ∧ AppError.StatusCode err = StatusNotImplemented).
Proof.
  unfold app.SearchPostsInTeam. destruct (EnablePostSearch a); simpl.
  - split; [|done]. unfold app.searchPostsInTeam.
    erewrite bind_Returns
      by apply (searchPostsInTeam_launch_pure a teamId "" paramsList
                  (SearchParams.set_SearchWithoutUserId true)).
    cbv beta zeta.
    destruct (app.searchPostsInTeam_collect _ _); simpl; f_equal;
      by rewrite <- list_fmap_compose.
  - rewrite app_nil_r. split; [done|]. intros _. by eexists.
Qed.

Lemma searchPostsInTeam_launch_wildcards a teamId userId paramsList modifierFun w :
  Forall (λ params, SearchParams.Terms params = "*") paramsList →
  app.searchPostsInTeam_launch a teamId userId paramsList modifierFun w = (Returns [], w).
Proof.
  induction 1 as [|params rest Hterm _ IH]; [done|].
  simpl. by rewrite decide_True.
Qed.

Lemma esSearchPostsInTeamForUser_params_wildcards a paramsList userId teamId isOrSearch
    includeDeletedChannels finalParamsList w :
  Forall (λ params, SearchParams.Terms params = "*") paramsList →
  app.esSearchPostsInTeamForUser_params a paramsList userId teamId isOrSearch
    includeDeletedChannels finalParamsList w = (Returns finalParamsList, w).
Proof.
  induction 1 as [|params rest Hterm _ IH]; [done|].
  simpl. rewrite decide_False; [exact IH|]. intros Hne. by apply Hne.
Qed.

(** X15.  When every specification is the wildcard (or there is none), both
    search paths answer with nothing and do nothing: [searchPostsInTeam]
    returns the empty post list, and neither calls the modifier function nor
    queries the store; [esSearchPostsInTeamForUser] returns empty results
    without a look at the channels of the user, the index or the store. *)
Theorem search_only_wildcards a dir schedule teamId userId paramsList modifierFun
    isOrSearch includeDeletedChannels page perPage w :
  Forall (λ params, SearchParams.Terms params = "*") paramsList →
  app.searchPostsInTeam a dir schedule teamId userId paramsList modifierFun w
    = (Returns (Ok PostList.NewPostList), w)
  ∧ app.esSearchPostsInTeamForUser a paramsList userId teamId isOrSearch
      includeDeletedChannels page perPage w
    = (Returns (Ok (MakePostSearchResults PostList.NewPostList None)), w).
Proof.
  intros Hall. split.
  - unfold app.searchPostsInTeam.
    erewrite bind_Returns by (by apply searchPostsInTeam_launch_wildcards).
    cbv beta zeta. unfold app.arrivals.
    assert (Hnone : omap (λ i, ([] : list (Result PostList.t)) !! i) schedule = []).
    { induction schedule as [|i schedule IH]; [done|]. by destruct i. }
    rewrite Hnone. reflexivity.
  - unfold app.esSearchPostsInTeamForUser.
    erewrite bind_Returns by (by apply esSearchPostsInTeamForUser_params_wildcards).
    reflexivity.
Qed.

Lemma search_only_wildcards_witness :
  Forall (λ params, SearchParams.Terms params = "*") [Search.params "*"; Search.params "*"]
  ∧ app.searchPostsInTeam Index.a PostList.OldestFirst [1; 0] "t1" "u1"
      [Search.params "*"; Search.params "*"] Merge.modifierFun Index.w
    = (Returns (Ok PostList.NewPostList), Index.w)
  ∧ app.esSearchPostsInTeamForUser Index.a [Search.params "*"; Search.params "*"] "u1" "t1"
      false false 0 10 Index.w
    = (Returns (Ok (MakePostSearchResults PostList.NewPostList None)), Index.w).
Proof.
  assert (H1 : Forall (λ params, SearchParams.Terms params = "*")
                 [Search.params "*"; Search.params "*"]) by (by repeat constructor).
  split; [exact H1|].
  exact (search_only_wildcards Index.a PostList.OldestFirst [1; 0] "t1" "u1"
           [Search.params "*"; Search.params "*"] Merge.modifierFun false false 0 10
           Index.w H1).
Defined.



(** ** Cursors, patches and the posts around the last unread one *)

(** X17.  [AddCursorIdsForPostList] needs no query for a list fetched with
    [since], nor for a first page that is shorter than [perPage] and was
    fetched after or before a post: it returns without any effect, with the
    order and the posts of the list unchanged and with cursors that are empty
    for [since], and otherwise hold the anchor on its side ([PrevPostId] for
    [afterPost], [NextPostId] for [beforePost]) and nothing on the other. *)
Theorem AddCursorIdsForPostList_without_query b originalList afterPost beforePost
    since page perPage w :
  (since > 0)%Z
  ∨ (page = 0%Z
     ∧ (Z.of_nat (length (PostList.Order originalList)) < perPage)%Z
     ∧ (afterPost ≠ "" ∨ beforePost ≠ "")) →
  app.AddCursorIdsForPostList b originalList afterPost beforePost since page perPage w
  = (Returns (PostList.mk (PostList.Order originalList) (PostList.Posts originalList)
                (known_cursors afterPost beforePost since).1
                (known_cursors afterPost beforePost since).2),
     w).
Proof.
  unfold app.AddCursorIdsForPostList, app.AddCursorIdsForPostList_known, known_cursors.
  intros [Hsince|(-> & Hlen & Hanchor)].
  - by rewrite !bool_decide_eq_true_2 by done.
  - case_bool_decide; [done|].
    rewrite (bool_decide_eq_true_2 _ Hlen).
    destruct (decide (afterPost ≠ "")) as [Hafter|Hafter]; [done|].
    destruct (decide (beforePost ≠ "")) as [Hbefore|Hbefore]; [done|].
    destruct Hanchor; done.
Qed.

Lemma AddCursorIdsForPostList_without_query_witness :
  app.AddCursorIdsForPostList Desk.b Desk.page "p0" "" 0 0 10 Desk.w
  = (Returns (PostList.mk ["p1"] (PostList.Posts Desk.page) "" "p0"), Desk.w).
Proof.
  apply (AddCursorIdsForPostList_without_query Desk.b Desk.page "p0" "" 0 0 10 Desk.w).
  right. split; [reflexivity|]. split; [simpl; lia|]. left. discriminate.
Defined.

Lemma GetNextPostIdFromPostList_run b postList firstPostId rest firstPost w :
  PostList.Order postList = firstPostId :: rest →
  PostList.Posts postList !! firstPostId = Some firstPost →
  app.GetNextPostIdFromPostList b postList w
  = (Returns (Store_Post_GetPostIdAfterTime b (Post.ChannelId firstPost)
                (Post.CreateAt firstPost)).1,
     with_events
       (warning_of (Store_Post_GetPostIdAfterTime b (Post.ChannelId firstPost)
                      (Post.CreateAt firstPost)).2
          "GetNextPostIdFromPostList: failed in getting next post") w).
Proof.
  intros Horder Hfirst. unfold app.GetNextPostIdFromPostList, app.GetPostIdAfterTime.
  rewrite Horder, Hfirst.
  destruct (Store_Post_GetPostIdAfterTime b _ _) as [nextPostId [err|]]; simpl.
  - reflexivity.
  - by rewrite with_events_nil.
Qed.

Lemma GetPrevPostIdFromPostList_run b postList lastPostId lastPost w :
  last (PostList.Order postList) = Some lastPostId →
  PostList.Posts postList !! lastPostId = Some lastPost →
  app.GetPrevPostIdFromPostList b postList w
  = (Returns (Store_Post_GetPostIdBeforeTime b (Post.ChannelId lastPost)
                (Post.CreateAt lastPost)).1,
     with_events
       (warning_of (Store_Post_GetPostIdBeforeTime b (Post.ChannelId lastPost)
                      (Post.CreateAt lastPost)).2
          "GetPrevPostIdFromPostList: failed in getting previous post") w).
Proof.
  intros Horder Hlast. unfold app.GetPrevPostIdFromPostList, app.GetPostIdBeforeTime.
  rewrite Horder, Hlast.
  destruct (Store_Post_GetPostIdBeforeTime b _ _) as [previousPostId [err|]]; simpl.
  - reflexivity.
  - by rewrite with_events_nil.
Qed.

Lemma AddCursorIdsForPostList_run b originalList afterPost beforePost since page
    perPage firstPostId rest firstPost lastPostId lastPost w :
  PostList.Order originalList = firstPostId :: rest →
  PostList.Posts originalList !! firstPostId = Some firstPost →
  last (PostList.Order originalList) = Some lastPostId →
  PostList.Posts originalList !! lastPostId = Some lastPost →
  let known :=
    app.AddCursorIdsForPostList_known originalList afterPost beforePost since page perPage in
  let next := Store_Post_GetPostIdAfterTime b (Post.ChannelId firstPost)
                (Post.CreateAt firstPost) in
  let prev := Store_Post_GetPostIdBeforeTime b (Post.ChannelId lastPost)
                (Post.CreateAt lastPost) in
  app.AddCursorIdsForPostList b originalList afterPost beforePost since page perPage w
  = (Returns (PostList.mk (PostList.Order originalList) (PostList.Posts originalList)
                (if known.1.2 then known.2 else next.1)
                (if known.1.1.1 then known.1.1.2 else prev.1)),
     with_events
       ((if known.1.2 then []
         else warning_of next.2 "GetNextPostIdFromPostList: failed in getting next post")
        ++ (if known.1.1.1 then []
            else warning_of prev.2
                   "GetPrevPostIdFromPostList: failed in getting previous post")) w).
Proof.
  intros Hfirst Hfirstp Hlast Hlastp known next prev.
  unfold app.AddCursorIdsForPostList. fold known.
  destruct known as [[[prevPostIdSet prevPostId] nextPostIdSet] nextPostId]. simpl.
  destruct nextPostIdSet; simpl.
  - erewrite bind_Returns by apply ret_run. destruct prevPostIdSet; simpl.
    + by rewrite with_events_nil.
    + erewrite bind_Returns by (by eapply GetPrevPostIdFromPostList_run). reflexivity.
  - erewrite bind_Returns by (by eapply GetNextPostIdFromPostList_run).
    destruct prevPostIdSet; simpl.
    + by rewrite app_nil_r.
    + erewrite bind_Returns by (by eapply GetPrevPostIdFromPostList_run).
      by rewrite ret_run, with_events_app.
Qed.

(** X18.  When no cursor is known in advance ([since] is not positive, and
    either no anchor is given or the page is not the first and is full), and
    the first and the last identifier of the order have a post in the list,
    [AddCursorIdsForPostList] sets [NextPostId] to what the store answers
    for the channel and the creation time of the first post and [PrevPostId]
    to what it answers for those of the last post.  A failed lookup is not an
    error of the call: it leaves one warning in the log, and the identifier
    that came with the error is the cursor. *)
Theorem AddCursorIdsForPostList_lookups b originalList afterPost beforePost since page
    perPage firstPostId rest firstPost lastPostId lastPost w :
  (since ≤ 0)%Z →
  (afterPost = "" ∧ beforePost = "")
  ∨ (page ≠ 0%Z ∧ (perPage ≤ Z.of_nat (length (PostList.Order originalList)))%Z) →
  PostList.Order originalList = firstPostId :: rest →
  PostList.Posts originalList !! firstPostId = Some firstPost →
  last (PostList.Order originalList) = Some lastPostId →
  PostList.Posts originalList !! lastPostId = Some lastPost →
  let next := Store_Post_GetPostIdAfterTime b (Post.ChannelId firstPost)
                (Post.CreateAt firstPost) in
  let prev := Store_Post_GetPostIdBeforeTime b (Post.ChannelId lastPost)
                (Post.CreateAt lastPost) in
  app.AddCursorIdsForPostList b originalList afterPost beforePost since page perPage w
  = (Returns (PostList.mk (PostList.Order originalList) (PostList.Posts originalList)
                next.1 prev.1),
     with_events
       (warning_of next.2 "GetNextPostIdFromPostList: failed in getting next post"
        ++ warning_of prev.2 "GetPrevPostIdFromPostList: failed in getting previous post")
       w).
Proof.
  intros Hsince Hunknown Hfirst Hfirstp Hlast Hlastp next prev.
  rewrite (AddCursorIdsForPostList_run b originalList afterPost beforePost since page
             perPage firstPostId rest firstPost lastPostId lastPost w Hfirst Hfirstp Hlast
             Hlastp).
  assert (Hknown : app.AddCursorIdsForPostList_known originalList afterPost beforePost
                     since page perPage = (false, "", false, "")).
  { unfold app.AddCursorIdsForPostList_known.
    rewrite bool_decide_eq_false_2 by lia.
    destruct Hunknown as [[-> ->]|[Hpage Hfull]]; [done|].
    destruct (decide (page = 0%Z)); [done|].
    rewrite bool_decide_eq_false_2 by lia.
    destruct (decide (afterPost ≠ "")); [done|]. by destruct (decide (beforePost ≠ "")). }
  rewrite Hknown. reflexivity.
Qed.

Lemma AddCursorIdsForPostList_lookups_witness :
  app.AddCursorIdsForPostList Desk.b Desk.page "" "" 0 0 10 Desk.w
  = (Returns (PostList.mk ["p1"] (PostList.Posts Desk.page) "p2" ""),
     with_events [EvLog LWarn "GetPrevPostIdFromPostList: failed in getting previous post"]
       Desk.w).
Proof.
  apply (AddCursorIdsForPostList_lookups Desk.b Desk.page "" "" 0 0 10 "p1" []
           (Fixture.post "p1" "hello" "") "p1" (Fixture.post "p1" "hello" "") Desk.w).
  - lia.
  - left. split; reflexivity.
  - reflexivity.
  - reflexivity.
  - reflexivity.
  - reflexivity.
Defined.

(** X19.  Without [since] and without anchors, [AddCursorIdsForPostList]
    leaves both cursors empty for a list with an empty order, without a
    query; and it panics, before any effect, on a list whose first
    identifier has no post in the map of the list. *)
Theorem AddCursorIdsForPostList_edges b originalList since page perPage w :
  (since ≤ 0)%Z →
  (PostList.Order originalList = [] →
   app.AddCursorIdsForPostList b originalList "" "" since page perPage w
   = (Returns (PostList.mk [] (PostList.Posts originalList) "" ""), w))
  ∧ (∀ firstPostId rest,
       PostList.Order originalList = firstPostId :: rest →
       PostList.Posts originalList !! firstPostId = None →
       ∃ reason,
         app.AddCursorIdsForPostList b originalList "" "" since page perPage w
         = (Panics reason, w)).
Proof.
  intros Hsince. unfold app.AddCursorIdsForPostList, app.AddCursorIdsForPostList_known.
  rewrite bool_decide_eq_false_2 by lia. simpl.
  unfold app.GetNextPostIdFromPostList, app.GetPrevPostIdFromPostList.
  split.
  - intros ->. reflexivity.
  - intros firstPostId rest -> ->. by eexists.
Qed.

Lemma AddCursorIdsForPostList_edges_witness :
  app.AddCursorIdsForPostList Desk.b PostList.NewPostList "" "" 0 0 10 Desk.w
  = (Returns (PostList.mk [] (PostList.Posts PostList.NewPostList) "" ""), Desk.w)
  ∧ ∃ reason,
      app.AddCursorIdsForPostList Desk.b Desk.dangling "" "" 0 0 10 Desk.w
      = (Panics reason, Desk.w).
Proof.
  split.
  - apply (AddCursorIdsForPostList_edges Desk.b PostList.NewPostList 0 0 10 Desk.w);
      [lia|reflexivity].
  - apply (proj2 (AddCursorIdsForPostList_edges Desk.b Desk.dangling 0 0 10 Desk.w
                    ltac:(lia)) "p9" []); reflexivity.
Defined.

(** X20.  [PatchPost] never panics and never touches the deduplication
    cache, and its runs have the shape of the runs of [UpdatePost]: no
    effect, or the store update that failed, when it answers with an error;
    one committed update followed by the broadcast and the invalidation when
    it answers with a post.  In a deleted channel it fails with the
    bad-request error [can_not_update_post_in_deleted] and has no effect; in
    a live channel it is [UpdatePost], without the safe-update flag, of the
    stored post with the patch applied. *)
Theorem PatchPost_outcome a b postId patch w :
  ∃ evs,
    events (app.PatchPost a b postId patch w).2 = events w ++ evs
    ∧ seenPendingPostIdsCache (app.PatchPost a b postId patch w).2
      = seenPendingPostIdsCache w
    ∧ UpdatePost_run a (app.PatchPost a b postId patch w).1 evs
    ∧ (∀ post channel,
         app.GetSinglePost a postId = Ok post →
         GetChannel a (Post.ChannelId post) = Ok channel →
         Channel.DeleteAt channel ≠ 0%Z →
         app.PatchPost a b postId patch w
         = (Returns (Err (NewAppError "PatchPost"
                            "api.post.patch_post.can_not_update_post_in_deleted.error"
                            [] "" StatusBadRequest)), w))
    ∧ (∀ post channel,
         app.GetSinglePost a postId = Ok post →
         GetChannel a (Post.ChannelId post) = Ok channel →
         Channel.DeleteAt channel = 0%Z →
         app.PatchPost a b postId patch w
         = app.UpdatePost a (Post_Patch b post patch) false w).
Proof.
  unfold app.PatchPost.
  destruct (app.GetSinglePost a postId) as [post|err] eqn:Hpost.
  2:{ exists []. rewrite app_nil_r. split; [done|]. split; [done|].
      split; [constructor|]. split; intros post' channel' Hp; discriminate Hp. }
  destruct (GetChannel a (Post.ChannelId post)) as [channel|err] eqn:Hchannel.
  2:{ exists []. rewrite app_nil_r. split; [done|]. split; [done|].
      split; [constructor|].
      split; intros post' channel' Hp Hc; inversion Hp; subst; congruence. }
  case_decide as Hdel.
  { exists []. rewrite app_nil_r. split; [done|]. split; [done|]. split; [constructor|].
    split.
    - done.
    - intros post' channel' Hp Hc Hlive. inversion Hp; subst.
      rewrite Hchannel in Hc. inversion Hc; subst. done. }
  assert (Hsame : (app.UpdatePost a (Post_Patch b post patch) false
                   ≫= λ updated : Result Post.t,
                        match updated with
                        | Ok updatedPost => mret (Ok updatedPost)
                        | Err err => mret (Err err)
                        end) w
                  = app.UpdatePost a (Post_Patch b post patch) false w).
  { unfold mbind, M_bind, bind.
    destruct (app.UpdatePost a (Post_Patch b post patch) false w) as [[[r|err]|reason] w'];
      reflexivity. }
  rewrite Hsame.
  destruct (UpdatePost_shape a (Post_Patch b post patch) false w)
    as (out & evs & n & Hrun & Hshape).
  exists evs. rewrite Hrun. simpl. rewrite events_iter_tick, cache_iter_tick.
  split; [done|]. split; [done|]. split; [done|]. split.
  - intros post' channel' Hp Hc Hdead. inversion Hp; subst.
    rewrite Hchannel in Hc. inversion Hc; subst. done.
  - intros post' channel' Hp Hc _. inversion Hp; subst. by rewrite Hrun.
Qed.

Lemma Extend_loop_Order ids other o id :
  id ∈ PostList.Order o → id ∈ PostList.Order (PostList.Extend_loop ids other o).
Proof.
  revert o. induction ids as [|postId rest IH]; intros o Hin; [done|].
  simpl. destruct (PostList.Posts o !! postId), (PostList.Posts other !! postId);
    apply IH; try done.
  simpl. apply elem_of_app. by left.
Qed.

(** X21.  For a member of the channel, [GetPostsForChannelAroundLastUnread]
    succeeds with the empty post list when the member never viewed the
    channel ([LastViewedAt] is 0) and when the store finds no post after the
    time of the last view; it fails with the error of that lookup when the
    lookup fails.  When the store finds a post, a list that is returned holds
    the identifier of that post in its order, and its order is sorted by
    creation time; an error that is returned is the error of one of the three
    reads of the store: the thread of the post, the posts before it
    ([limitBefore] of them), the posts after it ([limitAfter - 1]). *)
Theorem GetPostsForChannelAroundLastUnread_outcome a b dir channelId userId
    limitBefore limitAfter member :
  GetChannelMember b channelId userId = Ok member →
  let viewed := ChannelMember.LastViewedAt member in
  let unread := Store_Post_GetPostIdAfterTime b channelId viewed in
  let answer :=
    app.GetPostsForChannelAroundLastUnread a b dir channelId userId limitBefore limitAfter in
  (viewed = 0%Z ∨ unread = ("", None) → answer = Ok PostList.NewPostList)
  ∧ (viewed ≠ 0%Z → ∀ err, unread.2 = Some err → answer = Err err)
  ∧ (viewed ≠ 0%Z → unread.1 ≠ "" → unread.2 = None →
     match answer with
     | Ok postList =>
         unread.1 ∈ PostList.Order postList
         ∧ StronglySorted (PostList.before dir postList) (PostList.Order postList)
     | Err err =>
         Store_Post_Get a unread.1 = Err err
         ∨ Store_Post_GetPostsBefore b channelId unread.1 limitBefore 0 = Err err
         ∨ Store_Post_GetPostsAfter b channelId unread.1 (sub64 limitAfter 1) 0 = Err err
     end).
Proof.
  intros Hmember viewed unread answer.
  unfold answer, app.GetPostsForChannelAroundLastUnread, app.GetPostIdAfterTime.
  rewrite Hmember. fold viewed unread. split; [|split].
  - intros Hnone. case_decide as Hviewed; [done|].
    destruct Hnone as [?|Hnone]; [done|]. rewrite Hnone. by rewrite decide_True.
  - intros Hviewed err Herr. rewrite decide_False by done.
    destruct unread as [lastUnreadPostId [err'|]]; simpl in Herr; by inversion Herr.
  - intros Hviewed. rewrite decide_False by done.
    destruct unread as [lastUnreadPostId [err'|]]; simpl; [done|]. intros Hid _.
    rewrite decide_False by done.
    unfold app.GetPostThread, app.GetPostsBeforePost, app.GetPostsAfterPost,
      app.PAGE_DEFAULT.
    assert (Hzero : ∀ perPage, mul64 0 perPage = 0%Z) by (intros perPage; reflexivity).
    rewrite !Hzero.
    destruct (Store_Post_Get a lastUnreadPostId) as [postList|err]; [|by left].
    destruct (Store_Post_GetPostsBefore b _ _ _ _) as [postListBefore|err];
      [|by right; left].
    destruct (Store_Post_GetPostsAfter b _ _ _ _) as [postListAfter|err];
      [|by right; right].
    match goal with |- context [PostList.SortByCreateAt dir ?o] => set (merged := o) end.
    assert (Hin : lastUnreadPostId ∈ PostList.Order merged).
    { unfold merged.
      assert (H0 : lastUnreadPostId
                   ∈ PostList.Order (PostList.set_Order [lastUnreadPostId] postList))
        by (simpl; apply list_elem_of_here).
      destruct postListBefore as [before|], postListAfter as [after|];
        unfold PostList.Extend; repeat apply Extend_loop_Order; exact H0. }
    split.
    + simpl. by rewrite merge_sort_Permutation.
    + apply (StronglySorted_merge_sort (PostList.before dir merged)).
Qed.

Lemma GetPostsForChannelAroundLastUnread_outcome_witness :
  match app.GetPostsForChannelAroundLastUnread Desk.a Desk.b PostList.OldestFirst "c1" "u1"
          10 10 with
  | Ok postList =>
      "p1" ∈ PostList.Order postList
      ∧ StronglySorted (PostList.before PostList.OldestFirst postList)
          (PostList.Order postList)
  | Err err =>
      Store_Post_Get Desk.a "p1" = Err err
      ∨ Store_Post_GetPostsBefore Desk.b "c1" "p1" 10 0 = Err err
      ∨ Store_Post_GetPostsAfter Desk.b "c1" "p1" (sub64 10 1) 0 = Err err
  end
  ∧ app.GetPostsForChannelAroundLastUnread Desk.a Desk.b PostList.OldestFirst "c1" "u2"
      10 10
    = Ok PostList.NewPostList.
Proof.
  split.
  - apply (GetPostsForChannelAroundLastUnread_outcome Desk.a Desk.b PostList.OldestFirst
             "c1" "u1" 10 10 (ChannelMember.mk 500)); [reflexivity|discriminate..|reflexivity].
  - apply (GetPostsForChannelAroundLastUnread_outcome Desk.a Desk.b PostList.OldestFirst
             "c1" "u2" 10 10 (ChannelMember.mk 0)); [reflexivity|]. by left.
Defined.

(** ** The search of a user *)

Lemma with_events_convert_logs a userId teamId includeDeletedChannels params w :
  with_events
    (replicate
       (length (filter (λ username, isErr (GetUserByUsername a username) = true)
                  (SearchParams.ExcludedUsers params)))
       (EvLog LError "error getting user by username"))
    (with_events
       (replicate
          (length (filter (λ username, isErr (GetUserByUsername a username) = true)
                     (SearchParams.FromUsers params)))
          (EvLog LError "error getting user by username"))
       (with_events
          (replicate
             (length (filter (unresolved_channel a userId teamId includeDeletedChannels)
                        (SearchParams.ExcludedChannels params)))
             (EvLog LError "error getting channel id by name from in filter"))
          (with_events
             (replicate
                (length (filter (unresolved_channel a userId teamId includeDeletedChannels)
                           (SearchParams.InChannels params)))
                (EvLog LError "error getting channel id by name from in filter"))
             w)))
  = with_events (convert_logs a userId teamId includeDeletedChannels params) w.
Proof. by rewrite !with_events_app. Qed.

Lemma esSearchPostsInTeamForUser_written_run a paramsList userId teamId isOrSearch
    includeDeletedChannels finalParamsList w :
  ∃ logs,
    app.esSearchPostsInTeamForUser_written a paramsList userId teamId isOrSearch
      includeDeletedChannels w
    = (Returns (written_params a userId teamId isOrSearch includeDeletedChannels
                  <$> paramsList),
       with_events logs w)
    ∧ app.esSearchPostsInTeamForUser_params a paramsList userId teamId isOrSearch
        includeDeletedChannels finalParamsList w
      = (Returns (finalParamsList
                  ++ filter (λ params, SearchParams.Terms params ≠ "*")
                       (written_params a userId teamId isOrSearch includeDeletedChannels
                          <$> paramsList)),
         with_events logs w)
    ∧ Forall (λ ev, is_log ev = true) logs.
Proof.
  revert finalParamsList w.
  induction paramsList as [|params rest IH]; intros finalParamsList w.
  - exists []. simpl. rewrite app_nil_r, with_events_nil. split; [done|]. split; [done|].
    constructor.
  - simpl. unfold written_params at 1 3. simpl. case_decide as Hterm.
    + rewrite filter_cons_True by done.
      destruct (IH (finalParamsList
                    ++ [index_params a userId teamId isOrSearch includeDeletedChannels
                          params])
                  (with_events (convert_logs a userId teamId includeDeletedChannels params)
                     w))
        as (logs & Hwritten & Hparams & Hlogs).
      exists (convert_logs a userId teamId includeDeletedChannels params ++ logs).
      split; [|split].
      * do 2 (erewrite bind_Returns by apply convertChannelNamesToChannelIds_run).
        do 2 (erewrite bind_Returns by apply convertUserNameToUserIds_run).
        simpl. rewrite with_events_convert_logs.
        erewrite bind_Returns by exact Hwritten.
        by rewrite ret_run, with_events_app.
      * do 2 (erewrite bind_Returns by apply convertChannelNamesToChannelIds_run).
        do 2 (erewrite bind_Returns by apply convertUserNameToUserIds_run).
        simpl. rewrite with_events_convert_logs.
        etrans; [exact Hparams|].
        by rewrite with_events_app, <- (assoc_L (++)).
      * apply Forall_app. split; [|exact Hlogs].
        unfold convert_logs.
        repeat (apply Forall_app; split); apply Forall_is_log_replicate.
    + rewrite filter_cons_False by (simpl; intros Hne; by apply Hne).
      destruct (IH finalParamsList w) as (logs & Hwritten & Hparams & Hlogs).
      erewrite bind_Returns by exact Hwritten. rewrite Hparams.
      exists logs. by rewrite ret_run.
Qed.

(** The two embeddings of [esSearchPostsInTeamForUser] agree. *)
Lemma esSearchPostsInTeamForUser_inplace_run a paramsList userId teamId isOrSearch
    includeDeletedChannels page perPage w :
  ∃ res w',
    app.esSearchPostsInTeamForUser a paramsList userId teamId isOrSearch
      includeDeletedChannels page perPage w = (Returns res, w')
    ∧ app.esSearchPostsInTeamForUser_inplace a paramsList userId teamId isOrSearch
        includeDeletedChannels page perPage w
      = (Returns (written_params a userId teamId isOrSearch includeDeletedChannels
                    <$> paramsList, res), w').
Proof.
  unfold app.esSearchPostsInTeamForUser, app.esSearchPostsInTeamForUser_inplace.
  destruct (esSearchPostsInTeamForUser_written_run a paramsList userId teamId isOrSearch
              includeDeletedChannels [] w) as (logs & Hwritten & Hparams & _).
  erewrite !bind_Returns by (exact Hwritten || exact Hparams).
  simpl. unfold app.esSearchPostsInTeamForUser_search.
  case_bool_decide; [by eexists _, _|].
  destruct (GetChannelsForUser a _ _ _) as [userChannels|err].
  - destruct (Elasticsearch_SearchPosts a _ _ _ _) as [[postIds matches]|err];
      [|by eexists _, _].
    case_bool_decide; [|by eexists _, _].
    destruct (Store_Post_GetPostsByIds a postIds); by eexists _, _.
  - erewrite !bind_Returns by apply emit_run. by eexists _, _.
Qed.

(** X22.  [SearchPostsInTeamForUser] searches nothing, and has no effect,
    when post search is disabled (it fails with status 501) and when the
    index is disabled and a page after the first is asked for (it succeeds
    with empty results: the search of the store has no pages). *)
Theorem SearchPostsInTeamForUser_nothing_searched a b dir schedule terms userId teamId
    isOrSearch includeDeletedChannels timeZoneOffset page perPage w :
  EnablePostSearch a = false ∨ (IsESSearchEnabled a = false ∧ (page > 0)%Z) →
  app.SearchPostsInTeamForUser a b dir schedule terms userId teamId isOrSearch
    includeDeletedChannels timeZoneOffset page perPage w
  = (Returns (nothing_searched a userId teamId), w).
Proof.
  unfold app.SearchPostsInTeamForUser, nothing_searched.
  intros [Hoff|[Hes Hpage]].
  - by rewrite Hoff.
  - destruct (EnablePostSearch a); [|done]. simpl. rewrite Hes.
    erewrite bind_Returns by apply ret_run. simpl.
    by rewrite bool_decide_eq_true_2.
Qed.

Lemma SearchPostsInTeamForUser_nothing_searched_witness :
  app.SearchPostsInTeamForUser Desk.a_store_only Desk.b PostList.OldestFirst [0] "alpha"
    "u1" "t1" false false 0 1 10 Desk.w
  = (Returns (Ok (MakePostSearchResults PostList.NewPostList None)), Desk.w).
Proof.
  apply (SearchPostsInTeamForUser_nothing_searched Desk.a_store_only Desk.b
           PostList.OldestFirst [0] "alpha" "u1" "t1" false false 0 1 10 Desk.w).
  right. split; [reflexivity|lia].
Defined.

(** X23.  When post search and the index are enabled and the search of the
    index succeeds on the parsed terms, [SearchPostsInTeamForUser] answers
    with its results and adds no effect: the store is not searched. *)
Theorem SearchPostsInTeamForUser_index a b dir schedule terms userId teamId
    isOrSearch includeDeletedChannels timeZoneOffset page perPage w results w' :
  EnablePostSearch a = true →
  IsESSearchEnabled a = true →
  app.esSearchPostsInTeamForUser a
    (ParseSearchParams b (strings_TrimSpace b terms) timeZoneOffset) userId teamId
    isOrSearch includeDeletedChannels page perPage w = (Returns (Ok results), w') →
  app.SearchPostsInTeamForUser a b dir schedule terms userId teamId isOrSearch
    includeDeletedChannels timeZoneOffset page perPage w
  = (Returns (Ok results), w').
Proof.
  intros Hon Hes Hrun. unfold app.SearchPostsInTeamForUser. rewrite Hon, Hes. simpl.
  destruct (esSearchPostsInTeamForUser_inplace_run a
              (ParseSearchParams b (strings_TrimSpace b terms) timeZoneOffset) userId teamId
              isOrSearch includeDeletedChannels page perPage w)
    as (res & w1 & Hes1 & Hinplace).
  rewrite Hrun in Hes1. inversion Hes1; subst res w1.
  erewrite bind_Returns.
  2:{ erewrite bind_Returns by exact Hinplace. cbv beta iota. simpl.
      erewrite bind_Returns by apply ret_run. apply ret_run. }
  reflexivity.
Qed.

Lemma SearchPostsInTeamForUser_index_witness :
  app.SearchPostsInTeamForUser Index.a Desk.b PostList.OldestFirst [0] "hello" "u1" "t1"
    false false 0 0 10 Index.w
  = (Returns (Ok Index.results), Index.w).
Proof.
  apply (SearchPostsInTeamForUser_index Index.a Desk.b PostList.OldestFirst [0] "hello"
           "u1" "t1" false false 0 0 10 Index.w Index.results Index.w).
  - reflexivity.
  - reflexivity.
  - vm_compute. reflexivity.
Defined.

(** X24.  When the search of the index fails, [SearchPostsInTeamForUser]
    logs one error and falls back: for a page after the first it succeeds
    with empty results; for the first page it searches the store with the
    specifications as the failed attempt left them (channel and user names
    already replaced by identifiers where they resolved), not with the
    parsed ones, and answers with the posts found, or with the error of the
    store. *)
Theorem SearchPostsInTeamForUser_fallback a b dir schedule terms userId teamId
    isOrSearch includeDeletedChannels timeZoneOffset page perPage w err w' :
  EnablePostSearch a = true →
  IsESSearchEnabled a = true →
  app.esSearchPostsInTeamForUser a
    (ParseSearchParams b (strings_TrimSpace b terms) timeZoneOffset) userId teamId
    isOrSearch includeDeletedChannels page perPage w = (Returns (Err err), w') →
  let w1 :=
    with_events
      [EvLog LError
         "Encountered error on SearchPostsInTeamForUser through Elasticsearch. Falling back to default search."]
      w' in
  app.SearchPostsInTeamForUser a b dir schedule terms userId teamId isOrSearch
    includeDeletedChannels timeZoneOffset page perPage w
  = if bool_decide (page > 0)%Z then
      (Returns (Ok (MakePostSearchResults PostList.NewPostList None)), w1)
    else
      match app.searchPostsInTeam a dir schedule teamId userId
              (written_params a userId teamId isOrSearch includeDeletedChannels
                 <$> ParseSearchParams b (strings_TrimSpace b terms) timeZoneOffset)
              (app.SearchPostsInTeamForUser_modifier a userId teamId isOrSearch
                 includeDeletedChannels
                 (includeDeletedChannels && ExperimentalViewArchivedChannels a)) w1 with
      | (Returns (Ok posts), w2) => (Returns (Ok (MakePostSearchResults posts None)), w2)
      | (Returns (Err err), w2) => (Returns (Err err), w2)
      | (Panics reason, w2) => (Panics reason, w2)
      end.
Proof.
  intros Hon Hes Hrun w1. unfold app.SearchPostsInTeamForUser. rewrite Hon, Hes. simpl.
  destruct (esSearchPostsInTeamForUser_inplace_run a
              (ParseSearchParams b (strings_TrimSpace b terms) timeZoneOffset) userId teamId
              isOrSearch includeDeletedChannels page perPage w)
    as (res & w0 & Hes1 & Hinplace).
  rewrite Hrun in Hes1. inversion Hes1; subst res w0.
  erewrite bind_Returns.
  2:{ erewrite bind_Returns by exact Hinplace. cbv beta iota. simpl.
      erewrite bind_Returns by apply emit_run. apply ret_run. }
  cbv beta iota. fold w1. case_bool_decide; [done|].
  unfold mbind at 1, M_bind at 1, bind.
  destruct (app.searchPostsInTeam _ _ _ _ _ _ _ w1) as [[[posts|err']|reason] w2];
    reflexivity.
Qed.

Lemma SearchPostsInTeamForUser_fallback_witness :
  app.SearchPostsInTeamForUser Desk.a_index_down Desk.b PostList.OldestFirst [0] "alpha"
    "u1" "t1" true false 0 0 10 Desk.w
  = (Returns (Ok (MakePostSearchResults
                    (PostList.mk ["A"; "C"] {[ "A" := Search.pA; "C" := Search.pC ]} "" "")
                    None)),
     with_events
       [EvLog LError
          "Encountered error on SearchPostsInTeamForUser through Elasticsearch. Falling back to default search.";
        EvSearch "t1" "u1" (SearchParams.set_OrTerms true (Search.params "alpha"))]
       Desk.w).
Proof.
  rewrite (SearchPostsInTeamForUser_fallback Desk.a_index_down Desk.b PostList.OldestFirst
             [0] "alpha" "u1" "t1" true false 0 0 10 Desk.w Desk.indexDown Desk.w).
  - vm_compute. reflexivity.
  - reflexivity.
  - reflexivity.
  - vm_compute. reflexivity.
Defined.

(** ** The effects of the other functions *)

Lemma effect_run ef s : effect ef s = (Returns tt, with_trace [ef] s).
Proof. reflexivity. Qed.

Lemma N_ret_run {A} (x : A) s : (mret x : N A) s = (Returns x, s).
Proof. reflexivity. Qed.

Lemma N_bind_Returns {A B} (m : N A) (k : A → N B) s x s1 :
  m s = (Returns x, s1) → (m ≫= k) s = k x s1.
Proof. intros H. unfold mbind, N_mbind, N_bind. by rewrite H. Qed.

Lemma N_bind_Panics {A B} (m : N A) (k : A → N B) s reason s1 :
  m s = (Panics reason, s1) → (m ≫= k) s = (Panics reason, s1).
Proof. intros H. unfold mbind, N_mbind, N_bind. by rewrite H. Qed.

Lemma lift_M_run {A} (m : M A) s out w evs :
  m (world s) = (out, w) → events w = events (world s) ++ evs →
  lift_M m s = (out, lifted w evs s).
Proof.
  intros Hrun Hevs. unfold lift_M, lifted. rewrite Hrun, Hevs.
  by rewrite drop_app_length.
Qed.

Lemma lift_M_emit ev s :
  lift_M (emit ev) s = (Returns tt, lifted (with_events [ev] (world s)) [ev] s).
Proof. by apply lift_M_run. Qed.

Lemma lift_M_GetMillis a s :
  lift_M (app.GetMillis a) s = (Returns (now_of a (world s)), lifted (tick (world s)) [] s).
Proof. apply lift_M_run; [done|]. simpl. by rewrite app_nil_r. Qed.

Lemma with_trace_nil s : with_trace [] s = s.
Proof. destruct s. unfold with_trace. simpl. by rewrite app_nil_r. Qed.

Lemma with_trace_app efs1 efs2 s :
  with_trace efs2 (with_trace efs1 s) = with_trace (efs1 ++ efs2) s.
Proof. unfold with_trace. simpl. by rewrite (assoc_L (++)). Qed.

Lemma lifted_lifted w1 evs1 w2 evs2 s :
  lifted w2 evs2 (lifted w1 evs1 s) = lifted w2 (evs1 ++ evs2) s.
Proof. unfold lifted. simpl. by rewrite fmap_app, (assoc_L (++)). Qed.

(** X25.  [DeletePost] never panics and never touches the deduplication
    cache.  When it answers with a post, this is the stored post, the store
    has accepted the deletion, and the effects are exactly: the deletion, the
    broadcast of the deletion to the channel of the post, the hand-over of
    the cleanup of the files and of the flagged-post preferences (and of the
    index entry, exactly when indexing is enabled), and the invalidation of
    the post cache of the channel.  When it answers with an error it had no
    effect, or its only effect is the deletion that the store refused with
    that error.  A post that the store does not find gives the error of the
    store with status 400; a post in a deleted channel gives
    [can_not_delete_post_in_deleted], before any effect. *)
Theorem DeletePost_outcome a b postId deleteByID s :
  let now := now_of a (world s) in
  ∃ out efs s',
    app.DeletePost a b postId deleteByID s = (Returns out, s')
    ∧ trace s' = trace s ++ efs
    ∧ drawn s' = drawn s
    ∧ seenPendingPostIdsCache (world s') = seenPendingPostIdsCache (world s)
    ∧ match out with
      | Ok post =>
          Store_Post_GetSingle a postId = Ok post
          ∧ Store_Post_Delete b postId now deleteByID = None
          ∧ efs = DeletePost_effects a b post postId now deleteByID
      | Err err =>
          efs = []
          ∨ (Store_Post_Delete b postId now deleteByID = Some err
             ∧ efs = [EfPostDelete postId now deleteByID (Some err)])
      end
    ∧ (∀ err, Store_Post_GetSingle a postId = Err err →
         out = Err (AppError_set_StatusCode StatusBadRequest err))
    ∧ (∀ post channel,
         Store_Post_GetSingle a postId = Ok post →
         GetChannel a (Post.ChannelId post) = Ok channel →
         Channel.DeleteAt channel ≠ 0%Z →
         out = Err (NewAppError "DeletePost"
                      "api.post.delete_post.can_not_delete_post_in_deleted.error" [] ""
                      StatusBadRequest)
         ∧ efs = []).
Proof.
  intros now. unfold app.DeletePost.
  destruct (Store_Post_GetSingle a postId) as [post|err] eqn:Hpost.
  2:{ eexists _, [], s. rewrite app_nil_r. split_and!; try done.
      - by left.
      - intros err' Heq. by inversion Heq. }
  destruct (GetChannel a (Post.ChannelId post)) as [channel|err] eqn:Hchannel.
  2:{ eexists _, [], s. rewrite app_nil_r. split_and!; try done.
      - by left.
      - intros post' channel' Hp Hc. inversion Hp; subst post'. by rewrite Hchannel in Hc. }
  case_decide as Hdel.
  { eexists _, [], s. rewrite app_nil_r. split_and!; try done. by left. }
  assert (Hlive : ∀ post' channel',
            Ok post = Ok post' → GetChannel a (Post.ChannelId post') = Ok channel' →
            Channel.DeleteAt channel' = 0%Z).
  { intros post' channel' Hp Hc. inversion Hp; subst post'. rewrite Hchannel in Hc.
    inversion Hc; subst channel'. by destruct (decide (Channel.DeleteAt channel = 0%Z)). }
  erewrite N_bind_Returns by apply lift_M_GetMillis. fold now.
  erewrite N_bind_Returns by apply effect_run.
  destruct (Store_Post_Delete b postId now deleteByID) as [err|] eqn:Hdelete.
  { eexists _, _, _. split; [reflexivity|]. simpl. rewrite app_nil_r.
    split_and!; try done.
    - by right.
    - intros post' channel' Hp Hc Hdead. by rewrite (Hlive post' channel' Hp Hc) in Hdead. }
  erewrite N_bind_Returns by apply lift_M_emit.
  do 2 (erewrite N_bind_Returns by apply effect_run).
  assert (Hes : ∀ s0,
            N_when (IsESIndexingEnabled a) (effect (EfGo (JobElasticsearchDeletePost post))) s0
            = (Returns tt,
               with_trace (if IsESIndexingEnabled a
                           then [EfGo (JobElasticsearchDeletePost post)] else []) s0)).
  { intros s0. destruct (IsESIndexingEnabled a); [done|]. by rewrite with_trace_nil. }
  erewrite N_bind_Returns by apply Hes.
  erewrite N_bind_Returns by apply lift_M_emit.
  eexists _, _, _. split; [reflexivity|]. simpl. rewrite app_nil_r.
  split_and!; try done.
  - unfold DeletePost_effects. by rewrite <- !(assoc_L (++)).
  - intros post' channel' Hp Hc Hdead. by rewrite (Hlive post' channel' Hp Hc) in Hdead.
Qed.

Lemma lifted_nil s : lifted (with_events [] (world s)) [] s = s.
Proof.
  unfold lifted. simpl. rewrite app_nil_r. destruct s as [w n t]. simpl. f_equal.
  destruct w. unfold with_events. simpl. by rewrite app_nil_r.
Qed.

Lemma effect_then_log (err : option AppError.t) level msg ef s :
  (effect ef;; N_when (bool_decide (is_Some err)) (lift_M (mlog level msg))) s
  = (Returns tt,
     lifted (with_events (match err with Some _ => [EvLog level msg] | None => [] end)
               (world s))
       (match err with Some _ => [EvLog level msg] | None => [] end) (with_trace [ef] s)).
Proof.
  erewrite N_bind_Returns by apply effect_run.
  destruct err as [err|]; simpl.
  - unfold mlog. by rewrite lift_M_emit.
  - unfold N_ret. f_equal. symmetry. apply (lifted_nil (with_trace [ef] s)).
Qed.

(** X26.  Each cleanup job that [DeletePost] hands to the background returns
    without a panic and issues at most one write: [DeletePostFiles] deletes
    the file infos of the post, and does nothing at all for a post without
    files; [DeleteFlaggedPosts] deletes the flagged-post preference named by
    the post; the third job deletes the post from the index.  A write that
    fails leaves one line in the log and nothing else. *)
Theorem DeletePost_cleanup b job s :
  ∃ logs,
    app.DeletePost_job b job s
    = (Returns tt,
       lifted (with_events logs (world s)) logs (with_trace (option_list (job_write b job)) s))
    ∧ Forall (λ ev, is_log ev = true) logs
    ∧ length logs = match job_write b job ≫= effect_error with
                    | Some _ => 1
                    | None => 0
                    end.
Proof.
  destruct job as [post|postId|post]; simpl.
  - unfold app.DeletePostFiles. destruct (Post.FileIds post) as [|fileId rest] eqn:Hfiles.
    + simpl. exists []. rewrite with_trace_nil, lifted_nil. split; [done|].
      split; [constructor|done].
    + simpl. eexists. split; [apply effect_then_log|].
      destruct (Store_FileInfo_DeleteForPost b (Post.Id post)); simpl.
      * split; [by repeat constructor|done].
      * split; [constructor|done].
  - unfold app.DeleteFlaggedPosts. eexists. split; [apply effect_then_log|].
    destruct (Store_Preference_DeleteCategoryAndName b _ postId); simpl.
    + split; [by repeat constructor|done].
    + split; [constructor|done].
  - eexists. split; [apply effect_then_log|].
    destruct (Elasticsearch_DeletePost b post); simpl.
    + split; [by repeat constructor|done].
    + split; [constructor|done].
Qed.

(** X27.  [GetPermalinkPost] answers with the thread of the post only after
    the user has joined the channel of the post: the join is its only
    effect, it is attempted at most once, and a failed join is the answer.
    For a thread whose order is not a single identifier it fails with status
    404, without an effect; it panics, without an effect, when that
    identifier has no post in the map of the thread. *)
Theorem GetPermalinkPost_outcome a b postId userId s :
  match app.GetPermalinkPost a b postId userId s with
  | (Returns (Ok list), s') =>
      Store_Post_Get a postId = Ok list
      ∧ ∃ id post channel,
          PostList.Order list = [id]
          ∧ PostList.Posts list !! id = Some post
          ∧ GetChannel a (Post.ChannelId post) = Ok channel
          ∧ JoinChannel b channel userId = None
          ∧ s' = with_trace [EfJoinChannel channel userId None] s
  | (Returns (Err err), s') =>
      s' = s
      ∨ ∃ channel,
          JoinChannel b channel userId = Some err
          ∧ s' = with_trace [EfJoinChannel channel userId (Some err)] s
  | (Panics reason, s') =>
      s' = s
      ∧ ∃ list id,
          Store_Post_Get a postId = Ok list
          ∧ PostList.Order list = [id]
          ∧ PostList.Posts list !! id = None
  end
  ∧ (∀ list,
       Store_Post_Get a postId = Ok list →
       length (PostList.Order list) ≠ 1 →
       app.GetPermalinkPost a b postId userId s
       = (Returns (Err (NewAppError "getPermalinkTmp"
                          "api.post_get_post_by_id.get.app_error" [] "" StatusNotFound)),
          s)).
Proof.
  unfold app.GetPermalinkPost.
  destruct (Store_Post_Get a postId) as [list|err] eqn:Hlist.
  2:{ split; [by left|]. intros list' Heq. discriminate Heq. }
  destruct (PostList.Order list) as [|id [|id' rest]] eqn:Horder.
  - split; [by left|]. intros list' Heq _. done.
  - split.
    2:{ intros list' Heq Hlen. inversion Heq; subst list'. by rewrite Horder in Hlen. }
    destruct (PostList.Posts list !! id) as [post|] eqn:Hpost.
    2:{ split; [done|]. by exists list, id. }
    destruct (GetChannel a (Post.ChannelId post)) as [channel|err] eqn:Hchannel.
    2:{ by left. }
    erewrite N_bind_Returns by apply effect_run.
    destruct (JoinChannel b channel userId) as [err|] eqn:Hjoin.
    + right. by exists channel.
    + split; [done|]. by exists id, post, channel.
  - split; [by left|]. intros list' Heq _. done.
Qed.

(** X28.  [GetFileInfosForPostWithMigration] never panics.  When the store
    has file infos for the post it answers with them and has no effect,
    whether or not the post itself is found.  It migrates only when there are
    none and the post has file names: it then invalidates the file-info
    cache of the post, migrates, in this order, and answers with the migrated
    infos.  Without infos and without file names it answers with the empty
    list; the error of either read is the answer, without an effect. *)
Theorem GetFileInfosForPostWithMigration_outcome a b postId s :
  ∃ out efs,
    app.GetFileInfosForPostWithMigration a b postId s = (Returns out, with_trace efs s)
    ∧ (efs = []
       ∨ ∃ post,
           app.GetFileInfosForPost b postId false = Ok []
           ∧ Store_Post_GetSingle a postId = Ok post
           ∧ Post.Filenames post ≠ []
           ∧ efs = [EfInvalidateFileInfosForPostCache postId;
                    EfMigrateFilenamesToFileInfos post]
           ∧ out = Ok (MigrateFilenamesToFileInfos b post))
    ∧ (∀ infos,
         app.GetFileInfosForPost b postId false = Ok infos → infos ≠ [] →
         out = Ok infos ∧ efs = [])
    ∧ (∀ post,
         app.GetFileInfosForPost b postId false = Ok [] →
         Store_Post_GetSingle a postId = Ok post →
         (Post.Filenames post = [] → out = Ok [] ∧ efs = [])
         ∧ (Post.Filenames post ≠ [] → efs ≠ []))
    ∧ (∀ err,
         app.GetFileInfosForPost b postId false = Err err
         ∨ (app.GetFileInfosForPost b postId false = Ok []
            ∧ Store_Post_GetSingle a postId = Err err) →
         out = Err err ∧ efs = []).
Proof.
  unfold app.GetFileInfosForPostWithMigration.
  destruct (app.GetFileInfosForPost b postId false) as [infos|err] eqn:Hinfos.
  2:{ exists (Err err), []. rewrite with_trace_nil.
      split; [done|]. split; [by left|]. split; [done|]. split; [done|].
      intros err' [Heq|[Heq _]]; [by inversion Heq|discriminate Heq]. }
  destruct infos as [|info infos]; simpl.
  2:{ eexists _, []. rewrite with_trace_nil.
      split; [done|]. split; [by left|]. split; [|split; [done|]].
      - intros infos' Heq _. by inversion Heq.
      - intros err' [Heq|[Heq _]]; discriminate Heq. }
  destruct (Store_Post_GetSingle a postId) as [post|err] eqn:Hpost.
  2:{ exists (Err err), []. rewrite with_trace_nil.
      split; [done|]. split; [by left|]. split; [|split; [done|]].
      - intros infos' Heq Hne. by inversion Heq; subst infos'.
      - intros err' [Heq|[_ Heq]]; [discriminate Heq|by inversion Heq]. }
  destruct (Post.Filenames post) as [|name names] eqn:Hnames; simpl.
  - eexists _, []. rewrite with_trace_nil.
    split; [done|]. split; [by left|]. split; [|split].
    + intros infos' Heq Hne. by inversion Heq; subst infos'.
    + intros post' _ Heq. inversion Heq; subst post'. by rewrite Hnames.
    + intros err' [Heq|[_ Heq]]; discriminate Heq.
  - do 2 (erewrite N_bind_Returns by apply effect_run). rewrite with_trace_app. simpl.
    eexists _, _. split; [reflexivity|]. split; [|split; [|split]].
    + right. exists post. by rewrite Hnames.
    + intros infos' Heq Hne. by inversion Heq; subst infos'.
    + intros post' _ Heq. inversion Heq; subst post'. by rewrite Hnames.
    + intros err' [Heq|[_ Heq]]; discriminate Heq.
Qed.

(** ** [CreatePost] as its callers see it *)

Lemma prop_AddProp_ne key value o k :
  key ≠ k → Post.prop (Post.AddProp key value o) k = Post.prop o k.
Proof.
  intros Hne. unfold Post.prop, Post.AddProp. simpl. rewrite lookup_insert_ne by done.
  by destruct (Post.Props o).
Qed.

Lemma prop_DelProp_ne key o k :
  key ≠ k → Post.prop (Post.DelProp key o) k = Post.prop o k.
Proof.
  intros Hne. unfold Post.prop, Post.DelProp. simpl.
  destruct (Post.Props o) as [m|]; simpl; [|done]. by rewrite lookup_delete_ne.
Qed.

Lemma same_request_refl p : same_request p p.
Proof. by repeat split. Qed.

Lemma same_request_trans p q r : same_request p q → same_request q r → same_request p r.
Proof.
  intros (H1 & H2 & H3 & H4) (H1' & H2' & H3' & H4').
  repeat split; congruence.
Qed.

Lemma same_request_AddProp key value p :
  key ≠ "from_webhook" → same_request (Post.AddProp key value p) p.
Proof. intros Hne. split; [by apply prop_AddProp_ne|done]. Qed.

Lemma same_request_DelProp key p :
  key ≠ "from_webhook" → same_request (Post.DelProp key p) p.
Proof. intros Hne. split; [by apply prop_DelProp_ne|done]. Qed.

Lemma FillInPostProps_same_request a post channel post' :
  app.FillInPostProps a post channel = Ok post' → same_request post' post.
Proof.
  unfold app.FillInPostProps.
  match goal with |- context [match ?x with Ok _ => _ | Err _ => _ end = _] =>
    destruct x as [channelMentionsProp|err] end; [|done].
  repeat case_bool_decide; intros Heq; inversion Heq; subst.
  - by apply same_request_AddProp.
  - by apply same_request_DelProp.
  - apply same_request_refl.
Qed.

Lemma CreatePost_verifyThread_same_request post pchan w post' verified w' :
  app.CreatePost_verifyThread post pchan w = (Returns (post', verified), w') →
  same_request post' post ∧ w' = w.
Proof.
  unfold app.CreatePost_verifyThread.
  destruct pchan as [[parentPostList|err]|].
  - destruct (_ || _).
    { intros Heq; inversion Heq; subst; split; [apply same_request_refl|done]. }
    destruct (PostList.Posts parentPostList !! Post.RootId post) as [rootPost|]; [|done].
    case_bool_decide.
    { intros Heq; inversion Heq; subst; split; [apply same_request_refl|done]. }
    set (post2 := if decide (Post.ParentId post = "")
                  then Post.set_ParentId (Post.RootId post) post else post).
    assert (Hparent : same_request post2 post).
    { unfold post2. case_decide; by repeat split. }
    clearbody post2.
    destruct (decide (Post.RootId post2 ≠ Post.ParentId post2)).
    + destruct (PostList.Posts parentPostList !! _); intros Heq; inversion Heq; subst;
        (split; [exact Hparent|done]).
    + intros Heq; inversion Heq; subst. split; [exact Hparent|done].
  - intros Heq; inversion Heq; subst. split; [apply same_request_refl|done].
  - intros Heq; inversion Heq; subst. split; [apply same_request_refl|done].
Qed.

Lemma CreatePost_convertAttachments_same_request a post w out w' :
  app.CreatePost_convertAttachments a post w = (out, w') →
  ∃ post', out = Returns post' ∧ same_request post' post.
Proof.
  unfold app.CreatePost_convertAttachments.
  destruct (Post.prop post "attachments") as [[s|attachments|l|m]|];
    try (intros Heq; inversion Heq; subst; eexists; split; [done|apply same_request_refl]).
  destruct (jsonRoundTrip a attachments) as [[attachmentsInterface ok]|].
  - destruct ok; simpl; intros Heq; inversion Heq; subst; eexists; (split; [done|]);
      by apply same_request_AddProp.
  - intros Heq; inversion Heq; subst. eexists. split; [done|apply same_request_refl].
Qed.

Lemma CreatePost_afterSave_same_request a post rpost user channel triggerWebhooks
    parentPostList w post' res w' :
  app.CreatePost_afterSave a post rpost user channel triggerWebhooks parentPostList w
    = (Returns (post', res), w') →
  same_request post' post.
Proof.
  unfold app.CreatePost_afterSave. intros Hrun.
  do 4 (apply bind_inv in Hrun as [(? & ? & _ & Hrun)|(? & _ & Hrun)]; [|done]).
  apply bind_inv in Hrun as [(post1 & w1 & Hattach & Hrun)|(? & _ & Hrun)]; [|done].
  do 2 (apply bind_inv in Hrun as [(? & ? & _ & Hrun)|(? & _ & Hrun)]; [|done]).
  inversion Hrun; subst. clear Hrun.
  case_bool_decide; [|by inversion Hattach; subst; apply same_request_refl].
  apply bind_inv in Hattach as [([post2 err] & w2 & Hattach & Hrun)|(? & _ & Hrun)]; [|done].
  do 2 (apply bind_inv in Hrun as [(? & ? & _ & Hrun)|(? & _ & Hrun)]; [|done]).
  inversion Hrun; subst. clear Hrun.
  rewrite attachFilesToPost_run in Hattach. case_decide; inversion Hattach; subst.
  - apply same_request_refl.
  - by repeat split.
Qed.

Lemma RunMultiPluginHook_caller env post rejectionError replaced :
  plugin.RunMultiPluginHook env app.CreatePost_hookRunner plugin.MessageWillBePostedId
    (post, rejectionError)
  = (plugin.RunMultiPluginHook env app.CreatePost_hookRunner_caller
       plugin.MessageWillBePostedId (post, rejectionError, replaced)).1.
Proof.
  revert post rejectionError replaced.
  induction env as [|hooks env IH]; intros post rejectionError replaced; [done|].
  simpl. destruct (plugin.Implements hooks _); [|apply IH].
  destruct (plugin.MessageWillBePosted hooks post) as [replacementPost rejectionReason].
  case_decide; [done|]. destruct replacementPost as [p|]; apply IH.
Qed.

(** While no extension has replaced the post, the variable [post] is the
    post that the chain was started with. *)
Lemma RunMultiPluginHook_caller_kept env post rejectionError :
  (plugin.RunMultiPluginHook env app.CreatePost_hookRunner_caller
     plugin.MessageWillBePostedId (post, rejectionError, false)).2 = false →
  (plugin.RunMultiPluginHook env app.CreatePost_hookRunner_caller
     plugin.MessageWillBePostedId (post, rejectionError, false)).1.1 = post.
Proof.
  revert rejectionError.
  induction env as [|hooks env IH]; intros rejectionError; [done|].
  simpl. destruct (plugin.Implements hooks _); [|apply IH].
  destruct (plugin.MessageWillBePosted hooks post) as [replacementPost rejectionReason].
  case_decide; [done|]. destruct replacementPost as [p|]; [|apply IH].
  intros Hkept. exfalso. revert Hkept. clear.
  generalize rejectionError. generalize p.
  induction env as [|hooks' env IH]; intros q r; [done|].
  simpl. destruct (plugin.Implements hooks' _); [|apply IH].
  destruct (plugin.MessageWillBePosted hooks' q) as [replacementPost rejectionReason].
  case_decide; [done|]. destruct replacementPost as [p'|]; apply IH.
Qed.

Lemma CreatePost_runHooks_caller_run a post :
  app.CreatePost_runHooks a post = (app.CreatePost_runHooks_caller a post).1.
Proof.
  unfold app.CreatePost_runHooks, app.CreatePost_runHooks_caller.
  destruct (GetPluginsEnvironment a) as [env|]; [|done].
  apply RunMultiPluginHook_caller.
Qed.

Lemma CreatePost_runHooks_caller_kept a post :
  (app.CreatePost_runHooks_caller a post).2 = false →
  (app.CreatePost_runHooks_caller a post).1.1 = post.
Proof.
  unfold app.CreatePost_runHooks_caller.
  destruct (GetPluginsEnvironment a) as [env|]; [|done].
  apply RunMultiPluginHook_caller_kept.
Qed.

(** The two embeddings of the body of [CreatePost] agree, and the call
    leaves alone what [CreatePostAsUser] reads of the post of its caller. *)
Lemma CreatePost_body_caller_run a post channel triggerWebhooks w :
  match app.CreatePost_body a post channel triggerWebhooks w with
  | (Returns (p, res), w') =>
      ∃ callers,
        app.CreatePost_body_caller a post channel triggerWebhooks w
          = (Returns (callers, p, res), w')
        ∧ same_request callers post
  | (Panics reason, w') =>
      app.CreatePost_body_caller a post channel triggerWebhooks w = (Panics reason, w')
  end.
Proof.
  unfold app.CreatePost_body, app.CreatePost_body_caller.
  assert (H1 : same_request (Post.SanitizeProps post) post)
    by (by apply same_request_DelProp).
  set (post1 := Post.SanitizeProps post) in *. clearbody post1.
  destruct (Store_User_Get a (Post.UserId post1)) as [user|err]; [|by eexists].
  assert (H2 : same_request
                 (if User.IsBot user then Post.AddProp "from_bot" (PVString "true") post1
                  else post1) post).
  { destruct (User.IsBot user); [|done].
    eapply same_request_trans; [|exact H1]. by apply same_request_AddProp. }
  set (post2 := if User.IsBot user then _ else post1) in *. clearbody post2.
  destruct (app.CreatePost_townSquareIsReadOnly a post2 channel user); [by eexists|].
  unfold mbind, M_bind, bind.
  destruct (app.CreatePost_verifyThread post2 _ w) as [[[post3 verified]|reason] w3] eqn:Hv;
    [|done].
  apply CreatePost_verifyThread_same_request in Hv as [H3 ->].
  assert (H3' : same_request post3 post) by (by eapply same_request_trans).
  clear H3. destruct verified as [parentPostList|err]; [|by eexists].
  assert (H4 : same_request (Post.set_Hashtags (ParseHashtags a (Post.Message post3)).1 post3)
                 post).
  { eapply same_request_trans; [|exact H3']. by repeat split. }
  set (post4 := Post.set_Hashtags _ post3) in *. clearbody post4.
  destruct (app.FillInPostProps a post4 (Some channel)) as [post5|err] eqn:Hfill;
    [|by eexists].
  apply FillInPostProps_same_request in Hfill.
  assert (H5 : same_request post5 post) by (by eapply same_request_trans).
  destruct (app.CreatePost_convertAttachments a post5 w) as [out6 w6] eqn:Hconv.
  apply CreatePost_convertAttachments_same_request in Hconv as (post6 & -> & H6).
  assert (H6' : same_request post6 post) by (by eapply same_request_trans).
  rewrite CreatePost_runHooks_caller_run.
  pose proof (CreatePost_runHooks_caller_kept a post6) as Hkept.
  destruct (app.CreatePost_runHooks_caller a post6) as [[post7 rejectionError] replaced].
  simpl in Hkept. simpl.
  assert (H7 : same_request (if replaced then post6 else post7) post).
  { destruct replaced; [done|]. by rewrite Hkept. }
  destruct rejectionError as [err|]; [by eexists|].
  simpl.
  destruct (Store_Post_Save a post7) as [rpost|err]; [|by eexists].
  destruct (app.CreatePost_afterSave a post7 rpost user channel triggerWebhooks
              parentPostList _) as [[[post8 res]|reason] w8] eqn:Hafter; [|done].
  apply CreatePost_afterSave_same_request in Hafter.
  eexists. split; [reflexivity|].
  destruct replaced; [done|]. eapply same_request_trans; [exact Hafter|].
  by rewrite Hkept in *.
Qed.

(** The two embeddings of [CreatePost] agree. *)
Lemma CreatePost_caller_run a post channel triggerWebhooks w :
  match app.CreatePost a post channel triggerWebhooks w with
  | (Returns res, w') =>
      ∃ callers,
        app.CreatePost_caller a post channel triggerWebhooks w = (Returns (callers, res), w')
        ∧ same_request callers post
  | (Panics reason, w') =>
      app.CreatePost_caller a post channel triggerWebhooks w = (Panics reason, w')
  end.
Proof.
  unfold app.CreatePost, app.CreatePost_caller. unfold mbind, M_bind, bind.
  destruct (app.deduplicateCreatePost a post w) as [[[[foundPost|]|err]|reason] w0].
  - exists post. split; [done|apply same_request_refl].
  - pose proof (CreatePost_body_caller_run a post channel triggerWebhooks w0) as Hbody.
    destruct (app.CreatePost_body a post channel triggerWebhooks w0)
      as [[[p res]|reason] w1].
    + destruct Hbody as (callers & -> & Hsame).
      rewrite CreatePost_deferred_settled. by exists callers.
    + by rewrite Hbody.
  - exists post. split; [done|apply same_request_refl].
  - done.
Qed.

Lemma CreatePost_appends a post channel triggerWebhooks w :
  ∃ evs, events (app.CreatePost a post channel triggerWebhooks w).2 = events w ++ evs.
Proof.
  destruct (decide (Post.PendingPostId post = "")) as [Htok|Htok];
    [|destruct (Cache.find (Post.PendingPostId post) (now_of a w)
                  (seenPendingPostIdsCache w)) as [e|] eqn:Hfind].
  2:{ destruct (CreatePost_answered a post channel triggerWebhooks w e Htok Hfind)
        as (res & logs & -> & Hlogs).
      by exists logs. }
  all: assert (Hnew : Post.PendingPostId post = "" ∨ unseen a w (Post.PendingPostId post))
         by auto;
       destruct (CreatePost_new_run a post channel triggerWebhooks w Hnew)
         as (out & w1 & Hrun & ->);
       destruct (CreatePost_run_orderly a post _ out w1 Hrun) as (evs & Hevs & Hord);
       exists evs; rewrite events_entered in Hevs;
       destruct out as [[p res]|reason]; simpl; rewrite ?events_settled; done.
Qed.

(** X29.  For a post that is not a system message, in a channel that is
    found and not deleted, [CreatePostAsUser] is [CreatePost] with webhooks
    triggered, followed by this.  When [CreatePost] answers with a post, the
    channel is marked as viewed by the author, once, exactly when the
    submitted post has no [from_webhook] property, whatever the extensions
    made of the post; a failure to mark is logged and the post is still the
    answer.  When [CreatePost] fails, with another error than the read-only
    one, nothing is added to its effects and its error is the answer, with
    status 400 for the three errors of the thread check.  A panic of
    [CreatePost] is a panic of [CreatePostAsUser]. *)
Theorem CreatePostAsUser_composes a b post currentSessionId channel s :
  Store_Channel_Get b (Post.ChannelId post) true = Ok channel →
  strings_HasPrefix (Post.Type_ post) POST_SYSTEM_MESSAGE_PREFIX = false →
  Channel.DeleteAt channel = 0%Z →
  ∃ evs,
    events (app.CreatePost a post channel true (world s)).2 = events (world s) ++ evs
    ∧ match app.CreatePost a post channel true (world s) with
      | (Returns (Ok rp), w') =>
          let err := MarkChannelsAsViewed b [Post.ChannelId post] (Post.UserId post)
                       currentSessionId in
          let logs := match err with
                      | Some _ => [EvLog LError "Encountered error updating last viewed"]
                      | None => []
                      end in
          app.CreatePostAsUser a b post currentSessionId s
          = (Returns (Ok rp),
             if bool_decide (Post.prop post "from_webhook" = None) then
               lifted (with_events logs w') logs
                 (with_trace [EfMarkChannelsAsViewed [Post.ChannelId post] (Post.UserId post)
                                currentSessionId err]
                    (lifted w' evs s))
             else lifted w' evs s)
      | (Returns (Err err), w') =>
          AppError.Id err ≠ "api.post.create_post.town_square_read_only" →
          app.CreatePostAsUser a b post currentSessionId s
          = (Returns
               (Err (if bool_decide
                          (AppError.Id err = "api.post.create_post.root_id.app_error"
                           ∨ AppError.Id err
                             = "api.post.create_post.channel_root_id.app_error"
                           ∨ AppError.Id err = "api.post.create_post.parent_id.app_error")
                     then AppError_set_StatusCode StatusBadRequest err else err)),
             lifted w' evs s)
      | (Panics reason, w') =>
          app.CreatePostAsUser a b post currentSessionId s = (Panics reason, lifted w' evs s)
      end.
Proof.
  intros Hchannel Htype Hlive.
  destruct (CreatePost_appends a post channel true (world s)) as (evs & Hevs).
  exists evs. split; [exact Hevs|].
  unfold app.CreatePostAsUser. rewrite Hchannel, Htype, decide_False by (by intros ?).
  pose proof (CreatePost_caller_run a post channel true (world s)) as Hcaller.
  destruct (app.CreatePost a post channel true (world s)) as [[[rp|err]|reason] w'].
  - destruct Hcaller as (callers & Hcaller & Hweb & Hchan & Huser & _).
    simpl in Hevs.
    erewrite N_bind_Returns by (by eapply lift_M_run).
    cbv beta iota. rewrite Hweb, Hchan, Huser.
    case_bool_decide; [|done].
    erewrite N_bind_Returns.
    2:{ apply (effect_then_log _ LError "Encountered error updating last viewed"). }
    reflexivity.
  - destruct Hcaller as (callers & Hcaller & _).
    simpl in Hevs. intros Hid.
    erewrite N_bind_Returns by (by eapply lift_M_run).
    cbv beta iota zeta.
    rewrite decide_False; [done|].
    case_bool_decide; done.
  - simpl in Hevs. erewrite N_bind_Panics by (by eapply lift_M_run). done.
Qed.

Lemma CreatePostAsUser_composes_witness :
  app.CreatePost Desk.a Office.hello Fixture.town true Desk.w
  = (Returns (Ok (Fixture.post "p-new" "hi" "")),
     (app.CreatePost Desk.a Office.hello Fixture.town true Desk.w).2)
  ∧ ∃ evs,
      events (app.CreatePost Desk.a Office.hello Fixture.town true Desk.w).2
      = events Desk.w ++ evs
      ∧ app.CreatePostAsUser Desk.a Desk.b Office.hello "session" Office.s
        = (Returns (Ok (Fixture.post "p-new" "hi" "")),
           lifted (app.CreatePost Desk.a Office.hello Fixture.town true Desk.w).2 []
             (with_trace [EfMarkChannelsAsViewed ["c1"] "u1" "session" None]
                (lifted (app.CreatePost Desk.a Office.hello Fixture.town true Desk.w).2 evs
                   Office.s))).
Proof.
  split; [vm_compute; reflexivity|].
  destruct (CreatePostAsUser_composes Desk.a Desk.b Office.hello "session" Fixture.town
              Office.s eq_refl eq_refl eq_refl) as (evs & Hevs & Hrun).
  exists evs. split; [exact Hevs|].
  etrans; [exact Hrun|]. by f_equal.
Defined.

Lemma CreatePost_caller_read_only a post channel user w :
  (Post.PendingPostId post = "" ∨ unseen a w (Post.PendingPostId post)) →
  Store_User_Get a (Post.UserId post) = Ok user →
  app.CreatePost_townSquareIsReadOnly a post channel user = true →
  ∃ callers err,
    err = NewAppError "createPost" "api.post.create_post.town_square_read_only" [] ""
            StatusForbidden
    ∧ app.CreatePost_caller a post channel true w
      = (Returns (callers, Err err), settled a post (Err err) (entered a post w))
    ∧ Post.UserId callers = Post.UserId post
    ∧ Post.RootId callers = Post.RootId post
    ∧ Post.ParentId callers = Post.ParentId post.
Proof.
  intros Hnew Huser Hro. unfold app.CreatePost_caller.
  erewrite bind_Returns by (by apply deduplicateCreatePost_new). cbv beta iota.
  unfold app.CreatePost_body_caller.
  change (Post.UserId (Post.SanitizeProps post)) with (Post.UserId post). rewrite Huser.
  set (post2 := if User.IsBot user then _ else Post.SanitizeProps post).
  assert (Hfields : Post.UserId post2 = Post.UserId post
                    ∧ Post.RootId post2 = Post.RootId post
                    ∧ Post.ParentId post2 = Post.ParentId post
                    ∧ Post.Type_ post2 = Post.Type_ post
                    ∧ Post.PendingPostId post2 = Post.PendingPostId post).
  { unfold post2. by destruct (User.IsBot user). }
  destruct Hfields as (Hu & Hr & Hp & Ht & Htok).
  assert (Hro2 : app.CreatePost_townSquareIsReadOnly a post2 channel user = true).
  { revert Hro. unfold app.CreatePost_townSquareIsReadOnly, Post.IsSystemMessage.
    by rewrite Ht. }
  rewrite Hro2. clearbody post2.
  erewrite bind_Returns by apply ret_run. cbv beta iota.
  erewrite bind_Returns by apply CreatePost_deferred_settled.
  eexists post2, _. split; [reflexivity|]. split; [|done].
  rewrite ret_run. unfold settled. by rewrite Htok.
Qed.

(** X30.  When the read-only policy of the default channel refuses a new
    post, [CreatePostAsUser] answers with the error [town_square_read_only]
    (status 403) and writes nothing to the store; its only effect is one
    ephemeral message, published to the author alone: a post of the
    ephemeral type in that channel and thread, with a fresh identifier, the
    notice in the language of the author as its message, and the reading of
    the clock plus 1 ms as its creation time.  The token of the request, if
    any, is released. *)
Theorem CreatePostAsUser_read_only_notice a b post currentSessionId channel user s :
  Store_Channel_Get b (Post.ChannelId post) true = Ok channel →
  strings_HasPrefix (Post.Type_ post) POST_SYSTEM_MESSAGE_PREFIX = false →
  Channel.DeleteAt channel = 0%Z →
  (Post.PendingPostId post = "" ∨ unseen a (world s) (Post.PendingPostId post)) →
  Store_User_Get a (Post.UserId post) = Ok user →
  app.CreatePost_townSquareIsReadOnly a post channel user = true →
  clock_in_range a →
  let err := NewAppError "createPost" "api.post.create_post.town_square_read_only" [] ""
               StatusForbidden in
  let w1 := settled a post (Err err) (entered a post (world s)) in
  let notice := read_only_notice b post channel user (NewId b (drawn s))
                  (now_of a w1 + 1) in
  let publish := EvPublish (WEBSOCKET_EVENT_EPHEMERAL_MESSAGE b)
                   (Post.ChannelId (Post_GenerateActionIds b notice)) (Post.UserId post)
                   (published a b notice) in
  app.CreatePostAsUser a b post currentSessionId s
  = (Returns (Err err),
     mkSite (with_events [publish] (tick w1)) (S (drawn s)) (trace s ++ [EfEvent publish])).
Proof.
  intros Hchannel Htype Hlive Hnew Huser Hro Hclock err w1 notice publish.
  unfold app.CreatePostAsUser. rewrite Hchannel, Htype, decide_False by (by intros ?).
  destruct (CreatePost_caller_read_only a post channel user (world s) Hnew Huser Hro)
    as (callers & err' & -> & Hcaller & Hu & Hr & Hp).
  fold err w1 in Hcaller.
  erewrite N_bind_Returns.
  2:{ apply (lift_M_run _ s _ w1 []); [exact Hcaller|].
      unfold w1. by rewrite events_settled, events_entered, app_nil_r. }
  cbv beta iota zeta. rewrite bool_decide_eq_false_2 by (by intros [?|[?|?]]).
  rewrite decide_True by done. rewrite Hu, Hr, Hp, Huser.
  erewrite N_bind_Returns by apply lift_M_GetMillis.
  assert (Hnow : add64 (now_of a w1) 1 = (now_of a w1 + 1)%Z).
  { unfold add64, wrap64. pose proof (Hclock (clockReads w1)) as Hn. unfold now_of.
    rewrite Z.mod_small by lia. lia. }
  assert (Hpos : (now_of a w1 + 1)%Z ≠ 0%Z).
  { pose proof (Hclock (clockReads w1)) as Hn. unfold now_of. lia. }
  simpl world. rewrite Hnow.
  unfold app.SendEphemeralPost. simpl Post.Id. rewrite decide_True by done.
  unfold mbind at 1 2 3, N_mbind at 1 2 3, N_bind, draw, mret, N_mret, N_ret. simpl.
  rewrite decide_False by done.
  unfold lift_M, emit. simpl. rewrite !app_nil_r, drop_app_length. reflexivity.
Qed.

Lemma CreatePostAsUser_read_only_notice_witness :
  app.CreatePostAsUser Office.a_read_only Desk.b Office.hello "session" Office.s
  = (Returns (Err (NewAppError "createPost" "api.post.create_post.town_square_read_only"
                     [] "" StatusForbidden)),
     mkSite
       (with_events [EvPublish "ephemeral_message" "c1" "u1" Office.notice] (tick Desk.w))
       1 [EfEvent (EvPublish "ephemeral_message" "c1" "u1" Office.notice)]).
Proof.
  apply (CreatePostAsUser_read_only_notice Office.a_read_only Desk.b Office.hello "session"
           Fixture.town Fixture.alice Office.s).
  - reflexivity.
  - reflexivity.
  - reflexivity.
  - by left.
  - reflexivity.
  - reflexivity.
  - intros n. simpl. lia.
Defined.
